(** * emotionCF: collaborative filtering over a subject-by-item ratings table

    A shallow embedding of [emotioncf/cf.py]: the [BaseCF] state and its
    evaluation helpers, train/test splitting, time-series dilation, and the
    four models [Mean], [KNN], [NNMF_multiplicative] and [NNMF_sgd].

    Conventions of the embedding.
    - A cell is a [flt]: an exact rational, one of the two infinities, or
      [NaN] (pandas' missing marker).  Arithmetic follows IEEE-754 on the
      special values and is exact on finite ones: rounding, overflow and the
      sign of zero are not modelled.
    - A table is a list of rows; the label of a row or of a column is its
      position, so labels are unique and equal shape means equal labels.
    - Random draws ([np.random.choice], [rand], [normal], [shuffle]) are
      explicit arguments of the operation that makes them.
    - [np.sqrt] on a finite value is the section variable [sqrtQ]. *)

From Stdlib Require Import QArith Qcanon Qround ZArith List Bool String Lia Sorted Permutation.
From stdpp Require Import base list.
Import ListNotations.

Local Open Scope Z_scope.

(** ** Cells: rationals extended with the IEEE special values *)

Inductive flt : Type :=
| Fin (q : Q)
| PInf
| NInf
| NaN.

Definition Qzero (q : Q) : bool := (Qnum q =? 0)%Z.
Definition Qpos (q : Q) : bool := (0 <? Qnum q)%Z.
Definition Qltb (a b : Q) : bool :=
  (Qnum a * Zpos (Qden b) <? Qnum b * Zpos (Qden a))%Z.

Definition fin (q : Q) : flt := Fin (Qred q).
Definition of_Z (z : Z) : flt := Fin (inject_Z z).
Definition of_nat (n : nat) : flt := of_Z (Z.of_nat n).
Definition of_bool (b : bool) : flt := if b then of_Z 1 else of_Z 0.

Definition isnan (x : flt) : bool :=
  match x with NaN => true | _ => false end.

Definition fneg (x : flt) : flt :=
  match x with
  | Fin q => fin (Qopp q)
  | PInf => NInf
  | NInf => PInf
  | NaN => NaN
  end.

Definition fadd (x y : flt) : flt :=
  match x, y with
  | NaN, _ | _, NaN => NaN
  | Fin a, Fin b => fin (Qplus a b)
  | PInf, NInf | NInf, PInf => NaN
  | PInf, _ | _, PInf => PInf
  | NInf, _ | _, NInf => NInf
  end.

Definition fsub (x y : flt) : flt := fadd x (fneg y).

(** Sign of an infinite product or quotient: [PInf] when [pos]. *)
Definition inf_of (pos : bool) : flt := if pos then PInf else NInf.

Definition fmul (x y : flt) : flt :=
  match x, y with
  | NaN, _ | _, NaN => NaN
  | Fin a, Fin b => fin (Qmult a b)
  | Fin a, PInf | PInf, Fin a => if Qzero a then NaN else inf_of (Qpos a)
  | Fin a, NInf | NInf, Fin a => if Qzero a then NaN else inf_of (negb (Qpos a))
  | PInf, PInf | NInf, NInf => PInf
  | PInf, NInf | NInf, PInf => NInf
  end.

Definition fdiv (x y : flt) : flt :=
  match x, y with
  | NaN, _ | _, NaN => NaN
  | Fin a, Fin b =>
      if Qzero b then (if Qzero a then NaN else inf_of (Qpos a))
      else fin (Qdiv a b)
  | Fin _, PInf | Fin _, NInf => of_Z 0
  | PInf, Fin b => inf_of (Qzero b || Qpos b)
  | NInf, Fin b => inf_of (negb (Qzero b || Qpos b))
  | _, _ => NaN
  end.

(** [x < y]; false as soon as one side is [NaN]. *)
Definition fltb (x y : flt) : bool :=
  match x, y with
  | NaN, _ | _, NaN => false
  | Fin a, Fin b => Qltb a b
  | NInf, NInf | PInf, _ => false
  | NInf, _ => true
  | Fin _, PInf => true
  | Fin _, NInf => false
  end.

Definition feqb (x y : flt) : bool :=
  match x, y with
  | Fin a, Fin b => Qeq_bool a b
  | PInf, PInf | NInf, NInf => true
  | _, _ => false
  end.

Definition fgeb (x y : flt) : bool := fltb y x || feqb x y.

(** [np.maximum]: the larger value, [NaN] if either is. *)
Definition np_maximum (x y : flt) : flt :=
  match x, y with
  | NaN, _ | _, NaN => NaN
  | _, _ => if fltb x y then y else x
  end.

(** Python's builtin [min(a, b)] and [max(a, b)] on two arguments: the
    second one only if it compares strictly below (above) the first. *)
Definition py_min (a b : flt) : flt := if fltb b a then b else a.
Definition py_max (a b : flt) : flt := if fltb a b then b else a.

Definition fsq (x : flt) : flt := fmul x x.

Definition np_sum (l : list flt) : flt := fold_left fadd l (of_Z 0).

(** [np.mean] of a flat array: [NaN] on the empty array (0/0). *)
Definition np_mean (l : list flt) : flt := fdiv (np_sum l) (of_nat (length l)).

(** [np.dot] of two vectors of one length. *)
Definition np_dot (x y : list flt) : flt := np_sum (zip_with fmul x y).

(** Mean that skips missing cells ([skipna=True], [np.nanmean]). *)
Definition nanmean (l : list flt) : flt :=
  np_mean (List.filter (fun x => negb (isnan x)) l).

(** ** Exceptions and the two monads of the embedding *)

Inductive exn : Type :=
| ValueError (msg : string)
| NotImplementedError (metric : string)
| AttributeError (attr : string)
| KeyError
| IndexError
| ZeroDivisionError
| TypeError.

Inductive result (A : Type) : Type :=
| Ok (a : A)
| Raise (e : exn).
Arguments Ok {A} a.
Arguments Raise {A} e.

Definition rbind {A B} (r : result A) (k : A -> result B) : result B :=
  match r with Ok a => k a | Raise e => Raise e end.

(** A method that mutates [self]: the state it leaves behind is returned
    also when it raises, as an exception does not undo assignments. *)
Definition M (S A : Type) : Type := S -> result A * S.

Definition ret {S A} (a : A) : M S A := fun s => (Ok a, s).
Definition raise {S A} (e : exn) : M S A := fun s => (Raise e, s).
Definition bind {S A B} (m : M S A) (k : A -> M S B) : M S B :=
  fun s => match m s with
           | (Ok a, s') => k a s'
           | (Raise e, s') => (Raise e, s')
           end.
Definition get {S} : M S S := fun s => (Ok s, s).
Definition modify {S} (f : S -> S) : M S unit := fun s => (Ok tt, f s).
Definition lift {S A} (r : result A) : M S A := fun s => (r, s).

Declare Scope cf_scope.
Delimit Scope cf_scope with cf.
Notation "'let*' x ':=' m 'in' k" := (bind m (fun x => k))
  (at level 10, x name, m at level 100, k at level 200) : cf_scope.
Notation "'let!' x ':=' r 'in' k" := (rbind r (fun x => k))
  (at level 10, x name, r at level 100, k at level 200) : cf_scope.
Local Open Scope cf_scope.

(** Reading an attribute that was never assigned (or is still [None]). *)
Definition attr {A} (name : string) (o : option A) : result A :=
  match o with Some a => Ok a | None => Raise (AttributeError name) end.

Definition msg_unfit : string :=
  "You must fit() model first before using this method.".
Definition msg_nopredict : string :=
  "You must predict() model first before using this method.".
Definition msg_nosplit : string :=
  "Must run split_train_test() before using this option.".
Definition msg_notest : string :=
  "No test data available. Use data='all' or 'training'".
Definition msg_data : string := "data must be ['all','training','test']".
Definition msg_nsamples : string :=
  "Please specify number of samples to dilate.".
Definition msg_nomask : string := "Make sure cf instance has been masked.".
Definition msg_choice : string :=
  "Cannot take a larger sample than population when 'replace=False'".
Definition msg_convolve : string := "v cannot be empty".
Definition msg_broadcast : string := "cannot broadcast result".
Definition msg_shapes : string := "shapes not aligned".

(** The error kinds of the specification. *)
Definition unfit_state_error : exn := ValueError msg_unfit.
Definition no_prediction_error : exn := ValueError msg_nopredict.
Definition missing_split_error : exn := ValueError msg_nosplit.
Definition no_test_data_error : exn := ValueError msg_notest.
Definition no_mask_error : exn := ValueError msg_nomask.

(** ** Tables and masks *)

Abbreviation row := (list flt) (only parsing).
Abbreviation table := (list (list flt)) (only parsing).
Abbreviation bmask := (list (list bool)) (only parsing).

(** [df.shape]: the column count is read off the first row. *)
Definition shape {A} (t : list (list A)) : nat * nat :=
  (length t, match t with [] => 0%nat | r :: _ => length r end).

(** Every row has [m] cells. *)
Definition rect {A} (m : nat) (t : list (list A)) : Prop :=
  Forall (fun r => length r = m) t.

(** Two tables with the same rows and the same cells per row. *)
Definition same_shape {A B} (t : list (list A)) (u : list (list B)) : Prop :=
  map (@length A) t = map (@length B) u.

Definition same_shapeb {A B} (t : list (list A)) (u : list (list B)) : bool :=
  bool_decide (map (@length A) t = map (@length B) u).

Definition cell (t : table) (i j : nat) : flt :=
  default NaN (t !! i ≫= fun r => r !! j).

Definition mcell (m : bmask) (i j : nat) : bool :=
  default false (m !! i ≫= fun r => r !! j).

(** [df[mask]]: cells kept where the mask is true, missing elsewhere;
    a cell the mask does not cover counts as false. *)
Definition where_mask (t : table) (m : bmask) : table :=
  imap (fun i r => imap (fun j x => if mcell m i j then x else NaN) r) t.

Definition isnull (t : table) : bmask := map (map isnan) t.
Definition notnull (t : table) : bmask := map (map (fun x => negb (isnan x))) t.
Definition invert (m : bmask) : bmask := map (map negb) m.

Definition any_null (t : table) : bool :=
  existsb (existsb isnan) t.

Definition flatten (t : table) : list flt := concat t.

Definition select_row {A} (r : list A) (m : list bool) : list A :=
  map fst (List.filter snd (zip r m)).

(** [arr[mask]] with a boolean array of the same shape: the selected cells
    in row-major order; [IndexError] when the shapes differ. *)
Definition select (t : table) (m : bmask) : result (list flt) :=
  if same_shapeb t m then Ok (concat (zip_with select_row t m))
  else Raise IndexError.

(** [df.mean(skipna=True, axis=0)]: one mean per column. *)
Definition column (t : table) (j : nat) : list flt :=
  map (fun r => default NaN (r !! j)) t.
Definition col_means (t : table) : row :=
  map (fun j => nanmean (column t j)) (seq 0 (snd (shape t))).

(** ** BaseCF *)

Record BaseCF : Type := {
  ratings : table;
  predicted_ratings : option table;
  is_fit : bool;
  is_predict : bool;
  is_mask : bool;
  is_mask_dilated : bool;
  train_mask : option bmask;
  masked_ratings : option table;
  dilated_mask : option bmask;
  n_train_items : option nat
}.

Definition set_predicted_ratings (v : option table) (s : BaseCF) : BaseCF :=
  {| ratings := ratings s; predicted_ratings := v; is_fit := is_fit s;
     is_predict := is_predict s; is_mask := is_mask s;
     is_mask_dilated := is_mask_dilated s; train_mask := train_mask s;
     masked_ratings := masked_ratings s; dilated_mask := dilated_mask s;
     n_train_items := n_train_items s |}.
Definition set_is_fit (v : bool) (s : BaseCF) : BaseCF :=
  {| ratings := ratings s; predicted_ratings := predicted_ratings s;
     is_fit := v; is_predict := is_predict s; is_mask := is_mask s;
     is_mask_dilated := is_mask_dilated s; train_mask := train_mask s;
     masked_ratings := masked_ratings s; dilated_mask := dilated_mask s;
     n_train_items := n_train_items s |}.
Definition set_is_predict (v : bool) (s : BaseCF) : BaseCF :=
  {| ratings := ratings s; predicted_ratings := predicted_ratings s;
     is_fit := is_fit s; is_predict := v; is_mask := is_mask s;
     is_mask_dilated := is_mask_dilated s; train_mask := train_mask s;
     masked_ratings := masked_ratings s; dilated_mask := dilated_mask s;
     n_train_items := n_train_items s |}.
Definition set_is_mask (v : bool) (s : BaseCF) : BaseCF :=
  {| ratings := ratings s; predicted_ratings := predicted_ratings s;
     is_fit := is_fit s; is_predict := is_predict s; is_mask := v;
     is_mask_dilated := is_mask_dilated s; train_mask := train_mask s;
     masked_ratings := masked_ratings s; dilated_mask := dilated_mask s;
     n_train_items := n_train_items s |}.
Definition set_is_mask_dilated (v : bool) (s : BaseCF) : BaseCF :=
  {| ratings := ratings s; predicted_ratings := predicted_ratings s;
     is_fit := is_fit s; is_predict := is_predict s; is_mask := is_mask s;
     is_mask_dilated := v; train_mask := train_mask s;
     masked_ratings := masked_ratings s; dilated_mask := dilated_mask s;
     n_train_items := n_train_items s |}.
Definition set_train_mask (v : option bmask) (s : BaseCF) : BaseCF :=
  {| ratings := ratings s; predicted_ratings := predicted_ratings s;
     is_fit := is_fit s; is_predict := is_predict s; is_mask := is_mask s;
     is_mask_dilated := is_mask_dilated s; train_mask := v;
     masked_ratings := masked_ratings s; dilated_mask := dilated_mask s;
     n_train_items := n_train_items s |}.
Definition set_masked_ratings (v : option table) (s : BaseCF) : BaseCF :=
  {| ratings := ratings s; predicted_ratings := predicted_ratings s;
     is_fit := is_fit s; is_predict := is_predict s; is_mask := is_mask s;
     is_mask_dilated := is_mask_dilated s; train_mask := train_mask s;
     masked_ratings := v; dilated_mask := dilated_mask s;
     n_train_items := n_train_items s |}.
Definition set_dilated_mask (v : option bmask) (s : BaseCF) : BaseCF :=
  {| ratings := ratings s; predicted_ratings := predicted_ratings s;
     is_fit := is_fit s; is_predict := is_predict s; is_mask := is_mask s;
     is_mask_dilated := is_mask_dilated s; train_mask := train_mask s;
     masked_ratings := masked_ratings s; dilated_mask := v;
     n_train_items := n_train_items s |}.
Definition set_n_train_items (v : option nat) (s : BaseCF) : BaseCF :=
  {| ratings := ratings s; predicted_ratings := predicted_ratings s;
     is_fit := is_fit s; is_predict := is_predict s; is_mask := is_mask s;
     is_mask_dilated := is_mask_dilated s; train_mask := train_mask s;
     masked_ratings := masked_ratings s; dilated_mask := dilated_mask s;
     n_train_items := v |}.

(** [BaseCF.__init__] without [n_train_items]; with it, the constructor
    goes on with [split_train_test] (see [BaseCF_init_split]). *)
Definition BaseCF_init (r : table) (mask : option bmask) : BaseCF :=
  let s0 := {| ratings := r; predicted_ratings := None; is_fit := false;
               is_predict := false; is_mask := false;
               is_mask_dilated := false; train_mask := None;
               masked_ratings := None; dilated_mask := None;
               n_train_items := None |} in
  let masked m :=
    set_is_mask true
      (set_masked_ratings (Some (where_mask r m)) (set_train_mask (Some m) s0)) in
  match mask with
  | Some m => masked m
  | None => if any_null r then masked (notnull r) else s0
  end.

(** *** split_train_test *)

(** [train_mask.loc[sub, items] = True] on one row. *)
Definition mark_row (items : list nat) (r : list bool) : list bool :=
  foldr (fun j acc => <[j:=true]> acc) r items.

(** The mask the loop over subjects builds from the all-false table;
    [draws !! i] is what [np.random.choice(columns, replace=False, size=k)]
    returned for the [i]-th subject. *)
Definition zeros_like (t : table) : bmask := map (map (fun _ => false)) t.

Definition split_mask (t : table) (draws : list (list nat)) : bmask :=
  imap (fun i r => mark_row (default [] (draws !! i)) r) (zeros_like t).

Definition split_train_test (k : nat) (draws : list (list nat))
  : M BaseCF unit :=
  let* s := get in
  let* _ := modify (set_n_train_items (Some k)) in
  let* _ := modify (set_train_mask (Some (zeros_like (ratings s)))) in
  if negb (length (ratings s) =? 0)%nat && (snd (shape (ratings s)) <? k)%nat
  then raise (ValueError msg_choice)
  else
    let m := split_mask (ratings s) draws in
    let* _ := modify (set_train_mask (Some m)) in
    let* _ := modify (set_masked_ratings (Some (where_mask (ratings s) m))) in
    modify (set_is_mask true).

Definition BaseCF_init_split (r : table) (mask : option bmask)
  (k : nat) (draws : list (list nat)) : result unit * BaseCF :=
  split_train_test k draws (BaseCF_init r mask).

(** What the random source may return for one subject: [k] distinct
    columns out of [ncols]. *)
Definition valid_choice (ncols k : nat) (items : list nat) : Prop :=
  length items = k /\ NoDup items /\ Forall (fun j => (j < ncols)%nat) items.

(** Number of true cells in a row of a mask, and where they are. *)
Definition count_true (r : list bool) : nat :=
  length (List.filter (fun b : bool => b) r).

Definition true_positions (r : list bool) : list nat :=
  List.filter (fun j => default false (r !! j)) (seq 0 (length r)).

(** *** Dilation of sparse time series *)

(** The cells of [a] under a window of [n] ones centred on [i], as
    [np.convolve(a, ones(n), mode='same')] sums them: positions
    [i - n/2 .. i - n/2 + n - 1], cut at both ends of [a]. *)
Definition conv_window (n i : nat) (a : list flt) : list flt :=
  let h := (n / 2)%nat in
  if (h <=? i)%nat then take n (drop (i - h)%nat a)
  else take (n - (h - i))%nat a.

Definition convolve_same_ones (n : nat) (a : list flt) : list flt :=
  imap (fun i _ => np_sum (conv_window n i a)) a.

Definition _conv_ts_mean_overlap (n_samples : nat) (sub_rating : row) : row :=
  let bin_sub_rating := map (fun x => of_bool (negb (isnan x))) sub_rating in
  let filled := map (fun x => if isnan x then of_Z 0 else x) sub_rating in
  let bin_sub_rating_conv := convolve_same_ones n_samples bin_sub_rating in
  let sub_rating_conv := convolve_same_ones n_samples filled in
  zip_with (fun c r =>
              if feqb c (of_Z 0) then NaN
              else if fgeb c (of_Z 1) then fdiv r c else r)
           bin_sub_rating_conv sub_rating_conv.

Definition _dilate_ts_rating_samples (n_samples : option nat)
  : M BaseCF table :=
  match n_samples with
  | None => raise (ValueError msg_nsamples)
  | Some n =>
      let* s := get in
      if negb (is_mask s) then raise no_mask_error
      else
        let* m := lift (attr "train_mask" (train_mask s)) in
        let mr := where_mask (ratings s) m in
        let* _ := modify (set_masked_ratings (Some mr)) in
        let ncols := snd (shape mr) in
        if negb (length mr =? 0)%nat && ((n =? 0)%nat || (ncols =? 0)%nat)
        then raise (ValueError msg_convolve)
        else if negb (length mr =? 0)%nat && (ncols <? n)%nat
        then raise (ValueError msg_broadcast)
        else
          let d := map (_conv_ts_mean_overlap n) mr in
          let* _ := modify (set_masked_ratings (Some d)) in
          let* _ := modify (set_dilated_mask (Some (notnull d))) in
          let* _ := modify (set_is_mask_dilated true) in
          ret d
  end.

(** *** Retrieval of (actual, predicted) pairs and overall error *)

Definition _retrieve_predictions (data : string) (s : BaseCF)
  : result (list flt * list flt) :=
  if negb (existsb (String.eqb data) ["all"; "training"; "test"]%string)
  then Raise (ValueError msg_data)
  else if String.eqb data "all" then
    if is_mask s then
      let! mr := attr "masked_ratings" (masked_ratings s) in
      let! pr := attr "predicted_ratings" (predicted_ratings s) in
      if is_mask_dilated s then
        let! dm := attr "dilated_mask" (dilated_mask s) in
        let! actual := select mr dm in
        let! predicted := select pr dm in
        Ok (actual, predicted)
      else
        let! tm := attr "train_mask" (train_mask s) in
        let! actual := select mr tm in
        let! predicted := select pr tm in
        Ok (actual, predicted)
    else
      let! pr := attr "predicted_ratings" (predicted_ratings s) in
      Ok (flatten (ratings s), flatten pr)
  else if is_mask s then
    let! tm := attr "train_mask" (train_mask s) in
    let! pr := attr "predicted_ratings" (predicted_ratings s) in
    if String.eqb data "training" then
      let! mr := attr "masked_ratings" (masked_ratings s) in
      let! actual := select mr tm in
      let! predicted := select pr tm in
      Ok (actual, predicted)
    else
      let! actual := select (ratings s) (invert tm) in
      let! predicted := select pr (invert tm) in
      if forallb isnan actual then Raise no_test_data_error
      else Ok (actual, predicted)
  else Raise missing_split_error.

(** The two guards every evaluation accessor starts with. *)
Definition check_fit_predict (s : BaseCF) : result unit :=
  if negb (is_fit s) then Raise unfit_state_error
  else if negb (is_predict s) then Raise no_prediction_error
  else Ok tt.

(** [np.mean((pred - actual)**2)] *)
Definition mean_sq_diff (actual pred : list flt) : flt :=
  np_mean (zip_with (fun p a => fsq (fsub p a)) pred actual).

Definition get_mse (data : string) (s : BaseCF) : result flt :=
  let! _ := check_fit_predict s in
  let! ap := _retrieve_predictions data s in
  Ok (mean_sq_diff (fst ap) (snd ap)).

(** The pairs with a value on both sides, as [get_sub_mse] keeps them:
    [x[(~np.isnan(actual)) & (~np.isnan(pred))]]. *)
Definition both_present (actual pred : list flt) : list (flt * flt) :=
  List.filter (fun ap => negb (isnan (fst ap)) && negb (isnan (snd ap)))
              (zip actual pred).

Definition dropna_pairs (actual pred : list flt) : list flt * list flt :=
  (map fst (both_present actual pred), map snd (both_present actual pred)).

(** Per subject, the (actual, predicted) cells that [get_sub_mse] and
    [get_sub_corr] compare, missing pairs dropped. *)
Definition sub_pairs (data : string) (s : BaseCF)
  : result (list (list flt * list flt)) :=
  if String.eqb data "all" then
    let! pr := attr "predicted_ratings" (predicted_ratings s) in
    Ok (zip_with dropna_pairs (ratings s) pr)
  else if is_mask s then
    let! pr := attr "predicted_ratings" (predicted_ratings s) in
    let! tm := attr "train_mask" (train_mask s) in
    if String.eqb data "training" then
      let! mr := attr "masked_ratings" (masked_ratings s) in
      let! m := (if is_mask_dilated s
                 then attr "dilated_mask" (dilated_mask s) else Ok tm) in
      Ok (zip_with (fun ap mi =>
                      dropna_pairs (select_row (fst ap) mi)
                                   (select_row (snd ap) mi))
                   (zip mr pr) m)
    else
      Ok (zip_with (fun ap mi =>
                      dropna_pairs (select_row (fst ap) mi)
                                   (select_row (snd ap) mi))
                   (zip (ratings s) pr) (invert tm))
  else Raise missing_split_error.

Definition get_sub_mse (data : string) (s : BaseCF) : result (list flt) :=
  let! _ := check_fit_predict s in
  let! rows := sub_pairs data s in
  Ok (map (fun ap => mean_sq_diff (fst ap) (snd ap)) rows).

(** ** The four models share [BaseCF] *)

Class Model (T : Type) : Type := {
  base : T -> BaseCF;
  with_base : BaseCF -> T -> T
}.

(** A [BaseCF] method called on a model instance. *)
Definition on_base {T} `{Model T} {A} (m : M BaseCF A) : M T A :=
  fun t => (fst (m (base t)), with_base (snd (m (base t))) t).

(** ** Mean: every subject is predicted the item means *)

Record Mean : Type := {
  mean_base : BaseCF;
  mean : option row
}.

#[export] Instance Mean_Model : Model Mean := {|
  base := mean_base;
  with_base b t := {| mean_base := b; mean := mean t |}
|}.

Definition Mean_init (r : table) (mask : option bmask) : Mean :=
  {| mean_base := BaseCF_init r mask; mean := None |}.

Definition set_mean (v : option row) (t : Mean) : Mean :=
  {| mean_base := mean_base t; mean := v |}.

Definition Mean_fit (dilate_ts_n_samples : option nat) : M Mean unit :=
  let* t := get in
  let* mu :=
    (if is_mask (base t) then
       match dilate_ts_n_samples with
       | Some n =>
           let* _ := on_base (_dilate_ts_rating_samples (Some n)) in
           let* t' := get in
           let* mr := lift (attr "masked_ratings" (masked_ratings (base t'))) in
           let* dm := lift (attr "dilated_mask" (dilated_mask (base t'))) in
           ret (col_means (where_mask mr dm))
       | None =>
           let* mr := lift (attr "masked_ratings" (masked_ratings (base t))) in
           let* tm := lift (attr "train_mask" (train_mask (base t))) in
           ret (col_means (where_mask mr tm))
       end
     else ret (col_means (ratings (base t)))) in
  let* _ := modify (set_mean (Some mu)) in
  on_base (modify (set_is_fit true)).

(** [predicted_ratings.loc[row] = self.mean]: the row takes the mean of its
    column, a column the mean vector lacks is left missing. *)
Definition broadcast_row (mu : row) (r : row) : row :=
  imap (fun j _ => default NaN (mu !! j)) r.

Definition Mean_predict : M Mean unit :=
  let* t := get in
  if negb (is_fit (base t)) then raise unfit_state_error
  else
    let mu := default [] (mean t) in
    let p := map (broadcast_row mu) (ratings (base t)) in
    let* _ := on_base (modify (set_predicted_ratings (Some p))) in
    on_base (modify (set_is_predict true)).

(** Run [b] on the state [a] left, if [a] returned. *)
Definition and_then {S A B} (a : result A * S) (b : M S B) : result B * S :=
  match a with
  | (Ok _, s) => b s
  | (Raise e, s) => (Raise e, s)
  end.

Section WithSqrt.

(** [np.sqrt] on a non-negative finite value.  A floating-point square
    root is no rational function, so it stays a parameter; the results
    below that run it on concrete data say which values they need. *)
Variable sqrtQ : Q -> Q.

Definition np_sqrt (x : flt) : flt :=
  match x with
  | Fin q => if Qltb q 0 then NaN else fin (sqrtQ (Qred q))
  | PInf => PInf
  | NInf | NaN => NaN
  end.

(** ** Correlation coefficients *)

(** [scipy.stats.pearsonr(x, y)[0]]: centred cross product over the root of
    the product of the centred sums of squares, clipped to [-1, 1].  Fewer
    than two points or a constant sample give 0/0, hence [NaN]. *)
Definition centre (x : list flt) : list flt :=
  map (fun v => fsub v (np_mean x)) x.

Definition sum_of_squares (x : list flt) : flt := np_sum (map fsq x).

Definition pearsonr (x y : list flt) : flt :=
  let xm := centre x in
  let ym := centre y in
  let r_num := np_sum (zip_with fmul xm ym) in
  let r_den := np_sqrt (fmul (sum_of_squares xm) (sum_of_squares ym)) in
  let r := fdiv r_num r_den in
  py_max (py_min r (of_Z 1)) (of_Z (-1)).

Definition get_corr (data : string) (s : BaseCF) : result flt :=
  let! _ := check_fit_predict s in
  let! ap := _retrieve_predictions data s in
  Ok (pearsonr (fst ap) (snd ap)).

Definition get_sub_corr (data : string) (s : BaseCF) : result (list flt) :=
  let! _ := check_fit_predict s in
  let! rows := sub_pairs data s in
  Ok (map (fun ap => pearsonr (fst ap) (snd ap)) rows).

(** Average ranks, ties sharing the mean of their positions. *)
Definition rank_of (x : list flt) (v : flt) : flt :=
  let less := length (List.filter (fun w => fltb w v) x) in
  let same := length (List.filter (fun w => feqb w v) x) in
  fdiv (of_nat (2 * less + same + 1)) (of_Z 2).

Definition average_ranks (x : list flt) : list flt := map (rank_of x) x.

Definition spearmanr (x y : list flt) : flt :=
  pearsonr (average_ranks x) (average_ranks y).

(** Kendall's tau-b over the list of paired observations. *)
Definition sgn (a b : flt) : Z :=
  if fltb a b then -1 else if fltb b a then 1 else 0.

Fixpoint sum_pairs {A} (f : A -> A -> Z) (l : list A) : Z :=
  match l with
  | [] => 0
  | a :: t => fold_right (fun b acc => f a b + acc) 0 t + sum_pairs f t
  end.

Definition kendalltau (x y : list flt) : flt :=
  let ps := zip x y in
  let tot := sum_pairs (fun _ _ => 1) ps in
  let xtie := sum_pairs (fun a b => if feqb (fst a) (fst b) then 1 else 0) ps in
  let ytie := sum_pairs (fun a b => if feqb (snd a) (snd b) then 1 else 0) ps in
  let con_minus_dis :=
    sum_pairs (fun a b => sgn (fst a) (fst b) * sgn (snd a) (snd b)) ps in
  if (xtie =? tot) || (ytie =? tot) then NaN
  else fdiv (of_Z con_minus_dis)
            (np_sqrt (fmul (of_Z (tot - xtie)) (of_Z (tot - ytie)))).

(** ** KNN *)

Record KNN : Type := {
  knn_base : BaseCF;
  subject_similarity : option table
}.

#[export] Instance KNN_Model : Model KNN := {|
  base := knn_base;
  with_base b t := {| knn_base := b; subject_similarity := subject_similarity t |}
|}.

Definition KNN_init (r : table) (mask : option bmask) : KNN :=
  {| knn_base := BaseCF_init r mask; subject_similarity := None |}.

Definition set_subject_similarity (v : option table) (t : KNN) : KNN :=
  {| knn_base := knn_base t; subject_similarity := v |}.

(** [np.dot(x,y)/(np.linalg.norm(x)*np.linalg.norm(y))] *)
Definition np_linalg_norm (x : list flt) : flt := np_sqrt (np_dot x x).
Definition cosine_similarity (x y : list flt) : flt :=
  fdiv (np_dot x y) (fmul (np_linalg_norm x) (np_linalg_norm y)).

(** The cells of two subjects at the items both have rated:
    [x[(~x.isnull()) & (~y.isnull())]] and the same selection of [y]. *)
Definition overlap (x y : row) : list flt * list flt := dropna_pairs x y.

(** A coefficient [f] between every pair of subjects. *)
Definition pairwise (f : list flt -> list flt -> flt) (t : table) : table :=
  map (fun x => map (fun y => f (fst (overlap x y)) (snd (overlap x y))) t) t.

(** The similarity matrix of [KNN.fit].  [ratings.T.corr(method=...)] is
    pandas' pairwise coefficient over the items both subjects have rated. *)
Definition similarity (metric : string) (t : table) : result table :=
  if String.eqb metric "pearson" then Ok (pairwise pearsonr t)
  else if String.eqb metric "kendall" then Ok (pairwise kendalltau t)
  else if String.eqb metric "spearman" then Ok (pairwise spearmanr t)
  else if String.eqb metric "correlation" then Ok (pairwise pearsonr t)
  else if String.eqb metric "cosine" then Ok (pairwise cosine_similarity t)
  else Raise (NotImplementedError metric).

Definition KNN_fit (metric : string) (dilate_ts_n_samples : option nat)
  : M KNN unit :=
  let* t := get in
  let* r0 :=
    (if is_mask (base t) then
       let* tm := lift (attr "train_mask" (train_mask (base t))) in
       ret (where_mask (ratings (base t)) tm)
     else ret (ratings (base t))) in
  let* r :=
    match dilate_ts_n_samples with
    | Some n =>
        let* d := on_base (_dilate_ts_rating_samples (Some n)) in
        let* t' := get in
        let* dm := lift (attr "dilated_mask" (dilated_mask (base t'))) in
        ret (where_mask d dm)
    | None => ret r0
    end in
  let* sim := lift (similarity metric r) in
  let* _ := modify (set_subject_similarity (Some sim)) in
  on_base (modify (set_is_fit true)).

(** [s.drop(label)] on a row of the similarity matrix, kept with the
    subject each entry belongs to. *)
Definition drop_self (self : nat) (r : row) : list (nat * flt) :=
  List.filter (fun e => negb (fst e =? self)%nat) (imap (fun i v => (i, v)) r).

(** [sort_values(ascending=False)]: larger similarities first, undefined
    ones last.  Entries that compare equal come out in the reverse of their
    order in the row, as an ascending sort read backwards leaves them;
    which order pandas gives to ties depends on its version, and no result
    below relies on it. *)
Definition before (a b : flt) : bool :=
  if isnan b then true else if isnan a then false else negb (fltb a b).

Fixpoint insert_desc (e : nat * flt) (l : list (nat * flt)) : list (nat * flt) :=
  match l with
  | [] => [e]
  | h :: t => if before (snd h) (snd e) then h :: insert_desc e t else e :: l
  end.

Definition sort_desc (l : list (nat * flt)) : list (nat * flt) :=
  foldr insert_desc [] l.

(** [s[0:k]] *)
Definition py_slice_to {A} (k : Z) (l : list A) : list A :=
  if k <? 0 then take (Z.to_nat (Z.of_nat (length l) + k)) l
  else take (Z.to_nat k) l.

Definition top_subjects (sim_row : row) (self : nat) (k : option Z)
  : list (nat * flt) :=
  let sorted := sort_desc (drop_self self sim_row) in
  let cut := match k with Some k' => py_slice_to k' sorted | None => sorted end in
  List.filter (fun e => negb (isnan (snd e))) cut.

(** One cell of the prediction:
    [np.dot(top_subjects, self.ratings.loc[top_subjects.index, col]) / len(top_subjects)] *)
Definition knn_cell (full : table) (top : list (nat * flt)) (col : nat) : flt :=
  fdiv (np_dot (map snd top) (map (fun e => cell full (fst e) col) top))
       (of_nat (length top)).

(** [pred.loc[i, j] = v] *)
Definition set_cell (t : table) (i j : nat) (v : flt) : table :=
  alter (fun r => <[j:=v]> r) i t.

Definition knn_fill_row (full : table) (top : list (nat * flt)) (i : nat)
  (cols : list nat) (pred : table) : table :=
  fold_left (fun p j => set_cell p i j (knn_cell full top j)) cols pred.

(** The loop over subjects; a subject without a row in the similarity
    matrix, or a neighbour without a row in the ratings, is a [KeyError]. *)
Fixpoint knn_fill (full sim : table) (k : option Z) (cols : list nat)
  (rows : list nat) (pred : table) : result table :=
  match rows with
  | [] => Ok pred
  | i :: rest =>
      match sim !! i with
      | None => Raise KeyError
      | Some sim_row =>
          let top := top_subjects sim_row i k in
          if negb (length cols =? 0)%nat
             && negb (forallb (fun e => (fst e <? length full)%nat) top)
          then Raise KeyError
          else knn_fill full sim k cols rest
                 (knn_fill_row full top i cols pred)
      end
  end.

Definition KNN_predict (k : option Z) : M KNN unit :=
  let* t := get in
  if negb (is_fit (base t)) then raise unfit_state_error
  else
    let* r :=
      (if is_mask (base t)
       then lift (attr "masked_ratings" (masked_ratings (base t)))
       else ret (ratings (base t))) in
    let* sim := lift (attr "subject_similarity" (subject_similarity t)) in
    let zeros := map (map (fun _ => of_Z 0)) r in
    let* pred := lift (knn_fill (ratings (base t)) sim k
                         (seq 0 (snd (shape r))) (seq 0 (length r)) zeros) in
    let* _ := on_base (modify (set_predicted_ratings (Some pred))) in
    on_base (modify (set_is_predict true)).

End WithSqrt.

(** ** NNMF_sgd: factorisation with biases, by stochastic gradient descent *)

Record NNMF_sgd : Type := {
  sgd_base : BaseCF;
  global_bias : option flt;
  user_vecs : option table;
  item_vecs : option table;
  user_bias : option row;
  item_bias : option row;
  item_fact_reg : option flt;
  user_fact_reg : option flt;
  item_bias_reg : option flt;
  user_bias_reg : option flt
}.

#[export] Instance NNMF_sgd_Model : Model NNMF_sgd := {|
  base := sgd_base;
  with_base b t :=
    {| sgd_base := b; global_bias := global_bias t;
       user_vecs := user_vecs t; item_vecs := item_vecs t;
       user_bias := user_bias t; item_bias := item_bias t;
       item_fact_reg := item_fact_reg t; user_fact_reg := user_fact_reg t;
       item_bias_reg := item_bias_reg t; user_bias_reg := user_bias_reg t |}
|}.

(** The constructor assigns none of the model's own attributes. *)
Definition NNMF_sgd_init (r : table) (mask : option bmask) : NNMF_sgd :=
  {| sgd_base := BaseCF_init r mask; global_bias := None;
     user_vecs := None; item_vecs := None; user_bias := None;
     item_bias := None; item_fact_reg := None; user_fact_reg := None;
     item_bias_reg := None; user_bias_reg := None |}.

Definition set_global_bias (v : option flt) (t : NNMF_sgd) : NNMF_sgd :=
  {| sgd_base := sgd_base t; global_bias := v;
     user_vecs := user_vecs t; item_vecs := item_vecs t;
     user_bias := user_bias t; item_bias := item_bias t;
     item_fact_reg := item_fact_reg t; user_fact_reg := user_fact_reg t;
     item_bias_reg := item_bias_reg t; user_bias_reg := user_bias_reg t |}.

(** The weights the training loop updates in place. *)
Record weights : Type := {
  w_user_vecs : table;
  w_item_vecs : table;
  w_user_bias : row;
  w_item_bias : row
}.

Definition set_weights (w : weights) (t : NNMF_sgd) : NNMF_sgd :=
  {| sgd_base := sgd_base t; global_bias := global_bias t;
     user_vecs := Some (w_user_vecs w); item_vecs := Some (w_item_vecs w);
     user_bias := Some (w_user_bias w); item_bias := Some (w_item_bias w);
     item_fact_reg := item_fact_reg t; user_fact_reg := user_fact_reg t;
     item_bias_reg := item_bias_reg t; user_bias_reg := user_bias_reg t |}.

Definition set_regs (ifr ufr ibr ubr : flt) (t : NNMF_sgd) : NNMF_sgd :=
  {| sgd_base := sgd_base t; global_bias := global_bias t;
     user_vecs := user_vecs t; item_vecs := item_vecs t;
     user_bias := user_bias t; item_bias := item_bias t;
     item_fact_reg := Some ifr; user_fact_reg := Some ufr;
     item_bias_reg := Some ibr; user_bias_reg := Some ubr |}.

Definition vec (t : table) (i : nat) : row := default [] (t !! i).
Definition at_ (r : row) (i : nat) : flt := default NaN (r !! i).
Definition vadd (x y : row) : row := zip_with fadd x y.
Definition vsub (x y : row) : row := zip_with fsub x y.
Definition vscale (c : flt) (x : row) : row := map (fmul c) x.

(** [_predict_single(u, i)] *)
Definition predict_single (gb : flt) (w : weights) (u i : nat) : flt :=
  fadd (fadd (fadd gb (at_ (w_user_bias w) u)) (at_ (w_item_bias w) i))
       (np_dot (vec (w_user_vecs w) u) (vec (w_item_vecs w) i)).

Record sgd_params : Type := {
  p_item_fact_reg : flt;
  p_user_fact_reg : flt;
  p_item_bias_reg : flt;
  p_user_bias_reg : flt;
  p_learning_rate : flt
}.

(** One gradient step on the observed cell [(u, i)]. *)
Definition sgd_step (p : sgd_params) (gb : flt) (r : table) (w : weights)
  (ui : nat * nat) : weights :=
  let u := fst ui in
  let i := snd ui in
  let lr := p_learning_rate p in
  let e := fsub (cell r u i) (predict_single gb w u i) in
  let ub := fadd (at_ (w_user_bias w) u)
              (fmul lr (fsub e (fmul (p_user_bias_reg p) (at_ (w_user_bias w) u)))) in
  let ib := fadd (at_ (w_item_bias w) i)
              (fmul lr (fsub e (fmul (p_item_bias_reg p) (at_ (w_item_bias w) i)))) in
  let uv := vadd (vec (w_user_vecs w) u)
              (vscale lr (vsub (vscale e (vec (w_item_vecs w) i))
                               (vscale (p_user_fact_reg p) (vec (w_user_vecs w) u)))) in
  let iv := vadd (vec (w_item_vecs w) i)
              (vscale lr (vsub (vscale e uv)
                               (vscale (p_item_fact_reg p) (vec (w_item_vecs w) i)))) in
  {| w_user_vecs := <[u:=uv]> (w_user_vecs w);
     w_item_vecs := <[i:=iv]> (w_item_vecs w);
     w_user_bias := <[u:=ub]> (w_user_bias w);
     w_item_bias := <[i:=ib]> (w_item_bias w) |}.

(** One epoch: the training pairs in the order the shuffle gave. *)
Definition sgd_epoch (p : sgd_params) (gb : flt) (r : table)
  (samples : list (nat * nat)) (w : weights) (order : list nat) : weights :=
  fold_left (fun w idx =>
               match samples !! idx with
               | Some ui => sgd_step p gb r w ui
               | None => w
               end) order w.

(** [mask.nonzero()]: the positions of the true cells, row by row. *)
Definition nonzero (m : bmask) : list (nat * nat) :=
  concat (imap (fun i mr =>
                  map (fun j => (i, j))
                      (List.filter (fun j => default false (mr !! j))
                                   (seq 0 (length mr)))) m).

(** [df.mean().mean()]: the mean of the column means. *)
Definition mean_of_col_means (t : table) : flt := nanmean (col_means t).

(** The training universe of [NNMF_sgd.fit]: the ratings it learns from,
    the observed pairs, and the initial global bias. *)
Definition sgd_universe (s : BaseCF)
  : result (table * list (nat * nat) * flt) :=
  if is_mask s then
    let! mr := attr "masked_ratings" (masked_ratings s) in
    let! m := (if is_mask_dilated s
               then attr "dilated_mask" (dilated_mask s)
               else attr "train_mask" (train_mask s)) in
    let r := where_mask mr m in
    Ok (r, nonzero m, mean_of_col_means (where_mask r m))
  else
    let r := ratings s in
    let samples := nonzero (notnull r) in
    if (length samples =? 0)%nat then Raise (ValueError "not enough values to unpack")
    else Ok (r, samples,
             np_mean (List.filter (fun x => negb (isnan x)) (flatten r))).

(** [normal_user], [normal_item] are the draws of [np.random.normal] for the
    latent vectors; [shuffles !! e] is the order [np.random.shuffle] left
    the training indices in at epoch [e]. *)
Definition NNMF_sgd_fit (n_factors : option nat) (p : sgd_params)
  (n_iterations : Z) (dilate_ts_n_samples : option nat)
  (normal_user normal_item : table) (shuffles : list (list nat))
  : M NNMF_sgd unit :=
  let* t0 := get in
  let n_users := fst (shape (ratings (base t0))) in
  let n_items := snd (shape (ratings (base t0))) in
  let n_factors := default n_items n_factors in
  let* _ := match dilate_ts_n_samples with
            | Some n =>
                let* _ := on_base (_dilate_ts_rating_samples (Some n)) in ret tt
            | None => ret tt
            end in
  let* t := get in
  let* rsg := lift (sgd_universe (base t)) in
  let r := fst (fst rsg) in
  let samples := snd (fst rsg) in
  let gb := snd rsg in
  let* _ := modify (set_global_bias (Some gb)) in
  if (n_factors =? 0)%nat then raise ZeroDivisionError
  else
    let w0 := {| w_user_vecs := normal_user; w_item_vecs := normal_item;
                 w_user_bias := replicate n_users (of_Z 0);
                 w_item_bias := replicate n_items (of_Z 0) |} in
    let* _ := modify (set_regs (p_item_fact_reg p) (p_user_fact_reg p)
                               (p_item_bias_reg p) (p_user_bias_reg p)) in
    let identity := seq 0 (length samples) in
    let w := fold_left (fun w e =>
                          sgd_epoch p gb r samples w
                            (default identity (shuffles !! e)))
                       (seq 0 (Z.to_nat n_iterations)) w0 in
    let* _ := modify (set_weights w) in
    on_base (modify (set_is_fit true)).

(** [pred.iloc[u, i] = v]: a position outside the table is an
    [IndexError], and the table is left as it is. *)
Definition iloc_set (u i : nat) (v : flt) : M table unit :=
  fun p =>
    match p !! u with
    | Some r => if (i <? length r)%nat then (Ok tt, set_cell p u i v)
                else (Raise IndexError, p)
    | None => (Raise IndexError, p)
    end.

(** A [for] loop: the body once per element, stopping at the first
    exception. *)
Fixpoint for_each {S A} (l : list A) (body : A -> M S unit) : M S unit :=
  match l with
  | [] => ret tt
  | a :: rest => let* _ := body a in for_each rest body
  end.

(** The two loops of [predict] over the table they write into: one row per
    latent vector of a subject, one column per latent vector of an item. *)
Definition sgd_fill (gb : flt) (w : weights) : M table unit :=
  for_each (seq 0 (length (w_user_vecs w)))
    (fun u => for_each (seq 0 (length (w_item_vecs w)))
                (fun i => iloc_set u i (predict_single gb w u i))).

(** [predicted_ratings] is the table the loops write into: it keeps the
    cells written before an exception. *)
Definition NNMF_sgd_predict : M NNMF_sgd unit :=
  let* t := get in
  let* _ := on_base (modify (set_predicted_ratings (Some (ratings (base t))))) in
  let* uv := lift (attr "user_vecs" (user_vecs t)) in
  let* iv := lift (attr "item_vecs" (item_vecs t)) in
  let* gb := lift (attr "global_bias" (global_bias t)) in
  let* ub := lift (attr "user_bias" (user_bias t)) in
  let* ib := lift (attr "item_bias" (item_bias t)) in
  let w := {| w_user_vecs := uv; w_item_vecs := iv;
              w_user_bias := ub; w_item_bias := ib |} in
  let filled := sgd_fill gb w (ratings (base t)) in
  let* _ := on_base (modify (set_predicted_ratings (Some (snd filled)))) in
  let* _ := lift (fst filled) in
  on_base (modify (set_is_predict true)).

(** ** NNMF_multiplicative: factorisation by multiplicative updates *)

Definition transpose (t : table) : table :=
  map (column t) (seq 0 (snd (shape t))).

(** [np.dot] of two matrices; the inner dimensions have to agree. *)
Definition matmul (a b : table) : result table :=
  if (snd (shape a) =? length b)%nat
  then Ok (map (fun r => map (np_dot r) (transpose b)) a)
  else Raise (ValueError msg_shapes).

Definition emul (a b : table) : table := zip_with (zip_with fmul) a b.
Definition ediv (a b : table) : table := zip_with (zip_with fdiv) a b.
Definition esub (a b : table) : table := zip_with (zip_with fsub) a b.
Definition scale (c : flt) (a : table) : table := map (map (fmul c)) a.
Definition floor_at (eps : flt) (a : table) : table :=
  map (map (fun x => np_maximum x eps)) a.
Definition fillna0 (a : table) : table :=
  map (map (fun x => if isnan x then of_Z 0 else x)) a.
Definition mask_values (m : bmask) : table := map (map of_bool) m.

Record NNMF_multiplicative : Type := {
  nm_base : BaseCF;
  H : option table;
  W : option table
}.

#[export] Instance NNMF_multiplicative_Model : Model NNMF_multiplicative := {|
  base := nm_base;
  with_base b t := {| nm_base := b; H := H t; W := W t |}
|}.

Definition NNMF_multiplicative_init (r : table) (mask : option bmask)
  : NNMF_multiplicative :=
  {| nm_base := BaseCF_init r mask; H := None; W := None |}.

Definition set_H (v : option table) (t : NNMF_multiplicative)
  : NNMF_multiplicative := {| nm_base := nm_base t; H := v; W := W t |}.
Definition set_W (v : option table) (t : NNMF_multiplicative)
  : NNMF_multiplicative := {| nm_base := nm_base t; H := H t; W := v |}.

Definition eps : flt := Fin (1 # 100000).

Section Multiplicative.

Variable sqrtQ : Q -> Q.

(** The two updates of the loop body and the residual
    [sqrt(sum((mask * (X_est_prev - X_est)) ** 2))]. *)
Definition update_W (masked_X mask w h : table) : result table :=
  let! num := matmul masked_X (transpose h) in
  let! wh := matmul w h in
  let! den := matmul (emul mask wh) (transpose h) in
  Ok (floor_at eps (emul w (ediv num den))).

Definition update_H (masked_X mask w h : table) : result table :=
  let! num := matmul (transpose w) masked_X in
  let! wh := matmul w h in
  let! den := matmul (transpose w) (emul mask wh) in
  Ok (floor_at eps (emul h (ediv num den))).

Definition residual (mask X_est_prev X_est : table) : flt :=
  np_sqrt sqrtQ (np_sum (map fsq (flatten (emul mask (esub X_est_prev X_est))))).

(** The [while] loop, [fuel] passes at most: [None] when the condition
    still holds after them.  Otherwise the factors at the exit, with the
    exception if the body raised. *)
Fixpoint mult_loop (fuel : nat) (max_iterations : Z) (fit_error_limit : flt)
  (masked_X mask : table) (ctr : Z) (fit_residual : flt)
  (w h X_est_prev : table) : option (option exn * (table * table)) :=
  if (ctr <=? max_iterations) || fltb fit_residual fit_error_limit then
    match fuel with
    | O => None
    | S fuel' =>
        match update_W masked_X mask w h with
        | Raise e => Some (Some e, (w, h))
        | Ok w1 =>
            match update_H masked_X mask w1 h with
            | Raise e => Some (Some e, (w1, h))
            | Ok h1 =>
                match matmul w1 h1 with
                | Raise e => Some (Some e, (w1, h1))
                | Ok X_est =>
                    mult_loop fuel' max_iterations fit_error_limit
                              masked_X mask (ctr + 1)
                              (residual mask X_est_prev X_est) w1 h1 X_est
                end
            end
        end
    end
  else Some (None, (w, h)).

(** Everything [fit] does before the loop: the initial factors from the
    uniform draws [rand_H], [rand_W], then the matrix to factorise and its
    mask.  With dilation, [masked_X] is the array behind [masked_ratings],
    so that zeroing its missing cells zeroes them in [masked_ratings]. *)
Definition mult_setup (n_factors : option nat)
  (dilate_ts_n_samples : option nat) (rand_H rand_W : table)
  : M NNMF_multiplicative (table * table * table) :=
  let* t := get in
  let n_items := snd (shape (ratings (base t))) in
  let n_factors := default n_items n_factors in
  let avg := np_sqrt sqrtQ (fdiv (nanmean (flatten (ratings (base t))))
                                 (of_nat n_factors)) in
  let h0 := scale avg rand_H in
  let w0 := scale avg rand_W in
  let* _ := modify (set_H (Some h0)) in
  let* _ := modify (set_W (Some w0)) in
  let* xm :=
    (if is_mask (base t) then
       match dilate_ts_n_samples with
       | Some n =>
           let* d := on_base (_dilate_ts_rating_samples (Some n)) in
           let* t' := get in
           let* dm := lift (attr "dilated_mask" (dilated_mask (base t'))) in
           let* _ := on_base (modify (set_masked_ratings (Some (fillna0 d)))) in
           ret (fillna0 d, mask_values dm)
       | None =>
           let* tm := lift (attr "train_mask" (train_mask (base t))) in
           ret (fillna0 (emul (ratings (base t)) (mask_values tm)),
                mask_values tm)
       end
     else ret (ratings (base t),
               map (map (fun _ => of_Z 1)) (ratings (base t)))) in
  let* X_est_prev := lift (matmul w0 h0) in
  ret (fst xm, snd xm, X_est_prev).

(** [NNMF_multiplicative.fit]; [None] when the loop is still running after
    [fuel] passes. *)
Definition NNMF_multiplicative_fit (fuel : nat) (n_factors : option nat)
  (max_iterations : Z) (fit_error_limit : flt)
  (dilate_ts_n_samples : option nat) (rand_H rand_W : table)
  (t : NNMF_multiplicative) : option (result unit * NNMF_multiplicative) :=
  match mult_setup n_factors dilate_ts_n_samples rand_H rand_W t with
  | (Raise e, t') => Some (Raise e, t')
  | (Ok (masked_X, mask, X_est_prev), t') =>
      match mult_loop fuel max_iterations fit_error_limit masked_X mask
                      1 (of_Z 100) (default [] (W t')) (default [] (H t'))
                      X_est_prev with
      | None => None
      | Some (Some e, (w, h)) =>
          Some (Raise e, set_W (Some w) (set_H (Some h) t'))
      | Some (None, (w, h)) =>
          Some (Ok tt, with_base (set_is_fit true (base t'))
                         (set_W (Some w) (set_H (Some h) t')))
      end
  end.

Definition NNMF_multiplicative_predict : M NNMF_multiplicative unit :=
  let* t := get in
  if negb (is_fit (base t)) then raise unfit_state_error
  else
    let* _ := on_base (modify (set_predicted_ratings (Some (ratings (base t))))) in
    let* w := lift (attr "W" (W t)) in
    let* h := lift (attr "H" (H t)) in
    let* wh := lift (matmul w h) in
    if same_shapeb wh (ratings (base t)) then
      let* _ := on_base (modify (set_predicted_ratings (Some wh))) in
      on_base (modify (set_is_predict true))
    else raise (ValueError msg_shapes).

End Multiplicative.

(** A square root to run the models with: exact on the rationals whose
    numerator and denominator are squares, rounded down otherwise. *)
Definition sqrt_floor (q : Q) : Q :=
  Z.sqrt (Qnum q * Zpos (Qden q)) # Qden q.

(** ** Any of the four models *)

Inductive model : Type :=
| A_Mean (t : Mean)
| A_KNN (t : KNN)
| A_NNMF_multiplicative (t : NNMF_multiplicative)
| A_NNMF_sgd (t : NNMF_sgd).

Definition model_base (m : model) : BaseCF :=
  match m with
  | A_Mean t => base t
  | A_KNN t => base t
  | A_NNMF_multiplicative t => base t
  | A_NNMF_sgd t => base t
  end.

Definition tag {S T A} (c : S -> T) (r : result A * S) : result A * T :=
  (fst r, c (snd r)).

(** [predict()] on any model; [k] is the neighbour count, which only
    [KNN.predict] takes. *)
Definition predict (k : option Z) (m : model) : result unit * model :=
  match m with
  | A_Mean t => tag A_Mean (Mean_predict t)
  | A_KNN t => tag A_KNN (KNN_predict k t)
  | A_NNMF_multiplicative t =>
      tag A_NNMF_multiplicative (NNMF_multiplicative_predict t)
  | A_NNMF_sgd t => tag A_NNMF_sgd (NNMF_sgd_predict t)
  end.

(** What the constructor, [split_train_test] and the dilation maintain on
    a masked instance: the masked ratings are there and cover the ratings
    table cell for cell. *)
Definition masked_shape_ok (s : BaseCF) : Prop :=
  is_mask s = true ->
  exists mr, masked_ratings s = Some mr /\ same_shape mr (ratings s).


(** The cell [(i, j)] exists in [t]. *)
Definition in_range {A} (t : list (list A)) (i j : nat) : Prop :=
  exists r, t !! i = Some r /\ (j < length r)%nat.

(** ** A call of [fit()] on any of the four models *)

Inductive fit_call : Type :=
| Call_Mean (dilate_ts_n_samples : option nat) (t : Mean)
| Call_KNN (metric : string) (dilate_ts_n_samples : option nat) (t : KNN)
| Call_NNMF_multiplicative (fuel : nat) (n_factors : option nat)
    (max_iterations : Z) (fit_error_limit : flt)
    (dilate_ts_n_samples : option nat) (rand_H rand_W : table)
    (t : NNMF_multiplicative)
| Call_NNMF_sgd (n_factors : option nat) (p : sgd_params) (n_iterations : Z)
    (dilate_ts_n_samples : option nat) (normal_user normal_item : table)
    (shuffles : list (list nat)) (t : NNMF_sgd).

(** The instance the call is made on. *)
Definition call_model (c : fit_call) : model :=
  match c with
  | Call_Mean _ t => A_Mean t
  | Call_KNN _ _ t => A_KNN t
  | Call_NNMF_multiplicative _ _ _ _ _ _ _ t => A_NNMF_multiplicative t
  | Call_NNMF_sgd _ _ _ _ _ _ _ t => A_NNMF_sgd t
  end.

(** Outcome of the call and the instance it leaves; [None] when the
    multiplicative loop is still running after its fuel. *)
Definition run_fit (sqrtQ : Q -> Q) (c : fit_call)
  : option (result unit * model) :=
  match c with
  | Call_Mean d t => Some (tag A_Mean (Mean_fit d t))
  | Call_KNN metric d t => Some (tag A_KNN (KNN_fit sqrtQ metric d t))
  | Call_NNMF_multiplicative fuel nf mx lim d rh rw t =>
      match NNMF_multiplicative_fit sqrtQ fuel nf mx lim d rh rw t with
      | Some r => Some (tag A_NNMF_multiplicative r)
      | None => None
      end
  | Call_NNMF_sgd nf p n d nu ni sh t =>
      Some (tag A_NNMF_sgd (NNMF_sgd_fit nf p n d nu ni sh t))
  end.

(** The part of [BaseCF] no [fit()] touches before it has succeeded. *)
Definition core_eq (s s' : BaseCF) : Prop :=
  ratings s' = ratings s /\
  predicted_ratings s' = predicted_ratings s /\
  is_fit s' = is_fit s /\
  is_predict s' = is_predict s /\
  is_mask s' = is_mask s /\
  train_mask s' = train_mask s /\
  n_train_items s' = n_train_items s.

(** The fit artefact of [Mean] and of [KNN] is the one held before. *)
Definition artefact_kept (m m' : model) : Prop :=
  match m, m' with
  | A_Mean t, A_Mean t' => mean t' = mean t
  | A_KNN t, A_KNN t' => subject_similarity t' = subject_similarity t
  | A_NNMF_multiplicative _, A_NNMF_multiplicative _ => True
  | A_NNMF_sgd _, A_NNMF_sgd _ => True
  | _, _ => False
  end.

(** [m] relates the state it starts from to the state it leaves by [R],
    however it ends; [never_raises m]: it always returns. *)
Definition preserves {S A} (R : S -> S -> Prop) (m : M S A) : Prop :=
  forall s r s', m s = (r, s') -> R s s'.

Definition preserves_on_raise {S A} (R : S -> S -> Prop) (m : M S A) : Prop :=
  forall s e s', m s = (Raise e, s') -> R s s'.

Definition never_raises {S A} (m : M S A) : Prop :=
  forall s, exists a, fst (m s) = Ok a.

(** What a failed [fit()] keeps of [BaseCF]: everything when no dilation
    was asked for, the core otherwise. *)
Definition kept (dilate_ts_n_samples : option nat) (s s' : BaseCF) : Prop :=
  match dilate_ts_n_samples with
  | None => s' = s
  | Some _ => core_eq s s'
  end.

(** A relation on the base of a model, together with an attribute [ext]
    of the model that has to stay as it is. *)
Definition model_rel {T} `{Model T} {X} (Rb : BaseCF -> BaseCF -> Prop)
  (ext : T -> X) (t t' : T) : Prop :=
  Rb (base t) (base t') /\ ext t' = ext t.

(** The [dilate_ts_n_samples] argument of a call. *)
Definition call_dilate (c : fit_call) : option nat :=
  match c with
  | Call_Mean d _ => d
  | Call_KNN _ d _ => d
  | Call_NNMF_multiplicative _ _ _ _ d _ _ _ => d
  | Call_NNMF_sgd _ _ _ d _ _ _ _ => d
  end.

(** *** Downsampling *)

Definition set_ratings (v : table) (s : BaseCF) : BaseCF :=
  {| ratings := v; predicted_ratings := predicted_ratings s;
     is_fit := is_fit s; is_predict := is_predict s; is_mask := is_mask s;
     is_mask_dilated := is_mask_dilated s; train_mask := train_mask s;
     masked_ratings := masked_ratings s; dilated_mask := dilated_mask s;
     n_train_items := n_train_items s |}.

Definition msg_sampling_freq : string :=
  "Please specify the sampling frequency of the ratings data.".
Definition msg_target : string := "Please specify the downsampling target.".
Definition msg_target_type : string :=
  "Please specify the type of target to downsample to [samples,seconds,hz].".
(** The source quotes the three names in this message. *)
Definition msg_target_kind : string :=
  "Make sure target_type is samples, seconds, or hz.".
Definition msg_grouper : string := "Grouper and axis must be same length".

(** The three target types and any other name.  [target_type is 'samples']
    compares with the interned literal, which a literal argument is. *)
Inductive target_type : Type :=
| samples
| seconds
| hz
| other_target_type (name : string).

(** The number of samples per bin, for whole [sampling_freq] and [target].
    For ['hz'] it is the quotient [sampling_freq / target], a float under
    true division even when it is whole: a zero [target] raises at the
    division, a zero quotient raises at [ratings.shape[0] / n_samples], and
    any other float is refused as a count by [np.repeat], whose counts are
    cast to integers under the safe rule. *)
Definition n_samples_of (ty : target_type) (sampling_freq target : nat)
  : result nat :=
  match ty with
  | samples => Ok target
  | seconds => Ok (target * sampling_freq)%nat
  | hz => if (target =? 0)%nat || (sampling_freq =? 0)%nat
          then Raise ZeroDivisionError
          else Raise TypeError
  | other_target_type _ => Raise (ValueError msg_target_kind)
  end.

(** [np.arange(1, N / n, 1)] for [n > 0]: the [ceil(N / n - 1)] labels
    [1, 2, ...] below [N / n]. *)
Definition np_arange_1 (N n : nat) : list nat :=
  seq 1 ((N + n - 1) / n - 1).

(** [np.repeat(a, n)]: every element [n] times, in place. *)
Definition np_repeat {A} (a : list A) (n : nat) : list A :=
  flat_map (replicate n) a.

Fixpoint insert_nat (x : nat) (l : list nat) : list nat :=
  match l with
  | [] => [x]
  | y :: l' => if (x <=? y)%nat then x :: l else y :: insert_nat x l'
  end.
Definition np_sort (l : list nat) : list nat := fold_right insert_nat [] l.

(** The bin label of each of the [N] samples: [n] samples per label, the
    samples that are left take the label after the last one. *)
Definition ds_index (N n : nat) : result (list nat) :=
  if (n =? 0)%nat then Raise ZeroDivisionError
  else
    let idx := np_sort (np_repeat (np_arange_1 N n) n) in
    if (length idx <? N)%nat then
      match last idx with
      | None => Raise IndexError
      | Some l => Ok (idx ++ replicate (N - length idx) (l + 1)%nat)
      end
    else Ok idx.

(** [groupby(idx).mean()] along the samples: one column per label, in
    ascending order, holding the mean of the present cells under it. *)
Definition group_keys (idx : list nat) : list nat :=
  nodup Nat.eq_dec (np_sort idx).
Definition group_mean (idx : list nat) (r : row) (g : nat) : flt :=
  nanmean (map snd (List.filter (fun p => (fst p =? g)%nat) (zip idx r))).
Definition groupby_mean (idx : list nat) (t : table) : result table :=
  if (length idx =? snd (shape t))%nat
  then Ok (map (fun r => map (group_mean idx r) (group_keys idx)) t)
  else Raise (ValueError msg_grouper).

(** The inner function [ds] of [downsample]. *)
Definition ds (ty : target_type) (sampling_freq target : nat) (t : table)
  : result table :=
  let! n_samples := n_samples_of ty sampling_freq target in
  let! idx := ds_index (snd (shape t)) n_samples in
  groupby_mean idx t.

(** [mask > 0] on a downsampled mask. *)
Definition positive (t : table) : bmask := map (map (fltb (of_Z 0))) t.

Definition downsample (sampling_freq target : option nat)
  (ty : option target_type) : M BaseCF unit :=
  match sampling_freq, target, ty with
  | None, _, _ => raise (ValueError msg_sampling_freq)
  | Some _, None, _ => raise (ValueError msg_target)
  | Some _, Some _, None => raise (ValueError msg_target_type)
  | Some f, Some tg, Some ty =>
      let* s := get in
      let* r := lift (ds ty f tg (ratings s)) in
      let* _ := modify (set_ratings r) in
      let* _ :=
        (if is_mask s then
           let* tm := lift (attr "train_mask" (train_mask s)) in
           let* tm' := lift (ds ty f tg (mask_values tm)) in
           let* _ := modify (set_train_mask (Some (positive tm'))) in
           let* mr := lift (attr "masked_ratings" (masked_ratings s)) in
           let* mr' := lift (ds ty f tg mr) in
           let* _ := modify (set_masked_ratings (Some mr')) in
           if is_mask_dilated s then
             let* dm := lift (attr "dilated_mask" (dilated_mask s)) in
             let* dm' := lift (ds ty f tg (mask_values dm)) in
             modify (set_dilated_mask (Some (positive dm')))
           else ret tt
         else ret tt) in
      if is_predict s then
        let* p := lift (attr "predicted_ratings" (predicted_ratings s)) in
        let* p' := lift (ds ty f tg p) in
        modify (set_predicted_ratings (Some p'))
      else ret tt
  end.

(** *** Plotting: the keyword arguments handed to the heat maps *)

Inductive kwval : Type :=
| KBool (b : bool)
| KNum (x : flt).

(** A keyword dictionary, in insertion order. *)
Definition kw_get (k : string) (d : list (string * kwval)) : option kwval :=
  snd <$> List.find (fun e => String.eqb (fst e) k) d.

(** [dict.setdefault(k, v)]: a key the dictionary holds is left alone. *)
Definition setdefault (k : string) (v : kwval) (d : list (string * kwval))
  : list (string * kwval) :=
  match kw_get k d with
  | Some _ => d
  | None => d ++ [(k, v)]
  end.

(** [Series.max()], [Series.min()]: over the present cells, missing when
    there is none. *)
Definition nanmax (l : list flt) : flt :=
  match List.filter (fun x => negb (isnan x)) l with
  | [] => NaN
  | x :: xs => fold_left (fun a b => if fltb a b then b else a) xs x
  end.
Definition nanmin (l : list flt) : flt :=
  match List.filter (fun x => negb (isnan x)) l with
  | [] => NaN
  | x :: xs => fold_left (fun a b => if fltb b a then b else a) xs x
  end.

(** [df.max().max()], [df.min().min()] *)
Definition df_max (t : table) : flt :=
  nanmax (map (fun j => nanmax (column t j)) (seq 0 (snd (shape t)))).
Definition df_min (t : table) : flt :=
  nanmin (map (fun j => nanmin (column t j)) (seq 0 (snd (shape t)))).

(** The body of [plot_predictions] as it acts on the dictionary in use.
    The drawing calls are outside the model; the value returned is the
    correlation [r]. *)
Definition plot_body (sqrtQ : Q -> Q) (data : string) (s : BaseCF)
  : M (list (string * kwval)) flt :=
  if negb (is_fit s) then raise unfit_state_error
  else if negb (is_predict s) then raise no_prediction_error
  else
    let* r := lift (if is_mask s
                    then attr "masked_ratings" (masked_ratings s)
                    else Ok (ratings s)) in
    let* _ := modify (setdefault "square" (KBool false)) in
    let* _ := modify (setdefault "xticklabels" (KBool false)) in
    let* _ := modify (setdefault "yticklabels" (KBool false)) in
    let* p := lift (attr "predicted_ratings" (predicted_ratings s)) in
    let vmax := if fltb (df_max p) (df_max r) then df_max r else df_max p in
    let vmin := if fltb (df_min r) (df_min p) then df_min r else df_min p in
    let* _ := modify (setdefault "vmax" (KNum vmax)) in
    let* _ := modify (setdefault "vmin" (KNum vmin)) in
    let* _ := lift (_retrieve_predictions data s) in
    lift (get_corr sqrtQ data s).

(** [plot_predictions(data, heatmapkwargs)]: the state is the dictionary
    that the default value [heatmapkwargs = {}] created when the function
    was defined; a call without [heatmapkwargs] works on that one object.
    The result pairs the dictionary handed to the heat maps with [r]. *)
Definition plot_predictions (sqrtQ : Q -> Q) (data : string)
  (heatmapkwargs : option (list (string * kwval))) (s : BaseCF)
  : M (list (string * kwval)) (list (string * kwval) * flt) :=
  fun default_kwargs =>
    match heatmapkwargs with
    | None =>
        let (r, d) := plot_body sqrtQ data s default_kwargs in
        (rbind r (fun x => Ok (d, x)), d)
    | Some own =>
        let (r, d) := plot_body sqrtQ data s own in
        (rbind r (fun x => Ok (d, x)), default_kwargs)
    end.

(** The tables an instance holds beside its ratings have their shape. *)
Definition tables_aligned (s : BaseCF) : Prop :=
  (is_mask s = true ->
   exists tm mr, train_mask s = Some tm /\ masked_ratings s = Some mr /\
                 same_shape tm (ratings s) /\ same_shape mr (ratings s)) /\
  (is_mask s = true -> is_mask_dilated s = true ->
   exists dm, dilated_mask s = Some dm /\ same_shape dm (ratings s)) /\
  (is_predict s = true ->
   exists p, predicted_ratings s = Some p /\ same_shape p (ratings s)).

(** ** Cells of an input table *)

Definition is_fin (x : flt) : bool :=
  match x with Fin _ => true | _ => false end.

(** A finite rating or the missing marker, as the input contract has it. *)
Definition rating_cell (x : flt) : bool := is_fin x || isnan x.

(** Every cell of the table is a finite rating or missing. *)
Definition rating_table (t : table) : Prop :=
  Forall (Forall (fun x => rating_cell x = true)) t.

(** Tables and vectors of fitted parameters without a missing or infinite
    cell. *)
Definition finite_row (r : row) : Prop := Forall (fun x => is_fin x = true) r.
Definition finite_table (t : table) : Prop := Forall finite_row t.

(** The table [Mean.fit] takes the item means of: the ratings of an
    instance without a mask, the masked ratings under the train mask of a
    masked one, and their dilation when [dilate_ts_n_samples] is given
    (the dilated table under its own mask is the dilated table). *)
Definition Mean_training (dilate_ts_n_samples : option nat) (s : BaseCF)
  : table :=
  if is_mask s then
    match dilate_ts_n_samples with
    | Some n =>
        map (_conv_ts_mean_overlap n)
            (where_mask (ratings s) (default [] (train_mask s)))
    | None =>
        where_mask (default [] (masked_ratings s)) (default [] (train_mask s))
    end
  else ratings s.

(** What [predict] reads of a fitted model, when it is to give a value in
    every cell: [KNN] similarities that are finite or undefined, [NNMF]
    factors and biases that are finite, one latent vector and bias per
    subject and per item. *)
Definition fitted_finite (ncols : nat) (m : model) : Prop :=
  match m with
  | A_Mean _ => True
  | A_KNN t =>
      exists sim, subject_similarity t = Some sim /\ rating_table sim
  | A_NNMF_multiplicative t =>
      exists w h, W t = Some w /\ H t = Some h /\
                  finite_table w /\ finite_table h /\ rect (snd (shape h)) h
  | A_NNMF_sgd t =>
      exists uv iv gb ub ib,
        user_vecs t = Some uv /\ item_vecs t = Some iv /\
        global_bias t = Some gb /\ user_bias t = Some ub /\
        item_bias t = Some ib /\
        finite_table uv /\ finite_table iv /\ is_fin gb = true /\
        finite_row ub /\ finite_row ib /\
        length uv = length (ratings (base t)) /\ length iv = ncols /\
        length ub = length uv /\ length ib = length iv
  end.

(** Where a model has no estimate for subject [i] and item [j]: [Mean]
    when the fitted mean of the item is missing, [KNN] when the subject has
    no neighbour or one of its neighbours has not rated the item. *)
Definition estimate_undefined (k : option Z) (m : model) (i j : nat) : Prop :=
  match m with
  | A_Mean t => isnan (default NaN (default [] (mean t) !! j)) = true
  | A_KNN t =>
      let sim_row := default [] (default [] (subject_similarity t) !! i) in
      let nbrs := top_subjects sim_row i k in
      nbrs = [] \/
      Exists (fun e => isnan (cell (ratings (base t)) (fst e) j) = true) nbrs
  | A_NNMF_multiplicative _ | A_NNMF_sgd _ => False
  end.

(** A table of factors whose cells are missing or at least [eps]. *)
Definition floored (a : table) : Prop :=
  Forall (Forall (fun x => isnan x = true \/ fltb x eps = false)) a.

(** ** Data the results below are run on *)

Definition q_ (z : Z) : flt := of_Z z.

(** Three subjects, two items; the second item of the first subject was
    never rated, and the caller's mask trains on item 0 (and on item 1 of
    the last subject). *)
Definition ratings_3x2 : table := [[q_ 1; NaN]; [q_ 3; q_ 4]; [q_ 5; q_ 6]].
Definition mask_3x2 : bmask := [[true; false]; [true; false]; [true; true]].

(** An item nobody rated. *)
Definition ratings_unrated_item : table := [[q_ 1; NaN]; [q_ 3; NaN]].

(** Columns with different numbers of observed cells. *)
Definition ratings_uneven : table := [[q_ 1; q_ 5]; [q_ 3; NaN]].

(** Two tables equal on the training cells (item 0), different on a
    held-out cell. *)
Definition ratings_a : table := [[q_ 1; q_ 5]; [q_ 1; q_ 7]].
Definition ratings_b : table := [[q_ 1; q_ 5]; [q_ 1; q_ 9]].
Definition mask_item0 : bmask := [[true; false]; [true; false]].

(** Sparse time series of two subjects. *)
Definition ratings_sparse : table :=
  [[q_ 1; NaN; NaN; q_ 4]; [q_ 2; NaN; q_ 3; NaN]].

Definition half : flt := Fin (1 # 2).
Definition default_fit_error_limit : flt := Fin (1 # 1000000).

(** ** Results *)

(** *** Arithmetic on cells *)

Lemma fin_eq (a b : Q) : (a == b)%Q -> fin a = fin b.
Proof. intros E. unfold fin. f_equal. now apply Qred_complete. Qed.

Lemma fadd_comm (x y : flt) : fadd x y = fadd y x.
Proof.
  destruct x, y; simpl; try reflexivity. apply fin_eq, Qplus_comm.
Qed.

Lemma fmul_comm (x y : flt) : fmul x y = fmul y x.
Proof.
  destruct x, y; simpl; try reflexivity. apply fin_eq, Qmult_comm.
Qed.

Lemma fadd_NaN_l (x : flt) : fadd NaN x = NaN.
Proof. reflexivity. Qed.

Lemma fadd_NaN_r (x : flt) : fadd x NaN = NaN.
Proof. now destruct x. Qed.

Lemma fold_fadd_NaN (l : list flt) : fold_left fadd l NaN = NaN.
Proof. induction l as [|x l IH]; simpl; auto. Qed.

(** A sum with a missing term is missing. *)
Lemma np_sum_NaN (l : list flt) : In NaN l -> np_sum l = NaN.
Proof.
  unfold np_sum. generalize (of_Z 0).
  induction l as [|x l IH]; intros acc; simpl; [tauto|].
  intros [-> | Hin].
  - rewrite fadd_NaN_r. apply fold_fadd_NaN.
  - now apply IH.
Qed.

Lemma fdiv_NaN_l (y : flt) : fdiv NaN y = NaN.
Proof. reflexivity. Qed.

Lemma np_mean_NaN (l : list flt) : In NaN l -> np_mean l = NaN.
Proof. intros Hin. unfold np_mean. now rewrite np_sum_NaN. Qed.

(** *** Overall error keeps the pairs with a missing side *)

Lemma fsq_fsub_NaN_l (a : flt) : fsq (fsub NaN a) = NaN.
Proof. reflexivity. Qed.

Lemma fsq_fsub_NaN_r (p : flt) : fsq (fsub p NaN) = NaN.
Proof. unfold fsub. simpl. now rewrite fadd_NaN_r. Qed.

(** As soon as one retrieved pair lacks a side, the overall error is
    missing: nothing is dropped before the mean is taken. *)
Lemma mean_sq_diff_missing (actual pred : list flt) (i : nat) (a p : flt) :
  actual !! i = Some a -> pred !! i = Some p ->
  isnan a || isnan p = true ->
  mean_sq_diff actual pred = NaN.
Proof.
  intros Ha Hp Hnan. unfold mean_sq_diff. apply np_mean_NaN.
  apply list_elem_of_In, list_elem_of_lookup. exists i.
  rewrite lookup_zip_with, Hp. simpl. rewrite Ha. simpl. f_equal.
  destruct a, p; simpl in Hnan; try discriminate;
    auto using fsq_fsub_NaN_l, fsq_fsub_NaN_r.
Qed.

(** C1 (the code departs from the claim).  On [ratings_3x2] with the
    caller's mask [mask_3x2], after [Mean.fit()] and [Mean.predict()], the
    'test' selection is the pairs (missing, 6) and (4, 6).  [get_mse('test')]
    returns the mean over both, which is missing, whereas the mean squared
    error over the one pair that has both sides is 4. *)
Theorem get_mse_keeps_missing_pairs :
  let st := snd (and_then (Mean_fit None (Mean_init ratings_3x2 (Some mask_3x2)))
                          Mean_predict) in
  _retrieve_predictions "test" (base st) = Ok ([NaN; q_ 4], [q_ 6; q_ 6]) /\
  get_mse "test" (base st) = Ok NaN /\
  dropna_pairs [NaN; q_ 4] [q_ 6; q_ 6] = ([q_ 4], [q_ 6]) /\
  mean_sq_diff [q_ 4] [q_ 6] = q_ 4.
Proof. vm_compute. repeat split; reflexivity. Qed.

(** *** Guards of the evaluation accessors and of [predict] *)

Lemma check_unfit (s : BaseCF) :
  is_fit s = false -> check_fit_predict s = Raise unfit_state_error.
Proof. intros E. unfold check_fit_predict. now rewrite E. Qed.

Lemma check_nopredict (s : BaseCF) :
  is_fit s = true -> is_predict s = false ->
  check_fit_predict s = Raise no_prediction_error.
Proof. intros E1 E2. unfold check_fit_predict. now rewrite E1, E2. Qed.

(** The four accessors raise the unfit-state error before a fit, and the
    no-prediction error after a fit without a prediction. *)
Lemma accessors_guarded (sqrtQ : Q -> Q) (data : string) (s : BaseCF) :
  (is_fit s = false ->
     get_mse data s = Raise unfit_state_error /\
     get_corr sqrtQ data s = Raise unfit_state_error /\
     get_sub_mse data s = Raise unfit_state_error /\
     get_sub_corr sqrtQ data s = Raise unfit_state_error) /\
  (is_fit s = true -> is_predict s = false ->
     get_mse data s = Raise no_prediction_error /\
     get_corr sqrtQ data s = Raise no_prediction_error /\
     get_sub_mse data s = Raise no_prediction_error /\
     get_sub_corr sqrtQ data s = Raise no_prediction_error).
Proof.
  split.
  - intros E. unfold get_mse, get_corr, get_sub_mse, get_sub_corr.
    rewrite (check_unfit s E). auto.
  - intros E1 E2. unfold get_mse, get_corr, get_sub_mse, get_sub_corr.
    rewrite (check_nopredict s E1 E2). auto.
Qed.

(** [Mean.predict], [KNN.predict] and [NNMF_multiplicative.predict] raise
    the unfit-state error before a fit and leave the instance as it was. *)
Lemma predict_guarded_Mean (t : Mean) :
  is_fit (base t) = false -> Mean_predict t = (Raise unfit_state_error, t).
Proof.
  intros E. unfold Mean_predict, bind, get, raise. now rewrite E.
Qed.

Lemma predict_guarded_KNN (k : option Z) (t : KNN) :
  is_fit (base t) = false -> KNN_predict k t = (Raise unfit_state_error, t).
Proof.
  intros E. unfold KNN_predict, bind, get, raise. now rewrite E.
Qed.

Lemma predict_guarded_NNMF_multiplicative (t : NNMF_multiplicative) :
  is_fit (base t) = false ->
  NNMF_multiplicative_predict t = (Raise unfit_state_error, t).
Proof.
  intros E. unfold NNMF_multiplicative_predict, bind, get, raise. now rewrite E.
Qed.

(** C2 (the code departs from the claim).  [NNMF_sgd.predict] has no
    guard: on a freshly constructed instance, where [is_fit] is false, it
    overwrites [predicted_ratings] with a copy of the ratings and then fails
    on the attribute [user_vecs], which only [fit] assigns; the error is not
    the unfit-state error. *)
Theorem NNMF_sgd_predict_unguarded (r : table) (mask : option bmask) :
  let t := NNMF_sgd_init r mask in
  is_fit (base t) = false /\
  fst (NNMF_sgd_predict t) = Raise (AttributeError "user_vecs") /\
  fst (NNMF_sgd_predict t) <> Raise unfit_state_error /\
  predicted_ratings (base (snd (NNMF_sgd_predict t))) = Some r.
Proof.
  assert (Hfit : is_fit (BaseCF_init r mask) = false).
  { unfold BaseCF_init. destruct mask; [reflexivity|]. now destruct (any_null r). }
  assert (Hr : ratings (BaseCF_init r mask) = r).
  { unfold BaseCF_init. destruct mask; [reflexivity|]. now destruct (any_null r). }
  cbn zeta. repeat split.
  - exact Hfit.
  - discriminate.
  - cbn. now rewrite Hr.
Qed.

(** *** The multiplicative loop need not stop *)

Section NonTermination.

Variable sqrtQ : Q -> Q.
Hypothesis sqrt_0 : sqrtQ 0 = 0%Q.
Hypothesis sqrt_1 : sqrtQ 1 = 1%Q.

Lemma np_sqrt_0 : np_sqrt sqrtQ (q_ 0) = q_ 0.
Proof.
  change (np_sqrt sqrtQ (q_ 0)) with (fin (sqrtQ 0)). now rewrite sqrt_0.
Qed.

Lemma np_sqrt_1 : np_sqrt sqrtQ (Fin (1 # 1)) = Fin (1 # 1).
Proof.
  change (np_sqrt sqrtQ (Fin (1 # 1))) with (fin (sqrtQ 1)). now rewrite sqrt_1.
Qed.

(** One pass of the loop body. *)
Lemma mult_loop_pass (fuel : nat) (max_iterations : Z) (limit : flt)
  (masked_X mask : table) (ctr : Z) (res : flt) (w h X w1 h1 X1 : table) :
  (ctr <=? max_iterations) || fltb res limit = true ->
  update_W masked_X mask w h = Ok w1 ->
  update_H masked_X mask w1 h = Ok h1 ->
  matmul w1 h1 = Ok X1 ->
  mult_loop sqrtQ (S fuel) max_iterations limit masked_X mask ctr res w h X =
  mult_loop sqrtQ fuel max_iterations limit masked_X mask (ctr + 1)
            (residual sqrtQ mask X X1) w1 h1 X1.
Proof.
  intros Hc HW HH HX. cbn [mult_loop]. now rewrite Hc, HW, HH, HX.
Qed.

(** On the 1x1 table [[1]], the factors [[2]] and [[1/2]] reproduce the
    table exactly and the updates leave them in place: from there on the
    residual is 0, below any positive limit, and the loop goes on. *)
Lemma mult_loop_fixed_point (fuel : nat) (max_iterations ctr : Z) (res : flt) :
  (ctr <=? max_iterations) || fltb res default_fit_error_limit = true ->
  mult_loop sqrtQ fuel max_iterations default_fit_error_limit
            [[q_ 1]] [[q_ 1]] ctr res [[q_ 2]] [[half]] [[q_ 1]] = None.
Proof.
  revert ctr res. induction fuel as [|fuel IH]; intros ctr res Hc.
  - cbn [mult_loop]. now rewrite Hc.
  - rewrite (mult_loop_pass fuel max_iterations default_fit_error_limit
               [[q_ 1]] [[q_ 1]] ctr res [[q_ 2]] [[half]] [[q_ 1]]
               [[q_ 2]] [[half]] [[q_ 1]] Hc);
      try reflexivity.
    apply IH.
    replace (residual sqrtQ [[q_ 1]] [[q_ 1]] [[q_ 1]]) with (q_ 0).
    + apply orb_true_r.
    + symmetry. apply np_sqrt_0.
Qed.

(** C3 (the code departs from the claim).  [NNMF_multiplicative.fit()] with
    its default arguments on the 1x1 ratings table [[1]], the two uniform
    draws being 1/2: the first pass reaches the exact factorisation, every
    later pass has residual 0 < 1e-6, so the condition
    [ctr <= max_iterations or fit_residual < fit_error_limit] holds for
    ever; no amount of fuel lets [fit] return. *)
Theorem NNMF_multiplicative_fit_diverges (fuel : nat) :
  NNMF_multiplicative_fit sqrtQ fuel None 100 default_fit_error_limit None
    [[half]] [[half]] (NNMF_multiplicative_init [[q_ 1]] None) = None.
Proof.
  unfold NNMF_multiplicative_fit.
  assert (Hsetup :
    mult_setup sqrtQ None None [[half]] [[half]]
      (NNMF_multiplicative_init [[q_ 1]] None) =
    (Ok ([[q_ 1]], [[q_ 1]], [[Fin (1 # 4)]]),
     set_W (Some [[half]]) (set_H (Some [[half]])
       (NNMF_multiplicative_init [[q_ 1]] None)))).
  { unfold mult_setup. cbv -[np_sqrt]. rewrite np_sqrt_1. reflexivity. }
  rewrite Hsetup. cbn [W H set_W set_H default id].
  destruct fuel as [|fuel]; [reflexivity|].
  rewrite (mult_loop_pass fuel 100 default_fit_error_limit
             [[q_ 1]] [[q_ 1]] 1 (of_Z 100) [[half]] [[half]] [[Fin (1 # 4)]]
             [[q_ 2]] [[half]] [[q_ 1]]); try reflexivity.
  now rewrite mult_loop_fixed_point.
Qed.

End NonTermination.

(** Witness of [NNMF_multiplicative_fit_diverges]: [sqrt_floor] maps 0 to 0
    and 1 to 1. *)
Lemma NNMF_multiplicative_fit_diverges_witness :
  sqrt_floor 0 = 0%Q /\ sqrt_floor 1 = 1%Q /\
  NNMF_multiplicative_fit sqrt_floor 1000 None 100 default_fit_error_limit None
    [[half]] [[half]] (NNMF_multiplicative_init [[q_ 1]] None) = None.
Proof.
  split; [reflexivity|]. split; [reflexivity|].
  apply (NNMF_multiplicative_fit_diverges sqrt_floor); reflexivity.
Defined.

(** *** The initial global bias of [NNMF_sgd] *)

(** [fit] without dilation returns as soon as the training universe is
    there and there is at least one factor; the global bias is then the one
    computed before training, which no later step assigns. *)
Lemma NNMF_sgd_fit_global_bias (nf : option nat) (p : sgd_params) (n : Z)
  (nu ni : table) (sh : list (list nat)) (t : NNMF_sgd)
  (r : table) (s : list (nat * nat)) (gb : flt) :
  sgd_universe (base t) = Ok (r, s, gb) ->
  (default (snd (shape (ratings (base t)))) nf =? 0)%nat = false ->
  fst (NNMF_sgd_fit nf p n None nu ni sh t) = Ok tt /\
  global_bias (snd (NNMF_sgd_fit nf p n None nu ni sh t)) = Some gb.
Proof.
  intros Huni Hnf.
  unfold NNMF_sgd_fit, bind, get, ret, lift, modify, on_base.
  rewrite Huni. cbn [fst snd]. rewrite Hnf. cbn. auto.
Qed.

(** Without a mask the global bias is the mean over all rated cells. *)
Lemma sgd_universe_unmasked (s : BaseCF) :
  is_mask s = false ->
  (length (nonzero (notnull (ratings s))) =? 0)%nat = false ->
  sgd_universe s =
  Ok (ratings s, nonzero (notnull (ratings s)),
      np_mean (List.filter (fun x => negb (isnan x)) (flatten (ratings s)))).
Proof. intros E1 E2. unfold sgd_universe. now rewrite E1, E2. Qed.

(** With no epoch run, the biases are the zero vectors [fit] starts from. *)
Lemma NNMF_sgd_fit_biases_start_at_zero (nf : option nat) (p : sgd_params)
  (nu ni : table) (sh : list (list nat)) (t : NNMF_sgd)
  (r : table) (s : list (nat * nat)) (gb : flt) :
  sgd_universe (base t) = Ok (r, s, gb) ->
  (default (snd (shape (ratings (base t)))) nf =? 0)%nat = false ->
  let t' := snd (NNMF_sgd_fit nf p 0 None nu ni sh t) in
  user_bias t' = Some (replicate (fst (shape (ratings (base t)))) (q_ 0)) /\
  item_bias t' = Some (replicate (snd (shape (ratings (base t)))) (q_ 0)).
Proof.
  intros Huni Hnf.
  unfold NNMF_sgd_fit, bind, get, ret, lift, modify, on_base.
  rewrite Huni. cbn [fst snd]. rewrite Hnf. cbn. auto.
Qed.

(** C4 (the code departs from the claim).  On [ratings_uneven], which the
    constructor masks by its missing cell, the observed training ratings
    are 1, 5 and 3, of mean 3.  [NNMF_sgd.fit] sets [global_bias] to
    [ratings[train_mask].mean().mean()], the mean of the column means 2 and
    5, that is 7/2, whatever the hyperparameters and the random draws. *)
Theorem global_bias_is_mean_of_column_means (p : sgd_params) (n : Z)
  (nu ni : table) (sh : list (list nat)) :
  let t := NNMF_sgd_init ratings_uneven None in
  fst (NNMF_sgd_fit None p n None nu ni sh t) = Ok tt /\
  select (where_mask ratings_uneven (notnull ratings_uneven))
         (notnull ratings_uneven) = Ok [q_ 1; q_ 5; q_ 3] /\
  np_mean [q_ 1; q_ 5; q_ 3] = q_ 3 /\
  global_bias (snd (NNMF_sgd_fit None p n None nu ni sh t)) = Some (Fin (7 # 2)).
Proof.
  cbn zeta.
  destruct (NNMF_sgd_fit_global_bias None p n nu ni sh
              (NNMF_sgd_init ratings_uneven None)
              (where_mask (where_mask ratings_uneven (notnull ratings_uneven))
                          (notnull ratings_uneven))
              (nonzero (notnull ratings_uneven)) (Fin (7 # 2)))
    as [Hok Hgb]; try reflexivity.
  rewrite Hok, Hgb. repeat split; reflexivity.
Qed.

(** *** Predictions may have missing cells *)

(** C9, counterexample.  On [ratings_unrated_item] the mean of the second
    item is undefined, and [Mean.predict] writes it into every row: the
    prediction has missing cells. *)
Lemma Mean_predict_leaves_missing_cells :
  let t := snd (and_then (Mean_fit None (Mean_init ratings_unrated_item None))
                         Mean_predict) in
  fst (and_then (Mean_fit None (Mean_init ratings_unrated_item None))
                Mean_predict) = Ok tt /\
  predicted_ratings (base t) = Some [[q_ 2; NaN]; [q_ 2; NaN]] /\
  ~ (forall p, predicted_ratings (base t) = Some p -> any_null p = false).
Proof.
  cbn zeta. split; [reflexivity|]. split; [reflexivity|].
  intros Hall. specialize (Hall _ eq_refl). discriminate Hall.
Qed.

(** *** Shapes *)

Lemma map_fmap {A B} (f : A -> B) (l : list A) : map f l = f <$> l.
Proof. reflexivity. Qed.


Lemma same_shape_trans {A B C} (t : list (list A)) (u : list (list B))
  (v : list (list C)) : same_shape t u -> same_shape u v -> same_shape t v.
Proof. unfold same_shape. congruence. Qed.

Lemma same_shape_sym {A B} (t : list (list A)) (u : list (list B)) :
  same_shape t u -> same_shape u t.
Proof. unfold same_shape. congruence. Qed.

Lemma same_shape_map {A B} (f : list A -> list B) (t : list (list A)) :
  (forall r, length (f r) = length r) -> same_shape (map f t) t.
Proof.
  intros Hf. unfold same_shape. rewrite map_map.
  apply map_ext. intros r. apply Hf.
Qed.

Lemma same_shape_map_map {A B} (f : A -> B) (t : list (list A)) :
  same_shape (map (map f) t) t.
Proof. apply same_shape_map. intros r. apply length_map. Qed.

Lemma same_shape_imap {A B} (f : nat -> list A -> list B) (t : list (list A)) :
  (forall i r, length (f i r) = length r) -> same_shape (imap f t) t.
Proof.
  intros Hf. unfold same_shape. revert f Hf.
  induction t as [|r t IH]; intros f Hf; [reflexivity|].
  cbn. f_equal; [apply Hf|]. apply IH. intros i r'. apply Hf.
Qed.

Lemma where_mask_shape (t : table) (m : bmask) : same_shape (where_mask t m) t.
Proof.
  unfold where_mask. apply same_shape_imap. intros i r. apply length_imap.
Qed.

Lemma set_cell_shape (t : table) (i j : nat) (v : flt) :
  same_shape (set_cell t i j v) t.
Proof.
  unfold same_shape, set_cell. revert i.
  induction t as [|r t IH]; intros [|i]; cbn; try reflexivity.
  - f_equal. apply length_insert.
  - f_equal. apply IH.
Qed.

Lemma broadcast_row_length (mu r : row) : length (broadcast_row mu r) = length r.
Proof. apply length_imap. Qed.

Lemma knn_fill_row_shape (full : table) (top : list (nat * flt)) (i : nat)
  (cols : list nat) (pred : table) :
  same_shape (knn_fill_row full top i cols pred) pred.
Proof.
  unfold knn_fill_row. revert pred.
  induction cols as [|j cols IH]; intros pred; [reflexivity|].
  cbn. eapply same_shape_trans; [apply IH|apply set_cell_shape].
Qed.

Lemma knn_fill_shape (full sim : table) (k : option Z) (cols rows : list nat)
  (pred out : table) :
  knn_fill full sim k cols rows pred = Ok out -> same_shape out pred.
Proof.
  revert pred. induction rows as [|i rows IH]; intros pred; cbn.
  - intros [= <-]. reflexivity.
  - destruct (sim !! i) as [sim_row|]; [|discriminate].
    destruct (_ && _); [discriminate|].
    intros Hout. eapply same_shape_trans; [apply (IH _ Hout)|].
    apply knn_fill_row_shape.
Qed.

Lemma iloc_set_shape (u i : nat) (v : flt) (pred : table) :
  same_shape (snd (iloc_set u i v pred)) pred.
Proof.
  unfold iloc_set. destruct (pred !! u) as [r|]; [|reflexivity].
  destruct (i <? length r)%nat; [apply set_cell_shape|reflexivity].
Qed.

Lemma for_each_shape {A} (l : list A) (body : A -> M table unit) (pred : table) :
  (forall a p, same_shape (snd (body a p)) p) ->
  same_shape (snd (for_each l body pred)) pred.
Proof.
  intros Hbody. revert pred.
  induction l as [|a l IH]; intros pred; [reflexivity|].
  cbn [for_each]. unfold bind.
  pose proof (Hbody a pred) as Ha.
  destruct (body a pred) as [[[]|e] p']; cbn [snd] in *; [|exact Ha].
  eapply same_shape_trans; [apply IH|exact Ha].
Qed.

Lemma sgd_fill_shape (gb : flt) (w : weights) (pred : table) :
  same_shape (snd (sgd_fill gb w pred)) pred.
Proof.
  unfold sgd_fill. apply for_each_shape. intros u p.
  apply for_each_shape. intros i p'. apply iloc_set_shape.
Qed.

(** The constructor establishes [masked_shape_ok]. *)
Lemma BaseCF_init_masked_shape_ok (r : table) (mask : option bmask) :
  masked_shape_ok (BaseCF_init r mask).
Proof.
  unfold masked_shape_ok, BaseCF_init.
  destruct mask as [m|]; [|destruct (any_null r)]; cbn; intros E;
    try discriminate; eexists; (split; [reflexivity|apply where_mask_shape]).
Qed.

(** For each of the four models, on an instance whose masked ratings (if
    it is masked) cover the ratings table, a [predict()] that returns
    leaves a prediction with one cell per cell of the ratings table -- the
    same rows and columns -- and sets [is_predict]; the ratings themselves
    are untouched. *)
Lemma predict_keeps_shape (k : option Z) (m m' : model) :
  masked_shape_ok (model_base m) ->
  predict k m = (Ok tt, m') ->
  ratings (model_base m') = ratings (model_base m) /\
  is_predict (model_base m') = true /\
  exists p, predicted_ratings (model_base m') = Some p /\
            same_shape p (ratings (model_base m)).
Proof.
  intros Hwf. destruct m as [t|t|t|t]; cbn [predict model_base].
  - (* Mean *)
    unfold tag, Mean_predict, bind, get, raise, on_base, modify.
    destruct (negb (is_fit (base t))); cbn; [discriminate|].
    intros [= <-]. cbn. repeat split.
    eexists. split; [reflexivity|].
    apply same_shape_map, broadcast_row_length.
  - (* KNN *)
    unfold tag, KNN_predict, bind, get, raise, on_base, modify, lift, ret.
    destruct (negb (is_fit (base t))); cbn [fst snd]; [discriminate|].
    destruct (is_mask (base t)) eqn:Em.
    + destruct (Hwf Em) as (mr & Hmr & Hshape).
      cbn [model_base] in Hmr, Hshape. rewrite Hmr.
      cbn [attr]. destruct (subject_similarity t) as [sim|]; cbn [attr fst snd];
        [|discriminate].
      destruct (knn_fill _ _ _ _ _ _) as [pred|e] eqn:Ef; cbn [fst snd];
        [|discriminate].
      intros [= <-]. cbn. repeat split.
      eexists. split; [reflexivity|].
      apply knn_fill_shape in Ef.
      eapply same_shape_trans; [exact Ef|].
      eapply same_shape_trans; [apply same_shape_map_map|exact Hshape].
    + destruct (subject_similarity t) as [sim|]; cbn [attr fst snd];
        [|discriminate].
      destruct (knn_fill _ _ _ _ _ _) as [pred|e] eqn:Ef; cbn [fst snd];
        [|discriminate].
      intros [= <-]. cbn. repeat split.
      eexists. split; [reflexivity|].
      apply knn_fill_shape in Ef.
      eapply same_shape_trans; [exact Ef|apply same_shape_map_map].
  - (* NNMF_multiplicative *)
    unfold tag, NNMF_multiplicative_predict, bind, get, raise, on_base,
      modify, lift, ret.
    destruct (negb (is_fit (base t))); cbn [fst snd]; [discriminate|].
    destruct (W t) as [w|]; cbn [attr fst snd]; [|discriminate].
    destruct (H t) as [h|]; cbn [attr fst snd]; [|discriminate].
    destruct (matmul w h) as [wh|e]; cbn [fst snd]; [|discriminate].
    cbn [base NNMF_multiplicative_Model with_base nm_base ratings
         set_predicted_ratings].
    destruct (same_shapeb wh (ratings (nm_base t))) eqn:Es; cbn [fst snd];
      [|discriminate].
    intros [= <-]. cbn. repeat split.
    eexists. split; [reflexivity|].
    unfold same_shapeb in Es. now apply bool_decide_eq_true in Es.
  - (* NNMF_sgd *)
    unfold tag, NNMF_sgd_predict, bind, get, raise, on_base, modify, lift, ret.
    cbn [fst snd].
    destruct (user_vecs t) as [uv|]; cbn [attr fst snd]; [|discriminate].
    destruct (item_vecs t) as [iv|]; cbn [attr fst snd]; [|discriminate].
    destruct (global_bias t) as [gb|]; cbn [attr fst snd]; [|discriminate].
    destruct (user_bias t) as [ub|]; cbn [attr fst snd]; [|discriminate].
    destruct (item_bias t) as [ib|]; cbn [attr fst snd]; [|discriminate].
    pose proof (sgd_fill_shape gb {| w_user_vecs := uv; w_item_vecs := iv;
                                     w_user_bias := ub; w_item_bias := ib |}
                  (ratings (base t))) as Hs.
    destruct (sgd_fill gb _ (ratings (base t))) as [[[]|e] filled];
      cbn [fst snd] in *; [|discriminate].
    intros [= <-]. cbn. repeat split.
    eexists. split; [reflexivity|]. exact Hs.
Qed.

(** *** split_train_test *)

Lemma mark_row_length (d : list nat) (r : list bool) :
  length (mark_row d r) = length r.
Proof.
  induction d as [|j d IH]; [reflexivity|]. cbn. now rewrite length_insert.
Qed.

Lemma mark_row_lookup (d : list nat) (r : list bool) (j : nat) :
  (j < length r)%nat ->
  mark_row d r !! j = if bool_decide (j ∈ d) then Some true else r !! j.
Proof.
  intros Hj. induction d as [|i d IH].
  - cbn. reflexivity.
  - cbn [mark_row foldr]. fold (mark_row d r).
    destruct (decide (i = j)) as [->|Hne].
    + rewrite list_lookup_insert_eq by now rewrite mark_row_length.
      rewrite bool_decide_eq_true_2; [reflexivity|]. apply elem_of_cons; auto.
    + rewrite list_lookup_insert_ne by exact Hne. rewrite IH.
      destruct (bool_decide (j ∈ d)) eqn:E.
      * apply bool_decide_eq_true in E.
        rewrite bool_decide_eq_true_2; [reflexivity|]. apply elem_of_cons; auto.
      * apply bool_decide_eq_false in E.
        rewrite bool_decide_eq_false_2; [reflexivity|].
        intros [?|?]%elem_of_cons; [congruence|contradiction].
Qed.

Lemma count_true_insert (l : list bool) (j : nat) :
  l !! j = Some false -> count_true (<[j:=true]> l) = S (count_true l).
Proof.
  unfold count_true. revert j. induction l as [|b l IH]; intros [|j]; cbn;
    try discriminate.
  - intros [= ->]. reflexivity.
  - intros Hj. destruct b; cbn; now rewrite IH.
Qed.

Lemma count_true_zeros {A} (r : list A) :
  count_true (map (fun _ => false) r) = 0%nat.
Proof. unfold count_true. induction r; cbn; auto. Qed.

(** Marking [k] distinct columns of an all-false row leaves exactly [k]
    true cells. *)
Lemma count_true_mark_row {A} (d : list nat) (r : list A) :
  NoDup d -> Forall (fun j => (j < length r)%nat) d ->
  count_true (mark_row d (map (fun _ => false) r)) = length d.
Proof.
  induction 1 as [|j d Hnotin Hnd IH]; intros Hlt.
  - cbn. apply count_true_zeros.
  - apply Forall_cons in Hlt as [Hj Hlt]. cbn [mark_row foldr length].
    fold (mark_row d (map (fun _ : A => false) r)).
    rewrite count_true_insert; [now rewrite IH|].
    rewrite mark_row_lookup by now rewrite length_map.
    rewrite bool_decide_eq_false_2 by exact Hnotin.
    rewrite map_fmap, list_lookup_fmap.
    destruct (r !! j) eqn:E; [reflexivity|].
    apply lookup_ge_None in E. lia.
Qed.

Lemma true_positions_spec (r : list bool) (j : nat) :
  j ∈ true_positions r <-> r !! j = Some true.
Proof.
  unfold true_positions. rewrite list_elem_of_In, filter_In, in_seq.
  split.
  - intros [[_ Hj] Hb]. cbn in Hj.
    destruct (r !! j) as [[|]|]; cbn in Hb; congruence.
  - intros E. split; [|now rewrite E].
    apply lookup_lt_Some in E. lia.
Qed.

Lemma true_positions_length (r : list bool) :
  length (true_positions r) = count_true r.
Proof.
  unfold true_positions, count_true.
  induction r as [|b r IH] using rev_ind; [reflexivity|].
  rewrite length_app, Nat.add_1_r, seq_S, !List.filter_app, !length_app. cbn.
  rewrite lookup_app_r, Nat.sub_diag by lia. cbn.
  rewrite <- IH. f_equal.
  - f_equal. apply filter_ext_in. intros j [_ Hj]%in_seq.
    now rewrite lookup_app_l by (cbn in Hj; lia).
  - now destruct b.
Qed.

Lemma true_positions_valid (r : list bool) :
  valid_choice (length r) (count_true r) (true_positions r).
Proof.
  split; [apply true_positions_length|]. split.
  - unfold true_positions. apply NoDup_ListNoDup, List.NoDup_filter, List.seq_NoDup.
  - apply Forall_forall. intros j Hj%true_positions_spec.
    now apply lookup_lt_Some in Hj.
Qed.

(** Marking the true positions of a row on the all-false row of its
    length gives the row back. *)
Lemma mark_row_true_positions {A} (r : list bool) (z : list A) :
  length z = length r ->
  mark_row (true_positions r) (map (fun _ => false) z) = r.
Proof.
  intros Hlen. apply list_eq. intros j.
  destruct (decide (j < length r)%nat) as [Hj|Hj].
  - rewrite mark_row_lookup by (rewrite length_map; lia).
    destruct (lookup_lt_is_Some_2 r j Hj) as [b Hb].
    destruct b.
    + rewrite bool_decide_eq_true_2 by now apply true_positions_spec.
      now rewrite Hb.
    + rewrite bool_decide_eq_false_2.
      * rewrite map_fmap, list_lookup_fmap, Hb.
        destruct (lookup_lt_is_Some_2 z j ltac:(lia)) as [a ->]. reflexivity.
      * intros E%true_positions_spec. congruence.
  - rewrite !lookup_ge_None_2; [reflexivity|lia|].
    rewrite mark_row_length, length_map. lia.
Qed.

Lemma same_shape_length {A B} (t : list (list A)) (u : list (list B)) :
  same_shape t u -> length t = length u.
Proof.
  unfold same_shape. intros E.
  apply (f_equal (@length nat)) in E. now rewrite !length_map in E.
Qed.

Lemma same_shape_lookup {A B} (t : list (list A)) (u : list (list B))
  (i : nat) (r : list A) :
  same_shape t u -> t !! i = Some r ->
  exists r', u !! i = Some r' /\ length r = length r'.
Proof.
  unfold same_shape. intros E Hr.
  assert (Hi : map length u !! i = Some (length r)).
  { rewrite <- E. change (map length t) with (length <$> t).
    rewrite list_lookup_fmap. now rewrite Hr. }
  change (map length u) with (length <$> u) in Hi.
  rewrite list_lookup_fmap in Hi.
  destruct (u !! i) as [r'|]; [|discriminate].
  injection Hi as Hi. eauto.
Qed.

Lemma rect_lookup {A} (m : nat) (t : list (list A)) (i : nat) (r : list A) :
  rect m t -> t !! i = Some r -> length r = m.
Proof. unfold rect. rewrite Forall_lookup. eauto. Qed.

Lemma split_mask_lookup (t : table) (draws : list (list nat)) (i : nat) :
  split_mask t draws !! i =
  (fun r : row => mark_row (default [] (draws !! i)) (map (fun _ => false) r))
    <$> t !! i.
Proof.
  unfold split_mask, zeros_like.
  rewrite list_lookup_imap.
  change (map (map (fun _ : flt => false)) t)
    with (map (fun _ : flt => false) <$> t).
  rewrite list_lookup_fmap. now rewrite <- option_fmap_compose.
Qed.

Lemma split_mask_shape (t : table) (draws : list (list nat)) :
  same_shape (split_mask t draws) t.
Proof.
  unfold split_mask, zeros_like.
  eapply same_shape_trans; [|apply same_shape_map_map].
  apply same_shape_imap. intros i r. apply mark_row_length.
Qed.

(** The row a draw leaves depends on the items drawn, not on their
    order, and two draws of distinct items leave the same row only if they
    drew the same items. *)
Lemma mark_row_perm (d d' : list nat) (r : list bool) :
  Permutation d d' -> mark_row d r = mark_row d' r.
Proof.
  intros Hp. apply list_eq. intros j.
  destruct (decide (j < length r)%nat) as [Hj|Hj].
  - rewrite !mark_row_lookup by exact Hj.
    destruct (decide (j ∈ d)) as [Hin|Hin].
    + rewrite !bool_decide_eq_true_2; [reflexivity| |exact Hin].
      now rewrite <- Hp.
    + rewrite !bool_decide_eq_false_2; [reflexivity| |exact Hin].
      now rewrite <- Hp.
  - rewrite !lookup_ge_None_2; [reflexivity| |];
      rewrite mark_row_length; lia.
Qed.

Lemma mark_row_drawn {A} (d : list nat) (z : list A) (j : nat) :
  Forall (fun i => (i < length z)%nat) d ->
  j ∈ d <-> mark_row d (map (fun _ => false) z) !! j = Some true.
Proof.
  intros Hlt. split.
  - intros Hin. rewrite Forall_forall in Hlt.
    rewrite mark_row_lookup by (rewrite length_map; auto).
    now rewrite bool_decide_eq_true_2.
  - intros Hj.
    assert (Hlen : (j < length z)%nat).
    { apply lookup_lt_Some in Hj.
      now rewrite mark_row_length, length_map in Hj. }
    rewrite mark_row_lookup in Hj by now rewrite length_map.
    destruct (decide (j ∈ d)) as [Hin|Hin]; [exact Hin|].
    rewrite bool_decide_eq_false_2 in Hj by exact Hin.
    rewrite map_fmap, list_lookup_fmap in Hj.
    destruct (z !! j); discriminate.
Qed.

Lemma mark_row_eq_iff {A} (n k : nat) (d d' : list nat) (z : list A) :
  length z = n -> valid_choice n k d -> valid_choice n k d' ->
  mark_row d (map (fun _ => false) z) = mark_row d' (map (fun _ => false) z)
  <-> Permutation d d'.
Proof.
  intros Hn (_ & Hnd & Hlt) (_ & Hnd' & Hlt'). subst n. split.
  - intros E. apply NoDup_Permutation; [exact Hnd|exact Hnd'|].
    intros j. rewrite (mark_row_drawn d z j Hlt), (mark_row_drawn d' z j Hlt').
    now rewrite E.
  - apply mark_row_perm.
Qed.

(** [split_train_test] returns whenever [k] does not exceed the number of
    items, and what it leaves is spelled out here. *)
Lemma split_train_test_run (s : BaseCF) (k ncols : nat) (draws : list (list nat)) :
  rect ncols (ratings s) -> (k <= ncols)%nat ->
  split_train_test k draws s =
  (Ok tt,
   set_is_mask true
     (set_masked_ratings
        (Some (where_mask (ratings s) (split_mask (ratings s) draws)))
        (set_train_mask (Some (split_mask (ratings s) draws))
           (set_train_mask (Some (zeros_like (ratings s)))
              (set_n_train_items (Some k) s))))).
Proof.
  intros Hrect Hk. unfold split_train_test, bind, get, modify, raise.
  assert (Hc : negb (length (ratings s) =? 0)%nat
               && (snd (shape (ratings s)) <? k)%nat = false).
  { destruct (ratings s) as [|r t] eqn:E; [reflexivity|]. cbn.
    apply Nat.ltb_ge. apply Forall_cons in Hrect as [-> _]. exact Hk. }
  rewrite Hc. reflexivity.
Qed.

(** C7.  For a ratings table with [ncols] items per subject and
    [0 < k <= ncols], [split_train_test(k)] returns and leaves a train mask
    of the shape of the ratings with exactly [k] true cells in every row,
    whatever [k] distinct items the random source picked for each subject;
    the masked ratings are the ratings under that mask and [is_mask] is set.
    The mask is the same whatever mask the instance held before.  Every
    mask with [k] true cells per row is left by some draws: any [k] items
    can come out for a subject, whatever came out for the others.  Two
    outcomes of the random source leave the same mask exactly when, for
    every subject, they are the same items in some order: each mask comes
    from as many outcomes as any other. *)
Theorem split_train_test_exactly_k (s : BaseCF) (k ncols : nat)
  (draws : list (list nat)) :
  rect ncols (ratings s) ->
  (0 < k <= ncols)%nat ->
  length draws = length (ratings s) ->
  Forall (valid_choice ncols k) draws ->
  fst (split_train_test k draws s) = Ok tt /\
  exists m,
    train_mask (snd (split_train_test k draws s)) = Some m /\
    same_shape m (ratings s) /\
    Forall (fun r => count_true r = k) m /\
    masked_ratings (snd (split_train_test k draws s))
      = Some (where_mask (ratings s) m) /\
    is_mask (snd (split_train_test k draws s)) = true /\
    (forall s2, ratings s2 = ratings s ->
       train_mask (snd (split_train_test k draws s2)) = Some m) /\
    (forall target,
       same_shape target (ratings s) ->
       Forall (fun r => count_true r = k) target ->
       exists draws',
         length draws' = length (ratings s) /\
         Forall (valid_choice ncols k) draws' /\
         train_mask (snd (split_train_test k draws' s)) = Some target) /\
    (forall draws',
       length draws' = length (ratings s) ->
       Forall (valid_choice ncols k) draws' ->
       train_mask (snd (split_train_test k draws' s)) = Some m
       <-> Forall2 Permutation draws draws').
Proof.
  intros Hrect [Hk0 Hk] Hlen Hvalid.
  rewrite (split_train_test_run s k ncols draws Hrect Hk).
  split; [reflexivity|].
  exists (split_mask (ratings s) draws). cbn [snd].
  split; [reflexivity|]. split; [apply split_mask_shape|].
  split; [|split; [reflexivity|split; [reflexivity|split; [|split]]]].
  - apply Forall_lookup. intros i r Hr.
    rewrite split_mask_lookup in Hr.
    destruct (ratings s !! i) as [ri|] eqn:Hri; [|discriminate].
    injection Hr as <-.
    assert (Hi : (i < length draws)%nat)
      by (rewrite Hlen; now apply lookup_lt_Some in Hri).
    destruct (lookup_lt_is_Some_2 draws i Hi) as [d Hd]. rewrite Hd.
    change (default [] (Some d)) with d.
    rewrite Forall_lookup in Hvalid.
    destruct (Hvalid i d Hd) as (Hdk & Hnd & Hlt).
    rewrite count_true_mark_row; [exact Hdk|exact Hnd|].
    now rewrite (rect_lookup ncols (ratings s) i ri Hrect Hri).
  - intros s2 E.
    assert (Hrect2 : rect ncols (ratings s2)) by now rewrite E.
    rewrite (split_train_test_run s2 k ncols draws Hrect2 Hk). cbn.
    now rewrite E.
  - intros target Hshape Hcount.
    exists (map true_positions target).
    split; [rewrite length_map; now apply same_shape_length|].
    split.
    + apply Forall_forall. intros d Hd.
      change (map true_positions target) with (true_positions <$> target) in Hd.
      apply list_elem_of_fmap in Hd as [r [-> Hin]].
      apply list_elem_of_lookup in Hin as [i Hi].
      destruct (same_shape_lookup _ _ i r Hshape Hi) as (ri & Hri & Hl).
      rewrite Forall_lookup in Hcount.
      rewrite <- (Hcount i r Hi),
        <- (rect_lookup ncols (ratings s) i ri Hrect Hri), <- Hl.
      apply true_positions_valid.
    + rewrite (split_train_test_run s k ncols _ Hrect Hk). cbn. f_equal.
      apply list_eq. intros i. rewrite split_mask_lookup.
      change (map true_positions target) with (true_positions <$> target).
      rewrite list_lookup_fmap.
      destruct (target !! i) as [r|] eqn:Hi.
      * destruct (same_shape_lookup _ _ i r Hshape Hi) as (ri & Hri & Hl).
        rewrite Hri. cbn [fmap option_fmap option_map]. f_equal.
        now apply mark_row_true_positions.
      * apply lookup_ge_None in Hi.
        rewrite (same_shape_length _ _ Hshape) in Hi.
        apply lookup_ge_None in Hi. now rewrite Hi.
  - intros draws' Hlen' Hvalid'.
    rewrite (split_train_test_run s k ncols draws' Hrect Hk).
    cbn [snd train_mask set_is_mask set_masked_ratings set_train_mask].
    rewrite Forall_lookup in Hvalid, Hvalid'.
    rewrite Forall2_same_length_lookup. split.
    + intros [= E]. split; [congruence|]. intros i d d' Hd Hd'.
      assert (Hi : (i < length (ratings s))%nat)
        by (rewrite <- Hlen; now apply lookup_lt_Some in Hd).
      destruct (lookup_lt_is_Some_2 _ i Hi) as [r Hr].
      assert (Ei : split_mask (ratings s) draws' !! i
                   = split_mask (ratings s) draws !! i) by now rewrite E.
      rewrite !split_mask_lookup, Hr, Hd, Hd' in Ei. cbn in Ei.
      injection Ei as Ei.
      apply (mark_row_eq_iff ncols k d d' r); eauto using rect_lookup.
    + intros [_ Hperm]. f_equal. apply list_eq. intros i.
      rewrite !split_mask_lookup.
      destruct (ratings s !! i) as [r|] eqn:Hr; [|reflexivity]. cbn. f_equal.
      assert (Hi : (i < length (ratings s))%nat)
        by now apply lookup_lt_Some in Hr.
      destruct (lookup_lt_is_Some_2 draws i ltac:(lia)) as [d Hd].
      destruct (lookup_lt_is_Some_2 draws' i ltac:(lia)) as [d' Hd'].
      rewrite Hd, Hd'. cbn. symmetry. apply mark_row_perm. eauto.
Qed.

(** Witness of [split_train_test_exactly_k]: one item out of two for each
    of the three subjects of [ratings_3x2]. *)
Lemma split_train_test_exactly_k_witness :
  exists m,
    train_mask (snd (split_train_test 1 [[1%nat]; [0%nat]; [1%nat]]
                       (BaseCF_init ratings_3x2 None))) = Some m /\
    Forall (fun r => count_true r = 1%nat) m.
Proof.
  destruct (split_train_test_exactly_k (BaseCF_init ratings_3x2 None) 1 2
              [[1%nat]; [0%nat]; [1%nat]])
    as (_ & m & Hm & _ & Hc & _).
  - repeat constructor.
  - lia.
  - reflexivity.
  - assert (Hv : forall j, (j < 2)%nat -> valid_choice 2 1 [j]).
    { intros j Hj. split; [reflexivity|]. split; [apply NoDup_singleton|].
      apply Forall_singleton. exact Hj. }
    repeat (apply Forall_cons_2; [apply Hv; lia|]). apply Forall_nil_2.
  - exists m. split; [exact Hm|exact Hc].
Defined.

(** *** The descending sort of a similarity row *)

Lemma Qltb_lt (a b : Q) : Qltb a b = true <-> (a < b)%Q.
Proof. unfold Qltb, Qlt. apply Z.ltb_lt. Qed.

Lemma Qltb_ge (a b : Q) : Qltb a b = false <-> (b <= a)%Q.
Proof. unfold Qltb, Qle. apply Z.ltb_ge. Qed.






Lemma insert_desc_perm (e : nat * flt) (l : list (nat * flt)) :
  Permutation (insert_desc e l) (e :: l).
Proof.
  induction l as [|h l IH]; cbn; [reflexivity|].
  destruct (before (snd h) (snd e)); [|reflexivity].
  rewrite IH. apply perm_swap.
Qed.



Lemma sort_desc_perm (l : list (nat * flt)) : Permutation (sort_desc l) l.
Proof.
  induction l as [|e l IH]; cbn; [reflexivity|].
  rewrite insert_desc_perm. now constructor.
Qed.


(** *** The cells [KNN.predict] writes *)

Lemma cell_set_cell_eq (t : list (list flt)) (i j : nat) (v : flt) :
  in_range t i j -> cell (set_cell t i j v) i j = v.
Proof.
  intros (r & Hr & Hj). unfold cell, set_cell.
  rewrite list_lookup_alter_eq, Hr. cbn.
  now rewrite list_lookup_insert_eq.
Qed.

Lemma cell_set_cell_ne (t : list (list flt)) (i j i' j' : nat) (v : flt) :
  i <> i' \/ j <> j' -> cell (set_cell t i j v) i' j' = cell t i' j'.
Proof.
  intros Hne. unfold cell, set_cell.
  destruct (decide (i = i')) as [<-|Hi].
  - rewrite list_lookup_alter_eq. destruct (t !! i) as [r|]; cbn; [|reflexivity].
    rewrite list_lookup_insert_ne; [reflexivity|]. destruct Hne; congruence.
  - now rewrite list_lookup_alter_ne.
Qed.

Lemma in_range_set_cell (t : list (list flt)) (i j i' j' : nat) (v : flt) :
  in_range t i' j' -> in_range (set_cell t i j v) i' j'.
Proof.
  intros (r & Hr & Hj). unfold in_range, set_cell.
  destruct (decide (i = i')) as [<-|Hi].
  - rewrite list_lookup_alter_eq, Hr. cbn. eexists. split; [reflexivity|].
    now rewrite length_insert.
  - rewrite list_lookup_alter_ne by exact Hi. eauto.
Qed.

Lemma in_range_same_shape {A B} (t : list (list A)) (u : list (list B))
  (i j : nat) : same_shape t u -> in_range t i j -> in_range u i j.
Proof.
  intros Hs (r & Hr & Hj).
  destruct (same_shape_lookup t u i r Hs Hr) as (r' & Hr' & Hl).
  exists r'. split; [exact Hr'|lia].
Qed.

Lemma knn_fill_row_in_range (full : list (list flt)) (top : list (nat * flt))
  (i : nat) (cols : list nat) (pred : list (list flt)) (i' j' : nat) :
  in_range pred i' j' -> in_range (knn_fill_row full top i cols pred) i' j'.
Proof.
  intros H. eapply in_range_same_shape; [|exact H].
  apply same_shape_sym, knn_fill_row_shape.
Qed.

Lemma knn_fill_row_cell (full : list (list flt)) (top : list (nat * flt))
  (i j : nat) (cols : list nat) (pred : list (list flt)) :
  in_range pred i j ->
  In j cols \/ cell pred i j = knn_cell full top j ->
  cell (knn_fill_row full top i cols pred) i j = knn_cell full top j.
Proof.
  unfold knn_fill_row. revert pred.
  induction cols as [|c cols IH]; intros pred Hr Hj; cbn.
  - destruct Hj as [[]|Hj]. exact Hj.
  - apply IH; [now apply in_range_set_cell|].
    destruct (decide (c = j)) as [->|Hc].
    + right. now apply cell_set_cell_eq.
    + destruct Hj as [[Hj|Hj]|Hj]; [congruence|now left|right].
      rewrite cell_set_cell_ne by auto. exact Hj.
Qed.

Lemma knn_fill_row_other (full : list (list flt)) (top : list (nat * flt))
  (i i' j : nat) (cols : list nat) (pred : list (list flt)) :
  i <> i' -> cell (knn_fill_row full top i cols pred) i' j = cell pred i' j.
Proof.
  intros Hne. unfold knn_fill_row. revert pred.
  induction cols as [|c cols IH]; intros pred; cbn; [reflexivity|].
  rewrite IH. apply cell_set_cell_ne. now left.
Qed.

Lemma knn_fill_sim_row (full sim : list (list flt)) (k : option Z)
  (cols rows : list nat) (pred out : list (list flt)) (i : nat) :
  knn_fill full sim k cols rows pred = Ok out -> In i rows ->
  exists sim_row, sim !! i = Some sim_row.
Proof.
  revert pred. induction rows as [|a rows IH]; intros pred; cbn; [tauto|].
  destruct (sim !! a) as [sim_row|] eqn:Ea; [|discriminate].
  destruct (_ && _); [discriminate|].
  intros Hout [->|Hin]; [eauto|]. now apply (IH _ Hout).
Qed.

Lemma knn_fill_cell (full sim : list (list flt)) (k : option Z)
  (cols rows : list nat) (pred out : list (list flt)) (i j : nat)
  (sim_row : list flt) :
  sim !! i = Some sim_row ->
  knn_fill full sim k cols rows pred = Ok out ->
  in_range pred i j -> In j cols ->
  In i rows \/ cell pred i j = knn_cell full (top_subjects sim_row i k) j ->
  cell out i j = knn_cell full (top_subjects sim_row i k) j.
Proof.
  intros Hsim. revert pred.
  induction rows as [|a rows IH]; intros pred; cbn.
  - intros [= <-] _ _ [[]|H]. exact H.
  - destruct (sim !! a) as [row_a|] eqn:Ea; [|discriminate].
    destruct (_ && _); [discriminate|].
    intros Hout Hr Hj Hi.
    apply (IH _ Hout); [now apply knn_fill_row_in_range|exact Hj|].
    destruct (decide (a = i)) as [->|Ha].
    + right. rewrite Hsim in Ea. injection Ea as <-.
      apply knn_fill_row_cell; [exact Hr|now left].
    + destruct Hi as [[Hi|Hi]|Hi]; [congruence|now left|right].
      rewrite knn_fill_row_other by exact Ha. exact Hi.
Qed.

Lemma zip_with_map_map {A B C D} (f : B -> C -> D) (g : A -> B) (h : A -> C)
  (l : list A) :
  zip_with f (map g l) (map h l) = map (fun a => f (g a) (h a)) l.
Proof. induction l as [|a l IH]; cbn; [reflexivity|]. now rewrite IH. Qed.

(** The cell written for a subject is the sum of similarity times rating
    over the neighbours, over their number. *)
Lemma knn_cell_formula (full : list (list flt)) (top : list (nat * flt)) (j : nat) :
  knn_cell full top j =
  fdiv (np_sum (map (fun e => fmul (snd e) (cell full (fst e) j)) top))
       (of_nat (length top)).
Proof. unfold knn_cell, np_dot. now rewrite zip_with_map_map. Qed.

Lemma rect_same_shape {A B} (m : nat) (t : list (list A)) (u : list (list B)) :
  same_shape t u -> rect m u -> rect m t.
Proof.
  intros Hs Hu. apply Forall_lookup. intros i r Hr.
  destruct (same_shape_lookup t u i r Hs Hr) as (r' & Hr' & Hl).
  rewrite Hl. exact (rect_lookup m u i r' Hu Hr').
Qed.

Lemma rect_in_range {A} (m : nat) (t : list (list A)) (i j : nat) :
  rect m t -> (i < length t)%nat -> (j < m)%nat -> in_range t i j.
Proof.
  intros Hrect Hi Hj. destruct (lookup_lt_is_Some_2 t i Hi) as [r Hr].
  exists r. split; [exact Hr|]. now rewrite (rect_lookup m t i r Hrect Hr).
Qed.

Lemma rect_shape {A} (m : nat) (t : list (list A)) :
  rect m t -> (0 < length t)%nat -> snd (shape t) = m.
Proof.
  intros Hrect Hlen. destruct t as [|r t]; [cbn in Hlen; lia|].
  cbn. now apply Forall_cons in Hrect as [-> _].
Qed.

(** What [s.drop(label)] keeps of a similarity row. *)
Lemma drop_self_spec (self : nat) (r : list flt) (i : nat) (v : flt) :
  In (i, v) (drop_self self r) <-> i <> self /\ r !! i = Some v.
Proof.
  unfold drop_self. rewrite filter_In. cbn.
  rewrite negb_true_iff, Nat.eqb_neq.
  rewrite <- list_elem_of_In, list_elem_of_lookup.
  split.
  - intros [[n Hn] Hne]. split; [exact Hne|].
    rewrite list_lookup_imap in Hn.
    destruct (r !! n) as [x|] eqn:E; [|discriminate].
    cbn in Hn. injection Hn as <- <-. exact E.
  - intros [Hne Hr]. split; [|exact Hne].
    exists i. now rewrite list_lookup_imap, Hr.
Qed.

(** The prediction loop on the table [r] it iterates over. *)
Lemma knn_fill_predicts (full sim r pred : list (list flt)) (k : option Z)
  (ncols i j : nat) :
  rect ncols r -> (i < length r)%nat -> (j < ncols)%nat ->
  knn_fill full sim k (seq 0 (snd (shape r))) (seq 0 (length r))
           (map (map (fun _ : flt => of_Z 0)) r) = Ok pred ->
  exists sim_row,
    sim !! i = Some sim_row /\
    cell pred i j = knn_cell full (top_subjects sim_row i k) j.
Proof.
  intros Hrect Hi Hj Hfill.
  assert (Hin : In i (seq 0 (length r))) by (apply in_seq; lia).
  destruct (knn_fill_sim_row _ _ _ _ _ _ _ i Hfill Hin) as [sim_row Hsim].
  exists sim_row. split; [exact Hsim|].
  apply (knn_fill_cell _ _ _ _ _ _ _ i j sim_row Hsim Hfill).
  - eapply in_range_same_shape;
      [apply same_shape_sym, same_shape_map_map|].
    now apply (rect_in_range ncols).
  - rewrite (rect_shape ncols r Hrect) by lia. apply in_seq. lia.
  - now left.
Qed.




(** *** [KNN.predict] reads the held-out cells *)

(** C5.  With a square root that maps 1 to 1: [ratings_a] and [ratings_b]
    have the same cells wherever [mask_item0] is true and differ in one
    cell the mask excludes; [KNN] constructed on either with that mask,
    fitted with the cosine metric and asked to predict, returns in both
    cases, and the two predictions differ -- in the cell that takes the
    neighbour's held-out rating from the full ratings table. *)
Theorem KNN_predict_reads_held_out_cells (sqrtQ : Q -> Q) :
  sqrtQ 1%Q = 1%Q ->
  exists (R1 R2 : table) (mask : bmask) (metric : string) (p1 p2 : table),
    same_shape R1 R2 /\ same_shape mask R1 /\
    (forall i j, mcell mask i j = true -> cell R1 i j = cell R2 i j) /\
    R1 <> R2 /\
    (let run R := and_then (KNN_fit sqrtQ metric None (KNN_init R (Some mask)))
                           (KNN_predict None) in
     fst (run R1) = Ok tt /\ fst (run R2) = Ok tt /\
     predicted_ratings (base (snd (run R1))) = Some p1 /\
     predicted_ratings (base (snd (run R2))) = Some p2) /\
    p1 <> p2.
Proof.
  intros Hsqrt.
  exists ratings_a, ratings_b, mask_item0, "cosine"%string,
    [[q_ 1; q_ 7]; [q_ 1; q_ 5]], [[q_ 1; q_ 9]; [q_ 1; q_ 5]].
  split; [reflexivity|]. split; [reflexivity|]. split; [|split; [|split]].
  - intros [|[|i]] [|[|j]]; cbn; try discriminate; reflexivity.
  - discriminate.
  - cbn zeta. cbv -[np_sqrt]. rewrite !(np_sqrt_1 sqrtQ Hsqrt).
    repeat split; reflexivity.
  - discriminate.
Qed.

(** Witness of [KNN_predict_reads_held_out_cells]: [sqrt_floor] maps 1
    to 1. *)
Lemma KNN_predict_reads_held_out_cells_witness :
  sqrt_floor 1%Q = 1%Q /\
  exists (R1 R2 : table) (mask : bmask) (metric : string) (p1 p2 : table),
    same_shape R1 R2 /\ same_shape mask R1 /\
    (forall i j, mcell mask i j = true -> cell R1 i j = cell R2 i j) /\
    R1 <> R2 /\
    (let run R := and_then (KNN_fit sqrt_floor metric None (KNN_init R (Some mask)))
                           (KNN_predict None) in
     fst (run R1) = Ok tt /\ fst (run R2) = Ok tt /\
     predicted_ratings (base (snd (run R1))) = Some p1 /\
     predicted_ratings (base (snd (run R2))) = Some p2) /\
    p1 <> p2.
Proof.
  split; [reflexivity|].
  apply (KNN_predict_reads_held_out_cells sqrt_floor). reflexivity.
Defined.

(** *** What a failed [fit()] leaves behind *)

#[local] Instance core_eq_refl : Reflexive core_eq.
Proof. intros s. repeat split. Qed.

#[local] Instance core_eq_trans : Transitive core_eq.
Proof.
  intros a b c (H1 & H2 & H3 & H4 & H5 & H6 & H7) (K1 & K2 & K3 & K4 & K5 & K6 & K7).
  repeat split; congruence.
Qed.

#[local] Instance kept_refl (d : option nat) : Reflexive (kept d).
Proof. intros s. destruct d; cbn; reflexivity. Qed.

#[local] Instance kept_trans (d : option nat) : Transitive (kept d).
Proof.
  intros a b c. destruct d; cbn; [apply core_eq_trans|congruence].
Qed.

Lemma kept_core (d : option nat) (s s' : BaseCF) : kept d s s' -> core_eq s s'.
Proof. destruct d; cbn; [auto|intros ->; reflexivity]. Qed.

#[local] Instance model_rel_refl {T} `{Model T} {X}
  (Rb : BaseCF -> BaseCF -> Prop) `{!Reflexive Rb} (ext : T -> X) :
  Reflexive (model_rel Rb ext).
Proof. intros t. split; reflexivity. Qed.

#[local] Instance model_rel_trans {T} `{Model T} {X}
  (Rb : BaseCF -> BaseCF -> Prop) `{!Transitive Rb} (ext : T -> X) :
  Transitive (model_rel Rb ext).
Proof.
  intros a b c [H1 H2] [K1 K2]. split; [now transitivity (base b)|congruence].
Qed.

Section Preservation.

Context {S : Type} (R : S -> S -> Prop) `{!Reflexive R} `{!Transitive R}.

Lemma preserves_ret {A} (a : A) : preserves R (ret a).
Proof. intros s r s' [= <- <-]. reflexivity. Qed.

Lemma preserves_raise {A} (e : exn) : preserves R (@raise S A e).
Proof. intros s r s' [= <- <-]. reflexivity. Qed.

Lemma preserves_get : preserves R (@get S).
Proof. intros s r s' [= <- <-]. reflexivity. Qed.

Lemma preserves_lift {A} (r : result A) : preserves R (lift r).
Proof. intros s r' s' [= <- <-]. reflexivity. Qed.

Lemma preserves_modify (f : S -> S) :
  (forall s, R s (f s)) -> preserves R (modify f).
Proof. intros Hf s r s' [= <- <-]. apply Hf. Qed.

Lemma preserves_bind {A B} (m : M S A) (k : A -> M S B) :
  preserves R m -> (forall a, preserves R (k a)) -> preserves R (bind m k).
Proof.
  intros Hm Hk s r s'. unfold bind.
  destruct (m s) as [[a|e] s1] eqn:E.
  - intros Hka. transitivity s1; [exact (Hm _ _ _ E)|exact (Hk _ _ _ _ Hka)].
  - intros [= <- <-]. exact (Hm _ _ _ E).
Qed.

Lemma preserves_weaken {A} (m : M S A) :
  preserves R m -> preserves_on_raise R m.
Proof. intros Hm s e s' E. exact (Hm _ _ _ E). Qed.

Lemma preserves_on_raise_bind {A B} (m : M S A) (k : A -> M S B) :
  preserves R m -> (forall a, preserves_on_raise R (k a)) ->
  preserves_on_raise R (bind m k).
Proof.
  intros Hm Hk s e s'. unfold bind.
  destruct (m s) as [[a|e'] s1] eqn:E.
  - intros Hka. transitivity s1; [exact (Hm _ _ _ E)|exact (Hk _ _ _ _ Hka)].
  - intros [= <- <-]. exact (Hm _ _ _ E).
Qed.

Lemma never_raises_preserves_on_raise {A} (m : M S A) :
  never_raises m -> preserves_on_raise R m.
Proof.
  intros Hn s e s' E. destruct (Hn s) as [a Ha]. rewrite E in Ha. discriminate.
Qed.

End Preservation.

Lemma never_raises_modify {S} (f : S -> S) : never_raises (modify f).
Proof. intros s. now exists tt. Qed.

Lemma never_raises_on_base_modify {T} `{Model T} (f : BaseCF -> BaseCF) :
  never_raises (on_base (modify f)).
Proof. intros s. now exists tt. Qed.

Lemma never_raises_bind {S A B} (m : M S A) (k : A -> M S B) :
  never_raises m -> (forall a, never_raises (k a)) -> never_raises (bind m k).
Proof.
  intros Hm Hk s. unfold bind. destruct (Hm s) as [a Ha].
  destruct (m s) as [[a'|e] s1]; cbn in Ha; [|discriminate].
  apply Hk.
Qed.

(** A [BaseCF] method called on a model whose own attribute [ext] the base
    does not hold. *)
Lemma preserves_on_base {T} `{Model T} {A X} (Rb : BaseCF -> BaseCF -> Prop)
  (ext : T -> X) (m : M BaseCF A) :
  (forall b t, base (with_base b t) = b) ->
  (forall b t, ext (with_base b t) = ext t) ->
  preserves Rb m -> preserves (model_rel Rb ext) (on_base m).
Proof.
  intros Hb He Hm t r t'. unfold on_base. intros [= <- <-].
  split; [|apply He]. rewrite Hb.
  destruct (m (base t)) as [r b] eqn:E. exact (Hm _ _ _ E).
Qed.

(** The dilation replaces the masked ratings and the dilation state only. *)
Lemma dilate_preserves_core (n : option nat) :
  preserves core_eq (_dilate_ts_rating_samples n).
Proof.
  intros s r s'. unfold _dilate_ts_rating_samples.
  destruct n as [n|]; [|intros [= <- <-]; reflexivity].
  unfold bind, get, raise, lift, modify, ret.
  destruct (negb (is_mask s)); [intros [= <- <-]; reflexivity|].
  destruct (train_mask s) as [m|]; cbn [attr];
    [|intros [= <- <-]; reflexivity].
  repeat (destruct (_ && _); [intros [= <- <-]; repeat split|]).
  intros [= <- <-]. repeat split.
Qed.

(** The steps of a [fit()] one by one: those that touch the base of the
    instance are the dilation and, after it, the zeroing of the missing
    masked ratings; the others assign attributes of the model. *)
Ltac pres :=
  repeat first
    [ apply preserves_ret; typeclasses eauto
    | apply preserves_raise; typeclasses eauto
    | apply preserves_get; typeclasses eauto
    | apply preserves_lift; typeclasses eauto
    | lazymatch goal with
      | |- preserves (model_rel ?Rb ?ext) (on_base _) =>
          apply (preserves_on_base Rb ext);
          [ reflexivity | reflexivity
          | first [ apply dilate_preserves_core
                  | apply preserves_modify; intros ?; cbn [kept];
                    repeat split ] ]
      end
    | apply preserves_modify; intros ?; split; reflexivity
    | apply preserves_bind; [typeclasses eauto| |intros ?] ].

Ltac tail_returns :=
  apply never_raises_preserves_on_raise;
  repeat (apply never_raises_bind; [apply never_raises_modify|intros _]);
  apply never_raises_on_base_modify.

Lemma Mean_fit_failure (d : option nat) :
  preserves_on_raise (model_rel (kept d) mean) (Mean_fit d).
Proof.
  unfold Mean_fit.
  apply preserves_on_raise_bind; try typeclasses eauto; [pres|].
  intros t. apply preserves_on_raise_bind; try typeclasses eauto;
    [|intros mu; tail_returns].
  destruct (is_mask (base t)); [destruct d|]; pres.
Qed.

Lemma KNN_fit_failure (sqrtQ : Q -> Q) (metric : string) (d : option nat) :
  preserves_on_raise (model_rel (kept d) subject_similarity)
                     (KNN_fit sqrtQ metric d).
Proof.
  unfold KNN_fit.
  apply preserves_on_raise_bind; try typeclasses eauto; [pres|].
  intros t. apply preserves_on_raise_bind; try typeclasses eauto.
  { destruct (is_mask (base t)); pres. }
  intros r0. apply preserves_on_raise_bind; try typeclasses eauto.
  { destruct d; pres. }
  intros r. apply preserves_on_raise_bind; try typeclasses eauto; [pres|].
  intros sim. tail_returns.
Qed.

Lemma NNMF_sgd_fit_failure (nf : option nat) (p : sgd_params) (n : Z)
  (d : option nat) (nu ni : list (list flt)) (sh : list (list nat)) :
  preserves_on_raise (model_rel (kept d) (fun _ : NNMF_sgd => tt))
                     (NNMF_sgd_fit nf p n d nu ni sh).
Proof.
  unfold NNMF_sgd_fit.
  apply preserves_on_raise_bind; try typeclasses eauto; [pres|].
  intros t0. apply preserves_on_raise_bind; try typeclasses eauto.
  { destruct d; pres. }
  intros _. apply preserves_on_raise_bind; try typeclasses eauto; [pres|].
  intros t. apply preserves_on_raise_bind; try typeclasses eauto; [pres|].
  intros rsg. apply preserves_on_raise_bind; try typeclasses eauto; [pres|].
  intros _. destruct (_ =? _)%nat; [|tail_returns].
  apply preserves_weaken. pres.
Qed.

Lemma mult_setup_preserves (sqrtQ : Q -> Q) (nf d : option nat)
  (rh rw : list (list flt)) :
  preserves (model_rel (kept d) (fun _ : NNMF_multiplicative => tt))
            (mult_setup sqrtQ nf d rh rw).
Proof.
  unfold mult_setup.
  apply preserves_bind; try typeclasses eauto; [pres|].
  intros t.
  apply preserves_bind; try typeclasses eauto; [pres|]. intros _.
  apply preserves_bind; try typeclasses eauto; [pres|]. intros _.
  apply preserves_bind; try typeclasses eauto.
  - destruct (is_mask (base t)); [destruct d|]; pres.
  - intros xm. pres.
Qed.

Lemma NNMF_multiplicative_fit_failure (sqrtQ : Q -> Q) (fuel : nat)
  (nf : option nat) (mx : Z) (lim : flt) (d : option nat)
  (rh rw : list (list flt)) (t t' : NNMF_multiplicative) (e : exn) :
  NNMF_multiplicative_fit sqrtQ fuel nf mx lim d rh rw t = Some (Raise e, t') ->
  kept d (base t) (base t').
Proof.
  unfold NNMF_multiplicative_fit.
  destruct (mult_setup sqrtQ nf d rh rw t) as [[[[X mask] Xp]|e0] t1] eqn:E.
  - destruct (mult_setup_preserves sqrtQ nf d rh rw _ _ _ E) as [Hc _].
    destruct (mult_loop _ _ _ _ _ _ _ _ _ _ _) as [[[e1|] [w h]]|];
      [|discriminate|discriminate].
    intros [= <- <-]. exact Hc.
  - intros [= <- <-].
    now destruct (mult_setup_preserves sqrtQ nf d rh rw _ _ _ E) as [Hc _].
Qed.

Lemma failed_fit_kept (sqrtQ : Q -> Q) (c : fit_call) (e : exn) (m' : model) :
  run_fit sqrtQ c = Some (Raise e, m') ->
  kept (call_dilate c) (model_base (call_model c)) (model_base m') /\
  artefact_kept (call_model c) m'.
Proof.
  destruct c as [d t|metric d t|fuel nf mx lim d rh rw t|nf p n d nu ni sh t];
    cbn [run_fit call_model call_dilate model_base].
  - unfold tag. intros [= Hr <-].
    destruct (Mean_fit d t) as [r t'] eqn:E. cbn in Hr. subst r.
    exact (Mean_fit_failure d _ _ _ E).
  - unfold tag. intros [= Hr <-].
    destruct (KNN_fit sqrtQ metric d t) as [r t'] eqn:E. cbn in Hr. subst r.
    exact (KNN_fit_failure sqrtQ metric d _ _ _ E).
  - destruct (NNMF_multiplicative_fit _ _ _ _ _ _ _ _ _) as [[r t']|] eqn:E;
      [|discriminate].
    unfold tag. intros [= Hr <-]. cbn in Hr. subst r.
    split; [|exact I].
    exact (NNMF_multiplicative_fit_failure _ _ _ _ _ _ _ _ _ _ _ E).
  - unfold tag. intros [= Hr <-].
    destruct (NNMF_sgd_fit nf p n d nu ni sh t) as [r t'] eqn:E.
    cbn in Hr. subst r. split; [|exact I].
    now destruct (NNMF_sgd_fit_failure nf p n d nu ni sh _ _ _ E).
Qed.

(** C6, as amended.  For each of the four models, a [fit()] call that
    raises leaves the ratings, the train mask, [is_mask], [is_fit],
    [is_predict], the predictions and the train-item count as they were
    before the call -- [is_fit] stays false if it was -- and for [Mean] and
    [KNN] also the fit artefact held before.  When the call passed no
    [dilate_ts_n_samples], the masked ratings and the dilation state are as
    they were too: the whole of [BaseCF] is. *)
Theorem failed_fit_keeps_core (sqrtQ : Q -> Q) (c : fit_call) (e : exn)
  (m' : model) :
  run_fit sqrtQ c = Some (Raise e, m') ->
  core_eq (model_base (call_model c)) (model_base m') /\
  artefact_kept (call_model c) m' /\
  (call_dilate c = None -> model_base m' = model_base (call_model c)).
Proof.
  intros Hrun. destruct (failed_fit_kept sqrtQ c e m' Hrun) as [Hk Ha].
  split; [exact (kept_core _ _ _ Hk)|]. split; [exact Ha|].
  intros Hd. rewrite Hd in Hk. exact Hk.
Qed.

(** Witness of [failed_fit_keeps_core]: [KNN.fit('euclid', 3)] on the
    sparse series. *)
Lemma failed_fit_keeps_core_witness :
  core_eq (base (KNN_init ratings_sparse None))
          (base (snd (KNN_fit sqrt_floor "euclid" (Some 3%nat)
                        (KNN_init ratings_sparse None)))) /\
  subject_similarity (snd (KNN_fit sqrt_floor "euclid" (Some 3%nat)
                             (KNN_init ratings_sparse None))) = None.
Proof.
  destruct (failed_fit_keeps_core sqrt_floor
              (Call_KNN "euclid" (Some 3%nat) (KNN_init ratings_sparse None))
              (NotImplementedError "euclid")
              (A_KNN (snd (KNN_fit sqrt_floor "euclid" (Some 3%nat)
                             (KNN_init ratings_sparse None)))))
    as (Hc & Ha & _).
  - reflexivity.
  - split; [exact Hc|exact Ha].
Defined.

(** C6, counterexample.  [KNN.fit] with the unsupported metric 'euclid' and
    [dilate_ts_n_samples=3] on [ratings_sparse] (masked by its missing
    cells) raises the not-implemented error after the dilation: the masked
    ratings, the dilated mask and [is_mask_dilated] are no longer what they
    were. *)
Lemma KNN_fit_failure_keeps_the_dilation :
  let t := KNN_init ratings_sparse None in
  let out := KNN_fit sqrt_floor "euclid" (Some 3%nat) t in
  fst out = Raise (NotImplementedError "euclid") /\
  masked_ratings (base t) = Some ratings_sparse /\
  masked_ratings (base (snd out))
    = Some [[q_ 1; q_ 1; q_ 4; q_ 4]; [q_ 2; Fin (5 # 2); q_ 3; q_ 3]] /\
  dilated_mask (base t) = None /\
  dilated_mask (base (snd out))
    = Some [[true; true; true; true]; [true; true; true; true]] /\
  is_mask_dilated (base t) = false /\
  is_mask_dilated (base (snd out)) = true.
Proof. cbn zeta. repeat split; reflexivity. Qed.

(** *** Symmetry of the similarity matrix *)

Lemma zip_with_comm {A B} (f : A -> A -> B) (x y : list A) :
  (forall a b, f a b = f b a) -> zip_with f x y = zip_with f y x.
Proof.
  intros Hf. revert y. induction x as [|a x IH]; intros [|b y]; cbn;
    try reflexivity.
  now rewrite Hf, IH.
Qed.

Lemma np_dot_comm (x y : list flt) : np_dot x y = np_dot y x.
Proof. unfold np_dot. f_equal. apply zip_with_comm, fmul_comm. Qed.

Section Symmetry.

Variable sqrtQ : Q -> Q.

Lemma pearsonr_comm (x y : list flt) : pearsonr sqrtQ x y = pearsonr sqrtQ y x.
Proof.
  unfold pearsonr.
  rewrite (zip_with_comm fmul (centre x) (centre y) fmul_comm).
  now rewrite (fmul_comm (sum_of_squares (centre x))).
Qed.

Lemma spearmanr_comm (x y : list flt) :
  spearmanr sqrtQ x y = spearmanr sqrtQ y x.
Proof. unfold spearmanr. apply pearsonr_comm. Qed.

Lemma cosine_similarity_comm (x y : list flt) :
  cosine_similarity sqrtQ x y = cosine_similarity sqrtQ y x.
Proof.
  unfold cosine_similarity.
  now rewrite np_dot_comm, (fmul_comm (np_linalg_norm sqrtQ x)).
Qed.

Lemma zip_swap {A B} (x : list A) (y : list B) :
  zip y x = map (fun p => (snd p, fst p)) (zip x y).
Proof.
  revert y. induction x as [|a x IH]; intros [|b y]; cbn; try reflexivity.
  now rewrite IH.
Qed.

Lemma sum_pairs_ext {A} (f g : A -> A -> Z) (l : list A) :
  (forall a b, f a b = g a b) -> sum_pairs f l = sum_pairs g l.
Proof.
  intros E. induction l as [|a l IH]; cbn; [reflexivity|].
  rewrite IH. f_equal. clear IH.
  induction l as [|b l IHl]; cbn; [reflexivity|]. now rewrite E, IHl.
Qed.

Lemma sum_pairs_map {A B} (f : B -> B -> Z) (g : A -> B) (l : list A) :
  sum_pairs f (map g l) = sum_pairs (fun a b => f (g a) (g b)) l.
Proof.
  induction l as [|a l IH]; cbn; [reflexivity|].
  rewrite IH. f_equal.
  clear IH. induction l as [|b l IHl]; cbn; [reflexivity|]. now rewrite IHl.
Qed.

Lemma kendalltau_comm (x y : list flt) :
  kendalltau sqrtQ x y = kendalltau sqrtQ y x.
Proof.
  unfold kendalltau. rewrite (zip_swap x y), !sum_pairs_map. cbn [fst snd].
  rewrite orb_comm.
  rewrite (fmul_comm (of_Z (sum_pairs (fun _ _ => 1) (zip x y)
                            - sum_pairs (fun a b => if feqb a.2 b.2 then 1 else 0)
                                        (zip x y)))).
  rewrite (sum_pairs_ext
             (fun a b => sgn a.2 b.2 * sgn a.1 b.1)
             (fun a b => sgn a.1 b.1 * sgn a.2 b.2))
    by (intros; apply Z.mul_comm).
  reflexivity.
Qed.

(** The items two subjects have both rated do not depend on which of the
    two is named first. *)
Lemma both_present_swap (x y : list flt) :
  both_present y x = map (fun p => (snd p, fst p)) (both_present x y).
Proof.
  unfold both_present. rewrite (zip_swap x y).
  induction (zip x y) as [|[a b] l IH]; cbn; [reflexivity|].
  rewrite (andb_comm (negb (isnan b))).
  destruct (negb (isnan a) && negb (isnan b)); cbn; now rewrite IH.
Qed.

Lemma overlap_swap (x y : list flt) :
  overlap y x = (snd (overlap x y), fst (overlap x y)).
Proof.
  unfold overlap, dropna_pairs. rewrite both_present_swap, !map_map.
  reflexivity.
Qed.

Lemma cell_pairwise (f : list flt -> list flt -> flt) (t : list (list flt))
  (a b : nat) (x y : list flt) :
  t !! a = Some x -> t !! b = Some y ->
  cell (pairwise f t) a b = f (fst (overlap x y)) (snd (overlap x y)).
Proof.
  intros Ha Hb. unfold cell, pairwise.
  rewrite !map_fmap, list_lookup_fmap, Ha. cbn.
  now rewrite list_lookup_fmap, Hb.
Qed.

Lemma cell_pairwise_out (f : list flt -> list flt -> flt) (t : list (list flt))
  (a b : nat) :
  t !! a = None \/ t !! b = None -> cell (pairwise f t) a b = NaN.
Proof.
  intros H. unfold cell, pairwise.
  rewrite !map_fmap, list_lookup_fmap.
  destruct (t !! a) as [x|]; cbn; [|reflexivity].
  destruct H as [H|H]; [discriminate|].
  now rewrite list_lookup_fmap, H.
Qed.

Lemma pairwise_symmetric (f : list flt -> list flt -> flt) (t : list (list flt))
  (a b : nat) :
  (forall x y, f x y = f y x) ->
  cell (pairwise f t) a b = cell (pairwise f t) b a.
Proof.
  intros Hf.
  destruct (t !! a) as [x|] eqn:Ha; [destruct (t !! b) as [y|] eqn:Hb|].
  - rewrite (cell_pairwise f t a b x y Ha Hb), (cell_pairwise f t b a y x Hb Ha).
    rewrite (overlap_swap x y). cbn [fst snd]. apply Hf.
  - rewrite !cell_pairwise_out; auto.
  - rewrite !cell_pairwise_out; auto.
Qed.

(** The similarity matrix of every supported metric is symmetric. *)
Lemma similarity_symmetric (metric : string) (t sim : list (list flt))
  (a b : nat) :
  similarity sqrtQ metric t = Ok sim -> cell sim a b = cell sim b a.
Proof.
  unfold similarity.
  repeat (destruct (String.eqb metric _);
          [intros [= <-]; apply pairwise_symmetric;
           auto using pearsonr_comm, kendalltau_comm, spearmanr_comm,
                      cosine_similarity_comm|]).
  discriminate.
Qed.

(** Each of the five supported metrics is implemented. *)
Lemma similarity_supported (metric : string) (t : list (list flt)) :
  In metric ["pearson"; "spearman"; "kendall"; "correlation"; "cosine"]%string ->
  exists sim, similarity sqrtQ metric t = Ok sim.
Proof.
  intros [<-|[<-|[<-|[<-|[<-|[]]]]]]; cbn; eauto.
Qed.

Lemma KNN_fit_similarity (metric : string) (d : option nat) (t t' : KNN) :
  KNN_fit sqrtQ metric d t = (Ok tt, t') ->
  exists r sim,
    similarity sqrtQ metric r = Ok sim /\ subject_similarity t' = Some sim.
Proof.
  unfold KNN_fit, bind, get, ret, lift, modify.
  destruct (is_mask (base t)).
  - destruct (train_mask (base t)) as [tm|]; cbn [attr]; [|discriminate].
    destruct d as [n|].
    + destruct (on_base (_dilate_ts_rating_samples (Some n)) t)
        as [[dl|e] t1]; [|discriminate].
      destruct (dilated_mask (base t1)) as [dm|]; cbn [attr]; [|discriminate].
      destruct (similarity _ _ _) as [sim|e] eqn:Es; [|discriminate].
      intros [= <-]. eauto.
    + destruct (similarity _ _ _) as [sim|e] eqn:Es; [|discriminate].
      intros [= <-]. eauto.
  - destruct d as [n|].
    + destruct (on_base (_dilate_ts_rating_samples (Some n)) t)
        as [[dl|e] t1]; [|discriminate].
      destruct (dilated_mask (base t1)) as [dm|]; cbn [attr]; [|discriminate].
      destruct (similarity _ _ _) as [sim|e] eqn:Es; [|discriminate].
      intros [= <-]. eauto.
    + destruct (similarity _ _ _) as [sim|e] eqn:Es; [|discriminate].
      intros [= <-]. eauto.
Qed.

(** C10.  After a [KNN.fit] that returns -- as it does for each of the
    metrics pearson, spearman, kendall, correlation and cosine once the
    ratings to compare are there -- the subject similarity matrix is
    symmetric: the entry for subjects [a], [b] is the entry for [b], [a],
    both undefined if one is. *)
Theorem KNN_similarity_symmetric (metric : string) (d : option nat)
  (t t' : KNN) :
  KNN_fit sqrtQ metric d t = (Ok tt, t') ->
  exists sim,
    subject_similarity t' = Some sim /\
    forall a b, cell sim a b = cell sim b a.
Proof.
  intros Hfit.
  destruct (KNN_fit_similarity metric d t t' Hfit) as (r & sim & Hsim & Hs).
  exists sim. split; [exact Hs|].
  intros a b. exact (similarity_symmetric metric r sim a b Hsim).
Qed.

End Symmetry.

(** Witness of [KNN_similarity_symmetric]: the Pearson similarity of the
    dilated sparse series. *)
Lemma KNN_similarity_symmetric_witness :
  exists sim,
    subject_similarity (snd (KNN_fit sqrt_floor "pearson" (Some 3%nat)
                               (KNN_init ratings_sparse None))) = Some sim /\
    forall a b, cell sim a b = cell sim b a.
Proof.
  apply (KNN_similarity_symmetric sqrt_floor "pearson" (Some 3%nat)
           (KNN_init ratings_sparse None)).
  reflexivity.
Defined.

(** ** Further properties of the code *)

(** *** Sums and means of finite cells *)

Lemma fin_inject_Z (z : Z) : fin (inject_Z z) = of_Z z.
Proof.
  unfold fin, of_Z. f_equal. apply Qred_identity. cbn. apply Z.gcd_1_r.
Qed.

Lemma fadd_of_Z (a b : Z) : fadd (of_Z a) (of_Z b) = of_Z (a + b).
Proof.
  cbn [fadd of_Z]. rewrite <- inject_Z_plus. apply fin_inject_Z.
Qed.

(** A cell that arithmetic has normalised: adding zero leaves it alone. *)
Lemma fadd_zero_r (x y : flt) : fadd x y = fadd (fadd x y) (of_Z 0).
Proof.
  destruct x as [a| | |], y as [b| | |]; cbn; try reflexivity.
  unfold fin. f_equal. etransitivity; [symmetry; apply Qred_involutive|].
  apply Qred_complete. rewrite Qplus_0_r. reflexivity.
Qed.

Lemma fold_fadd_fill (w : list flt) (x y : flt) :
  Forall (fun c => rating_cell c = true) w ->
  fold_left fadd (map (fun c => if isnan c then of_Z 0 else c) w) (fadd x y)
  = fold_left fadd (List.filter (fun c => negb (isnan c)) w) (fadd x y).
Proof.
  intros Hw. revert x y. induction Hw as [|c w Hc Hw IH]; intros x y;
    [reflexivity|].
  cbn [map List.filter fold_left].
  destruct c as [q| | |]; cbn [isnan negb]; try discriminate.
  - cbn [fold_left]. apply IH.
  - rewrite <- fadd_zero_r. apply IH.
Qed.

(** Filling the missing cells with zeros does not change a sum. *)
Lemma np_sum_fill (w : list flt) :
  Forall (fun c => rating_cell c = true) w ->
  np_sum (map (fun c => if isnan c then of_Z 0 else c) w)
  = np_sum (List.filter (fun c => negb (isnan c)) w).
Proof.
  intros Hw. unfold np_sum.
  change (of_Z 0) with (fadd (of_Z 0) (of_Z 0)) at 2 3.
  now apply fold_fadd_fill.
Qed.

Lemma fold_fadd_count (w : list flt) (k : nat) :
  fold_left fadd (map (fun c => of_bool (negb (isnan c))) w) (of_nat k)
  = of_nat (k + length (List.filter (fun c => negb (isnan c)) w)).
Proof.
  revert k. induction w as [|c w IH]; intros k; cbn [map fold_left List.filter].
  - cbn. now rewrite Nat.add_0_r.
  - destruct (negb (isnan c)); cbn [of_bool length].
    + unfold of_nat at 1. rewrite fadd_of_Z.
      replace (Z.of_nat k + 1) with (Z.of_nat (S k)) by lia.
      fold (of_nat (S k)). rewrite IH. f_equal. lia.
    + unfold of_nat at 1. rewrite fadd_of_Z, Z.add_0_r. apply IH.
Qed.

(** Convolving the presence indicator counts the rated cells. *)
Lemma np_sum_count (w : list flt) :
  np_sum (map (fun c => of_bool (negb (isnan c))) w)
  = of_nat (length (List.filter (fun c => negb (isnan c)) w)).
Proof. exact (fold_fadd_count w 0). Qed.

Lemma conv_window_map {A B} (f : A -> B) (n i : nat) (a : list A) :
  firstn n (skipn (i - n / 2) (map f a)) = map f (firstn n (skipn (i - n / 2) a))
  /\ firstn (n - (n / 2 - i)) (map f a) = map f (firstn (n - (n / 2 - i)) a).
Proof. now rewrite skipn_map, !firstn_map. Qed.

Lemma conv_window_fmap (f : flt -> flt) (n i : nat) (a : list flt) :
  conv_window n i (map f a) = map f (conv_window n i a).
Proof.
  unfold conv_window. destruct (conv_window_map f n i a) as [H1 H2].
  destruct (n / 2 <=? i)%nat; assumption.
Qed.

Lemma lookup_map {A B} (f : A -> B) (l : list A) (i : nat) :
  map f l !! i = f <$> l !! i.
Proof. apply list_lookup_fmap. Qed.

Lemma of_nat_positive (k : nat) :
  feqb (of_nat (S k)) (of_Z 0) = false /\ fgeb (of_nat (S k)) (of_Z 1) = true.
Proof.
  unfold fgeb, feqb, fltb, of_nat, of_Z, Qltb, Qeq_bool. cbn [Qnum Qden inject_Z].
  split.
  - apply Z.eqb_neq. lia.
  - apply orb_true_iff.
    destruct (Z.eq_dec (Z.of_nat (S k)) 1) as [E|E].
    + right. apply Z.eqb_eq. lia.
    + left. apply Z.ltb_lt. lia.
Qed.

(** The two convolutions and the division, cell by cell. *)
Lemma conv_ts_mean_overlap_lookup (n : nat) (r : list flt) (i : nat) :
  (1 <= n <= length r)%nat ->
  Forall (fun c => rating_cell c = true) r ->
  (i < length r)%nat ->
  _conv_ts_mean_overlap n r !! i = Some (nanmean (conv_window n i r)).
Proof.
  intros Hn Hr Hi. unfold _conv_ts_mean_overlap, convolve_same_ones.
  rewrite lookup_zip_with, !list_lookup_imap, !lookup_map.
  destruct (lookup_lt_is_Some_2 r i Hi) as [x Hx]. rewrite Hx. cbn.
  f_equal. rewrite !conv_window_fmap.
  set (w := conv_window n i r).
  assert (Hw : Forall (fun c => rating_cell c = true) w).
  { unfold w, conv_window. destruct (n / 2 <=? i)%nat;
      auto using Forall_take, Forall_drop. }
  rewrite np_sum_count, (np_sum_fill w Hw).
  unfold nanmean, np_mean.
  destruct (length (List.filter (fun c => negb (isnan c)) w)) as [|k] eqn:Ek.
  - apply length_zero_iff_nil in Ek. rewrite Ek. reflexivity.
  - destruct (of_nat_positive k) as [-> ->]. reflexivity.
Qed.

(** X1.  On a row of finite or missing ratings, the dilation by [n]
    samples (1 <= n <= length of the row) writes into every cell the mean
    of the rated cells under the window of [n] samples centred on it, and
    the missing marker when the window holds no rated cell. *)
Theorem dilation_is_moving_average (n : nat) (r : list flt) (i : nat) :
  (1 <= n <= length r)%nat ->
  Forall (fun c => rating_cell c = true) r ->
  (i < length r)%nat ->
  _conv_ts_mean_overlap n r !! i = Some (nanmean (conv_window n i r)).
Proof.
  intros Hn Hr Hi. unfold _conv_ts_mean_overlap, convolve_same_ones.
  rewrite lookup_zip_with, !list_lookup_imap, !lookup_map.
  destruct (lookup_lt_is_Some_2 r i Hi) as [x Hx]. rewrite Hx. cbn.
  f_equal. rewrite !conv_window_fmap.
  set (w := conv_window n i r).
  assert (Hw : Forall (fun c => rating_cell c = true) w).
  { unfold w, conv_window. destruct (n / 2 <=? i)%nat;
      auto using Forall_take, Forall_drop. }
  rewrite np_sum_count, (np_sum_fill w Hw).
  unfold nanmean, np_mean.
  destruct (length (List.filter (fun c => negb (isnan c)) w)) as [|k] eqn:Ek.
  - apply length_zero_iff_nil in Ek. rewrite Ek. reflexivity.
  - destruct (of_nat_positive k) as [-> ->]. reflexivity.
Qed.

(** Witness of [dilation_is_moving_average]: the first subject of
    [ratings_sparse], window of three samples, third sample. *)
Lemma dilation_is_moving_average_witness :
  _conv_ts_mean_overlap 3 [q_ 1; NaN; NaN; q_ 4] !! 2%nat
  = Some (nanmean (conv_window 3 2 [q_ 1; NaN; NaN; q_ 4])).
Proof.
  apply dilation_is_moving_average.
  - cbn. lia.
  - repeat constructor.
  - cbn. lia.
Defined.

(** *** Dilation never loses a rated cell *)

Lemma conv_window_centre (n i : nat) (r : list flt) (x : flt) :
  (1 <= n)%nat -> r !! i = Some x -> x ∈ conv_window n i r.
Proof.
  intros Hn Hx. unfold conv_window.
  assert (Hh : (n / 2 < n)%nat) by (apply Nat.div_lt; lia).
  apply list_elem_of_lookup.
  destruct (n / 2 <=? i)%nat eqn:E.
  - apply Nat.leb_le in E. exists (n / 2)%nat.
    rewrite lookup_take_lt by exact Hh. rewrite lookup_drop.
    now replace (i - n / 2 + n / 2)%nat with i by lia.
  - apply Nat.leb_gt in E. exists i.
    rewrite lookup_take_lt by lia. exact Hx.
Qed.

Lemma fold_fadd_fin (w : list flt) (a : Q) :
  Forall (fun c => is_fin c = true) w ->
  is_fin (fold_left fadd w (Fin a)) = true.
Proof.
  intros Hw. revert a. induction Hw as [|c w Hc Hw IH]; intros a;
    [reflexivity|].
  destruct c as [q| | |]; try discriminate. cbn. apply IH.
Qed.

(** The mean of the rated cells is a finite value as soon as there is one. *)
Lemma nanmean_fin (w : list flt) (q : Q) :
  Forall (fun c => rating_cell c = true) w -> Fin q ∈ w ->
  is_fin (nanmean w) = true.
Proof.
  intros Hw Hin. unfold nanmean, np_mean.
  set (obs := List.filter (fun c => negb (isnan c)) w).
  assert (Hobs : Forall (fun c => is_fin c = true) obs).
  { apply Forall_forall. intros c Hc. apply list_elem_of_In in Hc.
    apply filter_In in Hc as [Hc Hn].
    rewrite Forall_forall in Hw. apply list_elem_of_In, Hw in Hc.
    unfold rating_cell in Hc. destruct c; cbn in *; congruence. }
  assert (Hne : (0 < length obs)%nat).
  { assert (Hq : In (Fin q) obs)
      by (apply filter_In; split; [now apply list_elem_of_In|reflexivity]).
    destruct obs; [destruct Hq|cbn; lia]. }
  pose proof (fold_fadd_fin obs 0 Hobs) as Hs.
  change (fold_left fadd obs (Fin 0)) with (np_sum obs) in Hs.
  destruct (np_sum obs) as [a| | |]; try discriminate.
  destruct (length obs) as [|k]; [lia|].
  unfold fdiv, of_nat, of_Z, Qzero. cbn [Qnum inject_Z].
  destruct (Z.of_nat (S k) =? 0) eqn:E; [apply Z.eqb_eq in E; lia|reflexivity].
Qed.

Lemma conv_length (n : nat) (r : list flt) :
  length (_conv_ts_mean_overlap n r) = length r.
Proof.
  unfold _conv_ts_mean_overlap, convolve_same_ones.
  rewrite length_zip_with, !length_imap, !length_map. lia.
Qed.

Lemma where_mask_lookup (t : list (list flt)) (m : list (list bool)) (i j : nat)
  (r : list flt) (x : flt) :
  t !! i = Some r -> r !! j = Some x ->
  exists r', where_mask t m !! i = Some r' /\
             r' !! j = Some (if mcell m i j then x else NaN).
Proof.
  intros Hr Hx. unfold where_mask.
  rewrite list_lookup_imap, Hr. cbn. eexists. split; [reflexivity|].
  now rewrite list_lookup_imap, Hx.
Qed.

Lemma where_mask_rating_table (t : list (list flt)) (m : list (list bool)) :
  rating_table t -> rating_table (where_mask t m).
Proof.
  unfold rating_table. rewrite !Forall_lookup. intros Ht i r' Hr'.
  unfold where_mask in Hr'. rewrite list_lookup_imap in Hr'.
  destruct (t !! i) as [r|] eqn:Hr; [|discriminate]. injection Hr' as <-.
  apply Forall_lookup. intros j x Hx. rewrite list_lookup_imap in Hx.
  destruct (r !! j) as [y|] eqn:Hy; [|discriminate]. injection Hx as <-.
  destruct (mcell m i j); [|reflexivity].
  specialize (Ht i r Hr). rewrite Forall_lookup in Ht. exact (Ht j y Hy).
Qed.

(** X2.  On a masked instance whose ratings are finite or missing, with
    [ncols] items per subject, the dilation by [1 <= n <= ncols] samples
    returns; it leaves masked ratings of the shape of the ratings, the
    dilated mask that marks their non-missing cells, and [is_mask_dilated]
    set.  Every cell that was rated and in the train mask is in the dilated
    mask: dilation only adds coverage.  Each cell of the new masked ratings
    is the mean of the rated training cells under its window. *)
Theorem dilation_keeps_coverage (s : BaseCF) (m : list (list bool))
  (n ncols : nat) :
  is_mask s = true -> train_mask s = Some m ->
  rect ncols (ratings s) -> rating_table (ratings s) ->
  (1 <= n <= ncols)%nat ->
  exists d,
    fst (_dilate_ts_rating_samples (Some n) s) = Ok d /\
    let s' := snd (_dilate_ts_rating_samples (Some n) s) in
    masked_ratings s' = Some d /\
    dilated_mask s' = Some (notnull d) /\
    is_mask_dilated s' = true /\
    same_shape d (ratings s) /\
    (forall i j r,
       where_mask (ratings s) m !! i = Some r -> (j < ncols)%nat ->
       cell d i j = nanmean (conv_window n j r)) /\
    (forall i j,
       mcell m i j = true -> is_fin (cell (ratings s) i j) = true ->
       mcell (notnull d) i j = true).
Proof.
  intros Hmask Htm Hrect Htable Hn.
  set (mr := where_mask (ratings s) m).
  assert (Hshape : same_shape mr (ratings s)) by apply where_mask_shape.
  assert (Hrect' : rect ncols mr) by now apply (rect_same_shape ncols mr (ratings s)).
  assert (Htable' : rating_table mr) by now apply where_mask_rating_table.
  assert (Hrun : _dilate_ts_rating_samples (Some n) s =
    (Ok (map (_conv_ts_mean_overlap n) mr),
     set_is_mask_dilated true
       (set_dilated_mask (Some (notnull (map (_conv_ts_mean_overlap n) mr)))
          (set_masked_ratings (Some (map (_conv_ts_mean_overlap n) mr))
             (set_masked_ratings (Some mr) s))))).
  { unfold _dilate_ts_rating_samples, bind, get, raise, lift, modify, ret.
    rewrite Hmask, Htm. cbn [negb attr]. fold mr.
    assert (Hc1 : negb (length mr =? 0)%nat
                  && ((n =? 0)%nat || (snd (shape mr) =? 0)%nat) = false).
    { destruct mr as [|r0 mr'] eqn:E; [reflexivity|]. cbn.
      apply Forall_cons in Hrect' as [-> _].
      apply orb_false_iff. split; apply Nat.eqb_neq; lia. }
    assert (Hc2 : negb (length mr =? 0)%nat && (snd (shape mr) <? n)%nat = false).
    { destruct mr as [|r0 mr'] eqn:E; [reflexivity|]. cbn.
      apply Forall_cons in Hrect' as [-> _]. apply Nat.ltb_ge. lia. }
    rewrite Hc1, Hc2. reflexivity. }
  exists (map (_conv_ts_mean_overlap n) mr). rewrite Hrun. cbn [fst snd].
  assert (Hcell : forall i j r, mr !! i = Some r -> (j < ncols)%nat ->
            cell (map (_conv_ts_mean_overlap n) mr) i j
            = nanmean (conv_window n j r)).
  { intros i j r Hr Hj. unfold cell. rewrite lookup_map, Hr. cbn.
    pose proof (rect_lookup ncols mr i r Hrect' Hr) as Hlen.
    rewrite conv_ts_mean_overlap_lookup; [reflexivity|lia| |lia].
    unfold rating_table in Htable'. rewrite Forall_lookup in Htable'. eauto. }
  split; [reflexivity|]. split; [reflexivity|]. split; [reflexivity|].
  split; [reflexivity|]. split; [|split].
  - eapply same_shape_trans; [|exact Hshape].
    apply same_shape_map, conv_length.
  - exact Hcell.
  - intros i j Hm Hfin.
    unfold cell in Hfin.
    destruct (ratings s !! i) as [r|] eqn:Hr; [|discriminate]. cbn in Hfin.
    destruct (r !! j) as [x|] eqn:Hx; [|discriminate]. cbn in Hfin.
    destruct x as [q| | |]; try discriminate.
    destruct (where_mask_lookup (ratings s) m i j r (Fin q) Hr Hx)
      as (r' & Hr' & Hx'). rewrite Hm in Hx'. fold mr in Hr'.
    assert (Hj : (j < ncols)%nat).
    { rewrite <- (rect_lookup ncols (ratings s) i r Hrect Hr).
      now apply lookup_lt_Some in Hx. }
    assert (Hd : is_fin (cell (map (_conv_ts_mean_overlap n) mr) i j) = true).
    { rewrite (Hcell i j r' Hr' Hj). apply (nanmean_fin _ q).
      - unfold conv_window. unfold rating_table in Htable'.
        rewrite Forall_lookup in Htable'. specialize (Htable' i r' Hr').
        destruct (n / 2 <=? j)%nat; auto using Forall_take, Forall_drop.
      - apply conv_window_centre; [lia|exact Hx']. }
    unfold cell in Hd. rewrite lookup_map, Hr' in Hd. cbn in Hd.
    unfold mcell, notnull. rewrite !lookup_map, Hr'. cbn.
    rewrite lookup_map.
    destruct (_conv_ts_mean_overlap n r' !! j) as [y|]; [|discriminate].
    cbn in Hd |- *. now destruct y.
Qed.

(** Witness of [dilation_keeps_coverage]: [ratings_sparse], masked by its
    missing cells, dilated by three samples. *)
Lemma dilation_keeps_coverage_witness :
  exists d,
    fst (_dilate_ts_rating_samples (Some 3%nat) (BaseCF_init ratings_sparse None))
      = Ok d /\
    same_shape d ratings_sparse.
Proof.
  destruct (dilation_keeps_coverage (BaseCF_init ratings_sparse None)
              (notnull ratings_sparse) 3 4)
    as (d & Hd & _ & _ & _ & Hs & _).
  - reflexivity.
  - reflexivity.
  - repeat constructor.
  - repeat constructor.
  - lia.
  - exists d. split; [exact Hd|exact Hs].
Defined.

(** *** Masking *)

Lemma where_mask_row (t : list (list flt)) (m : list (list bool)) (i : nat) :
  where_mask t m !! i
  = (fun r => imap (fun j x => if mcell m i j then x else NaN) r) <$> t !! i.
Proof. unfold where_mask. now rewrite list_lookup_imap. Qed.

(** X3.  Masking a table that is already masked by the same mask changes
    nothing, and the mask derived from the missing cells of a table leaves
    the table as it is: the re-masking in [Mean.fit] and [NNMF_sgd.fit]
    returns the masked ratings, and an instance built without a mask holds
    its ratings as masked ratings. *)
Theorem masking_is_idempotent (t : list (list flt)) (m : list (list bool)) :
  where_mask (where_mask t m) m = where_mask t m /\
  where_mask t (notnull t) = t.
Proof.
  split.
  - apply list_eq. intros i. rewrite !where_mask_row.
    destruct (t !! i) as [r|]; [|reflexivity]. cbn. f_equal.
    apply list_eq. intros j. rewrite !list_lookup_imap.
    destruct (r !! j) as [x|]; [|reflexivity]. cbn.
    now destruct (mcell m i j).
  - apply list_eq. intros i. rewrite where_mask_row.
    destruct (t !! i) as [r|] eqn:Hr; [|reflexivity]. cbn. f_equal.
    apply list_eq. intros j. rewrite list_lookup_imap.
    destruct (r !! j) as [x|] eqn:Hx; [|reflexivity]. cbn. f_equal.
    unfold mcell, notnull. rewrite lookup_map, Hr. cbn.
    rewrite lookup_map, Hx. cbn. now destruct x.
Qed.

(** *** Column means *)

Lemma col_means_lookup (t : list (list flt)) (j : nat) :
  (j < snd (shape t))%nat -> col_means t !! j = Some (nanmean (column t j)).
Proof.
  intros Hj. unfold col_means. rewrite lookup_map.
  now rewrite lookup_seq_lt.
Qed.

(** *** Overall error *)

Lemma fsq_fsub_self (a : Q) : fsq (fsub (Fin a) (Fin a)) = of_Z 0.
Proof.
  unfold fsub, fneg, fadd, fin.
  assert (E : Qred (a + Qred (- a)) = 0%Q).
  { change 0%Q with (Qred 0). apply Qred_complete.
    rewrite Qred_correct. apply Qplus_opp_r. }
  rewrite E. reflexivity.
Qed.

Lemma np_sum_zeros (l : list flt) :
  Forall (fun c => c = of_Z 0) l -> np_sum l = of_Z 0.
Proof.
  unfold np_sum. induction 1 as [|c l -> Hl IH]; [reflexivity|].
  cbn [fold_left]. exact IH.
Qed.

Lemma mean_sq_diff_self (l : list flt) :
  Forall (fun c => is_fin c = true) l -> (0 < length l)%nat ->
  mean_sq_diff l l = of_Z 0.
Proof.
  intros Hl Hlen. unfold mean_sq_diff, np_mean.
  rewrite np_sum_zeros.
  - rewrite length_zip_with, Nat.min_id.
    destruct (length l) as [|k]; [lia|].
    unfold fdiv, of_nat, of_Z, Qzero. cbn [Qnum inject_Z].
    destruct (Z.of_nat (S k) =? 0) eqn:E; [apply Z.eqb_eq in E; lia|].
    change (Fin (inject_Z 0)) with (fin 0). apply fin_eq.
    unfold Qdiv. apply Qmult_0_l.
  - clear Hlen. induction Hl as [|c l Hc Hl IH]; [constructor|].
    cbn. constructor; [|exact IH].
    destruct c as [a| | |]; try discriminate. apply fsq_fsub_self.
Qed.

(** X5.  On an unmasked instance that is fitted and predicted, whose
    prediction is the ratings table itself, with finite cells and at least
    one cell, [get_mse('all')] is 0. *)
Theorem get_mse_zero_on_exact_prediction (s : BaseCF) :
  is_fit s = true -> is_predict s = true -> is_mask s = false ->
  predicted_ratings s = Some (ratings s) ->
  Forall (Forall (fun c => is_fin c = true)) (ratings s) ->
  (0 < length (flatten (ratings s)))%nat ->
  get_mse "all" s = Ok (of_Z 0).
Proof.
  intros Hfit Hpred Hmask Hp Hfin Hlen.
  unfold get_mse, check_fit_predict, _retrieve_predictions.
  rewrite Hfit, Hpred, Hmask, Hp. cbn.
  rewrite mean_sq_diff_self; [reflexivity| |exact Hlen].
  unfold flatten. apply Forall_concat. exact Hfin.
Qed.

(** Witness of [get_mse_zero_on_exact_prediction]: [ratings_a] predicted
    exactly. *)
Lemma get_mse_zero_on_exact_prediction_witness :
  get_mse "all"
    (set_predicted_ratings (Some ratings_a)
       (set_is_predict true (set_is_fit true (BaseCF_init ratings_a None))))
  = Ok (of_Z 0).
Proof.
  apply get_mse_zero_on_exact_prediction; try reflexivity.
  - repeat constructor.
  - cbn. lia.
Defined.

(** *** Data selections *)

Lemma select_row_missing (r : list flt) :
  Forall (fun c => isnan c = true)
         (select_row r (map negb (map (fun x => negb (isnan x)) r))).
Proof.
  unfold select_row. induction r as [|c r IH]; cbn; [constructor|].
  destruct c; cbn; try exact IH. constructor; [reflexivity|exact IH].
Qed.

Lemma select_held_out_of_derived_mask (t : list (list flt)) :
  exists l, select t (invert (notnull t)) = Ok l /\ forallb isnan l = true.
Proof.
  unfold select, same_shapeb, invert, notnull.
  rewrite bool_decide_eq_true_2.
  - eexists. split; [reflexivity|].
    apply forallb_forall. intros c Hc. apply in_concat in Hc as (l & Hl & Hc).
    revert l Hl Hc. induction t as [|r t IH]; cbn; [tauto|].
    intros l [<-|Hl] Hc.
    + pose proof (select_row_missing r) as Hr.
      rewrite Forall_forall in Hr. apply Hr. now apply list_elem_of_In.
    + now apply (IH l).
  - rewrite !map_map. apply map_ext. intros r. now rewrite !length_map.
Qed.

Lemma select_same_shape_ok (t : list (list flt)) (m : list (list bool)) :
  same_shape t m -> exists l, select t m = Ok l.
Proof.
  intros Hs. unfold select, same_shapeb.
  rewrite bool_decide_eq_true_2 by exact Hs. eauto.
Qed.

(** X6.  On a fitted and predicted instance whose train mask is the one
    derived from the missing cells of the ratings (no mask was supplied and
    no split was made), the held-out cells are exactly the missing ones:
    the 'test' selection has no data and [get_mse('test')] raises the
    no-test-data error. *)
Theorem test_selection_of_derived_mask_is_empty (s : BaseCF)
  (p : list (list flt)) :
  is_fit s = true -> is_predict s = true -> is_mask s = true ->
  train_mask s = Some (notnull (ratings s)) ->
  predicted_ratings s = Some p -> same_shape p (ratings s) ->
  _retrieve_predictions "test" s = Raise no_test_data_error /\
  get_mse "test" s = Raise no_test_data_error.
Proof.
  intros Hfit Hpred Hmask Htm Hp Hs.
  assert (Hr : _retrieve_predictions "test" s = Raise no_test_data_error).
  { unfold _retrieve_predictions. rewrite Hmask, Htm, Hp. cbn.
    destruct (select_held_out_of_derived_mask (ratings s)) as (l & -> & Hl).
    cbn.
    destruct (select_same_shape_ok p (invert (notnull (ratings s)))) as [l' ->].
    { eapply same_shape_trans; [exact Hs|].
      unfold same_shape, invert, notnull. rewrite !map_map.
      apply map_ext. intros r. now rewrite !length_map. }
    cbn. now rewrite Hl. }
  split; [exact Hr|].
  unfold get_mse, check_fit_predict. rewrite Hfit, Hpred, Hr. reflexivity.
Qed.

(** Witness of [test_selection_of_derived_mask_is_empty]: [Mean] on
    [ratings_uneven], masked by its missing cell. *)
Lemma test_selection_of_derived_mask_is_empty_witness :
  get_mse "test"
    (base (snd (and_then (Mean_fit None (Mean_init ratings_uneven None))
                         Mean_predict)))
  = Raise no_test_data_error.
Proof.
  apply (test_selection_of_derived_mask_is_empty _ [[q_ 2; q_ 5]; [q_ 2; q_ 5]]);
    reflexivity.
Defined.

(** X7.  The per-subject accessors do not check the selector: on a masked
    instance every [data] other than 'all' and 'training' is taken for
    'test', where [get_mse] on a fitted and predicted instance raises the
    invalid-selector error for every [data] outside the three names. *)
Theorem sub_accessors_take_any_selector (sqrtQ : Q -> Q) (data : string)
  (s : BaseCF) :
  data <> "all"%string -> data <> "training"%string -> data <> "test"%string ->
  is_fit s = true -> is_predict s = true ->
  get_sub_mse data s = get_sub_mse "test" s /\
  get_sub_corr sqrtQ data s = get_sub_corr sqrtQ "test" s /\
  get_mse data s = Raise (ValueError msg_data) /\
  get_corr sqrtQ data s = Raise (ValueError msg_data).
Proof.
  intros Hall Htrain Htest Hfit Hpred.
  apply String.eqb_neq in Hall, Htrain, Htest.
  assert (Hsub : sub_pairs data s = sub_pairs "test" s).
  { unfold sub_pairs. rewrite Hall, Htrain. reflexivity. }
  assert (Hret : _retrieve_predictions data s = Raise (ValueError msg_data)).
  { unfold _retrieve_predictions. cbn [existsb].
    now rewrite Hall, Htrain, Htest. }
  unfold get_sub_mse, get_sub_corr, get_mse, get_corr, check_fit_predict.
  rewrite Hfit, Hpred, Hsub, Hret. cbn. auto.
Qed.

(** Witness of [sub_accessors_take_any_selector]: the selector 'held_out'
    on [Mean] fitted on [ratings_3x2] under [mask_3x2]. *)
Lemma sub_accessors_take_any_selector_witness :
  let s := base (snd (and_then (Mean_fit None (Mean_init ratings_3x2 (Some mask_3x2)))
                               Mean_predict)) in
  get_sub_mse "held_out" s = get_sub_mse "test" s /\
  get_mse "held_out" s = Raise (ValueError msg_data).
Proof.
  cbn zeta.
  destruct (sub_accessors_take_any_selector sqrt_floor "held_out"
              (base (snd (and_then (Mean_fit None (Mean_init ratings_3x2 (Some mask_3x2)))
                                   Mean_predict))))
    as (H1 & _ & H2 & _); try discriminate; try reflexivity.
  split; [exact H1|exact H2].
Defined.

(** *** A split that asks for too many items *)

(** X8.  With at least one subject and more train items asked for than
    there are items, [split_train_test] raises; by then it has recorded the
    count and replaced the train mask by an all-false one, while the masked
    ratings and [is_mask] are still those of before the call. *)
Theorem split_train_test_too_many (s : BaseCF) (k ncols : nat)
  (draws : list (list nat)) :
  rect ncols (ratings s) -> (0 < length (ratings s))%nat -> (ncols < k)%nat ->
  let out := split_train_test k draws s in
  fst out = Raise (ValueError msg_choice) /\
  train_mask (snd out) = Some (zeros_like (ratings s)) /\
  n_train_items (snd out) = Some k /\
  masked_ratings (snd out) = masked_ratings s /\
  is_mask (snd out) = is_mask s /\
  ratings (snd out) = ratings s.
Proof.
  intros Hrect Hlen Hk. cbn zeta.
  unfold split_train_test, bind, get, modify, raise.
  assert (Hc : negb (length (ratings s) =? 0)%nat
               && (snd (shape (ratings s)) <? k)%nat = true).
  { rewrite (rect_shape ncols _ Hrect Hlen).
    apply andb_true_iff. split.
    - apply negb_true_iff, Nat.eqb_neq. lia.
    - now apply Nat.ltb_lt. }
  rewrite Hc. cbn. auto 10.
Qed.

(** Witness of [split_train_test_too_many]: three train items out of the
    two of [ratings_3x2]. *)
Lemma split_train_test_too_many_witness :
  fst (split_train_test 3 [] (BaseCF_init ratings_3x2 (Some mask_3x2)))
    = Raise (ValueError msg_choice) /\
  train_mask (snd (split_train_test 3 [] (BaseCF_init ratings_3x2 (Some mask_3x2))))
    = Some (zeros_like ratings_3x2).
Proof.
  destruct (split_train_test_too_many (BaseCF_init ratings_3x2 (Some mask_3x2)) 3 2 [])
    as (H1 & H2 & _).
  - repeat constructor.
  - cbn. lia.
  - lia.
  - split; [exact H1|exact H2].
Defined.

(** *** More on [KNN.predict] *)

(** What [KNN.predict] runs: the loop over the masked ratings (or the
    ratings of an unmasked instance), writing into a table of zeros. *)
Lemma KNN_predict_run (k : option Z) (t : KNN) (r sim : list (list flt)) :
  is_fit (base t) = true ->
  (if is_mask (base t) then masked_ratings (base t) = Some r
   else r = ratings (base t)) ->
  subject_similarity t = Some sim ->
  KNN_predict k t =
  match knn_fill (ratings (base t)) sim k (seq 0 (snd (shape r)))
                 (seq 0 (length r)) (map (map (fun _ : flt => of_Z 0)) r) with
  | Ok pred =>
      (Ok tt, with_base (set_is_predict true
                           (set_predicted_ratings (Some pred) (base t))) t)
  | Raise e => (Raise e, t)
  end.
Proof.
  intros Hfit Hr Hsim.
  unfold KNN_predict, bind, get, raise, on_base, modify, lift, ret.
  rewrite Hfit. cbn [negb fst snd].
  destruct (is_mask (base t)).
  - rewrite Hr, Hsim. cbn [attr fst snd].
    destruct (knn_fill _ _ _ _ _ _); reflexivity.
  - subst r. rewrite Hsim. cbn [attr fst snd].
    destruct (knn_fill _ _ _ _ _ _); reflexivity.
Qed.

(** X9.  [KNN.predict(k=0)] keeps no neighbour: on a fitted instance whose
    tables have [ncols] items per subject, if it returns, every cell of the
    prediction is missing (0 divided by 0 neighbours). *)
Theorem KNN_predict_without_neighbours (t t' : KNN) (ncols i j : nat) :
  masked_shape_ok (base t) ->
  rect ncols (ratings (base t)) ->
  (i < length (ratings (base t)))%nat -> (j < ncols)%nat ->
  KNN_predict (Some 0) t = (Ok tt, t') ->
  exists p, predicted_ratings (base t') = Some p /\ cell p i j = NaN.
Proof.
  intros Hwf Hrect Hi Hj Hrun.
  assert (Hfit : is_fit (base t) = true).
  { destruct (is_fit (base t)) eqn:E; [reflexivity|].
    rewrite (predict_guarded_KNN (Some 0) t E) in Hrun. discriminate. }
  assert (Hsim : exists sim, subject_similarity t = Some sim).
  { destruct (subject_similarity t) as [sim|] eqn:E; [eauto|].
    revert Hrun. unfold KNN_predict, bind, get, raise, on_base, modify, lift, ret.
    rewrite Hfit, E. cbn [negb].
    destruct (is_mask (base t)); [destruct (masked_ratings (base t))|];
      cbn; discriminate. }
  destruct Hsim as [sim Hsim].
  assert (Hr : exists r, (if is_mask (base t) then masked_ratings (base t) = Some r
                          else r = ratings (base t))
                         /\ same_shape r (ratings (base t))).
  { destruct (is_mask (base t)) eqn:Em.
    - destruct (Hwf Em) as (mr & Hmr & Hs). eauto.
    - exists (ratings (base t)). split; reflexivity. }
  destruct Hr as (r & Hr & Hs).
  rewrite (KNN_predict_run (Some 0) t r sim Hfit Hr Hsim) in Hrun.
  destruct (knn_fill _ _ _ _ _ _) as [pred|e] eqn:Ef; [|discriminate].
  injection Hrun as <-. exists pred. split; [reflexivity|].
  destruct (knn_fill_predicts (ratings (base t)) sim r pred (Some 0) ncols i j)
    as (sim_row & _ & Hc); auto.
  - now apply (rect_same_shape ncols r (ratings (base t))).
  - now rewrite (same_shape_length _ _ Hs).
Qed.

(** Witness of [KNN_predict_without_neighbours]: cosine similarity on
    [ratings_a] under [mask_item0]. *)
Lemma KNN_predict_without_neighbours_witness :
  exists p,
    predicted_ratings
      (base (snd (KNN_predict (Some 0)
                    (snd (KNN_fit sqrt_floor "cosine" None
                            (KNN_init ratings_a (Some mask_item0))))))) = Some p /\
    cell p 0 1 = NaN.
Proof.
  apply (KNN_predict_without_neighbours
           (snd (KNN_fit sqrt_floor "cosine" None
                   (KNN_init ratings_a (Some mask_item0))))
           _ 2 0 1).
  - intros _. eexists. split; reflexivity.
  - repeat constructor.
  - cbn. lia.
  - lia.
  - reflexivity.
Defined.

Lemma zeros_same_shape {A B} (c : flt) (r : list (list A)) (r' : list (list B)) :
  same_shape r r' ->
  map (map (fun _ => c)) r = map (map (fun _ => c)) r'.
Proof.
  unfold same_shape. revert r'.
  induction r as [|x r IH]; intros [|x' r']; cbn; try discriminate;
    [reflexivity|].
  intros [= Hx Hr]. f_equal; [|now apply IH].
  clear -Hx. revert x' Hx.
  induction x as [|a x IHx]; intros [|a' x']; cbn; try discriminate;
    [reflexivity|].
  intros [= Hx]. f_equal. now apply IHx.
Qed.

Lemma shape_same_shape {A B} (r : list (list A)) (r' : list (list B)) :
  same_shape r r' -> shape r = shape r'.
Proof.
  unfold same_shape, shape.
  destruct r as [|x r], r' as [|x' r']; cbn; try discriminate; [reflexivity|].
  intros [= Hx Hr]. f_equal; [|exact Hx].
  f_equal. apply (f_equal (@length nat)) in Hr. now rewrite !length_map in Hr.
Qed.

(** X10.  The values of the masked ratings never enter the prediction of
    [KNN], only their shape does: two fitted, masked instances with the
    same ratings, the same similarity matrix and masked ratings of one
    shape end [predict(k)] the same way and with the same prediction. *)
Theorem KNN_predict_ignores_masked_values (k : option Z) (t1 t2 : KNN)
  (mr1 mr2 sim : list (list flt)) :
  is_fit (base t1) = true -> is_fit (base t2) = true ->
  is_mask (base t1) = true -> is_mask (base t2) = true ->
  ratings (base t1) = ratings (base t2) ->
  subject_similarity t1 = Some sim -> subject_similarity t2 = Some sim ->
  masked_ratings (base t1) = Some mr1 -> masked_ratings (base t2) = Some mr2 ->
  same_shape mr1 mr2 ->
  predicted_ratings (base t1) = predicted_ratings (base t2) ->
  fst (KNN_predict k t1) = fst (KNN_predict k t2) /\
  predicted_ratings (base (snd (KNN_predict k t1)))
  = predicted_ratings (base (snd (KNN_predict k t2))).
Proof.
  intros Hf1 Hf2 Hm1 Hm2 Hr Hs1 Hs2 Hmr1 Hmr2 Hshape Hp.
  rewrite (KNN_predict_run k t1 mr1 sim Hf1) by (rewrite ?Hm1; auto).
  rewrite (KNN_predict_run k t2 mr2 sim Hf2) by (rewrite ?Hm2; auto).
  rewrite Hr, (zeros_same_shape (of_Z 0) mr1 mr2 Hshape),
    (shape_same_shape mr1 mr2 Hshape), (same_shape_length mr1 mr2 Hshape).
  destruct (knn_fill _ _ _ _ _ _); cbn; auto.
Qed.

(** Witness of [KNN_predict_ignores_masked_values]: the masked ratings of
    the fitted instance replaced by a table of zeros. *)
Lemma KNN_predict_ignores_masked_values_witness :
  let t1 := snd (KNN_fit sqrt_floor "cosine" None
                   (KNN_init ratings_a (Some mask_item0))) in
  let t2 := with_base (set_masked_ratings
                         (Some [[q_ 0; q_ 0]; [q_ 0; q_ 0]]) (base t1)) t1 in
  predicted_ratings (base (snd (KNN_predict None t1)))
  = predicted_ratings (base (snd (KNN_predict None t2))).
Proof.
  cbn zeta.
  apply (KNN_predict_ignores_masked_values None _ _
           [[q_ 1; NaN]; [q_ 1; NaN]] [[q_ 0; q_ 0]; [q_ 0; q_ 0]]
           [[q_ 1; q_ 1]; [q_ 1; q_ 1]]); reflexivity.
Defined.

(** *** More on [NNMF_sgd] *)

Lemma sgd_fill_row_cell (f : nat -> nat -> flt) (u i : nat) (cols : list nat)
  (pred : list (list flt)) :
  in_range pred u i ->
  In i cols \/ cell pred u i = f u i ->
  cell (fold_left (fun p i => set_cell p u i (f u i)) cols pred) u i = f u i.
Proof.
  revert pred.
  induction cols as [|c cols IH]; intros pred Hr Hi; cbn.
  - destruct Hi as [[]|Hi]. exact Hi.
  - apply IH; [now apply in_range_set_cell|].
    destruct (decide (c = i)) as [->|Hc].
    + right. now apply cell_set_cell_eq.
    + destruct Hi as [[Hi|Hi]|Hi]; [congruence|now left|right].
      rewrite cell_set_cell_ne; [exact Hi|now right].
Qed.

Lemma sgd_fill_row_other (f : nat -> nat -> flt) (u u' i : nat)
  (cols : list nat) (pred : list (list flt)) :
  u <> u' ->
  cell (fold_left (fun p i => set_cell p u i (f u i)) cols pred) u' i
  = cell pred u' i.
Proof.
  intros Hne. revert pred.
  induction cols as [|c cols IH]; intros pred; cbn; [reflexivity|].
  rewrite IH. apply cell_set_cell_ne. now left.
Qed.

Lemma sgd_fill_row_in_range (f : nat -> nat -> flt) (u u' i : nat)
  (cols : list nat) (pred : list (list flt)) :
  in_range pred u' i ->
  in_range (fold_left (fun p i => set_cell p u i (f u i)) cols pred) u' i.
Proof.
  revert pred.
  induction cols as [|c cols IH]; intros pred Hr; cbn; [exact Hr|].
  apply IH. now apply in_range_set_cell.
Qed.

Lemma sgd_fill_rows_cell (f : nat -> nat -> flt) (u i : nat)
  (rows cols : list nat) (pred : list (list flt)) :
  in_range pred u i -> In i cols ->
  In u rows \/ cell pred u i = f u i ->
  cell (fold_left (fun p u =>
                     fold_left (fun p i => set_cell p u i (f u i)) cols p)
                  rows pred) u i = f u i.
Proof.
  intros Hr Hi. revert pred Hr.
  induction rows as [|c rows IH]; intros pred Hr Hu; cbn.
  - destruct Hu as [[]|Hu]. exact Hu.
  - apply IH; [now apply sgd_fill_row_in_range|].
    destruct (decide (c = u)) as [->|Hc].
    + right. apply sgd_fill_row_cell; auto.
    + destruct Hu as [[Hu|Hu]|Hu]; [congruence|now left|right].
      now rewrite sgd_fill_row_other.
Qed.

Lemma iloc_row_in_range (f : nat -> nat -> flt) (u : nat) (cols : list nat)
  (pred : list (list flt)) :
  (forall i, In i cols -> in_range pred u i) ->
  for_each cols (fun i => iloc_set u i (f u i)) pred
  = (Ok tt, fold_left (fun p i => set_cell p u i (f u i)) cols pred).
Proof.
  revert pred. induction cols as [|c cols IH]; intros pred Hr; [reflexivity|].
  cbn [for_each fold_left]. unfold bind.
  destruct (Hr c (or_introl eq_refl)) as (r & Hrow & Hc).
  unfold iloc_set at 1. rewrite Hrow.
  destruct (Nat.ltb_spec c (length r)) as [_|H]; [|lia].
  apply IH. intros i Hi. apply in_range_set_cell, Hr. now right.
Qed.

Lemma iloc_rows_in_range (f : nat -> nat -> flt) (rows cols : list nat)
  (pred : list (list flt)) :
  (forall u i, In u rows -> In i cols -> in_range pred u i) ->
  for_each rows (fun u => for_each cols (fun i => iloc_set u i (f u i))) pred
  = (Ok tt,
     fold_left (fun p u =>
                  fold_left (fun p i => set_cell p u i (f u i)) cols p)
               rows pred).
Proof.
  revert pred. induction rows as [|c rows IH]; intros pred Hr; [reflexivity|].
  cbn [for_each fold_left]. unfold bind.
  rewrite iloc_row_in_range by (intros i Hi; apply Hr; [now left|exact Hi]).
  apply IH. intros u i Hu Hi. apply sgd_fill_row_in_range, Hr; [now right|exact Hi].
Qed.

(** With every position inside the table the loops run to the end and
    each cell holds the prediction for it. *)
Lemma sgd_fill_cell (gb : flt) (w : weights) (pred : list (list flt))
  (u i : nat) :
  (forall u' i', (u' < length (w_user_vecs w))%nat ->
                 (i' < length (w_item_vecs w))%nat -> in_range pred u' i') ->
  (u < length (w_user_vecs w))%nat -> (i < length (w_item_vecs w))%nat ->
  fst (sgd_fill gb w pred) = Ok tt /\
  cell (snd (sgd_fill gb w pred)) u i = predict_single gb w u i.
Proof.
  intros Hr Hu Hi. unfold sgd_fill.
  rewrite (iloc_rows_in_range (predict_single gb w)).
  2:{ intros u' i' Hu' Hi'. apply in_seq in Hu', Hi'. apply Hr; lia. }
  split; [reflexivity|]. cbn [snd].
  apply (sgd_fill_rows_cell (predict_single gb w)); auto.
  - apply in_seq. lia.
  - left. apply in_seq. lia.
Qed.

(** X11.  [NNMF_sgd.predict] with all five fitted attributes present, one
    latent vector per subject and per item: it returns, the prediction has
    the shape of the ratings, and every cell [(u, i)], observed or not, is
    [global_bias + user_bias[u] + item_bias[i] + user_vecs[u] . item_vecs[i]]. *)
Theorem NNMF_sgd_predict_formula (t : NNMF_sgd) (uv iv : list (list flt))
  (gb : flt) (ub ib : list flt) (ncols u i : nat) :
  user_vecs t = Some uv -> item_vecs t = Some iv ->
  global_bias t = Some gb ->
  user_bias t = Some ub -> item_bias t = Some ib ->
  rect ncols (ratings (base t)) ->
  length uv = length (ratings (base t)) -> length iv = ncols ->
  (u < length (ratings (base t)))%nat -> (i < ncols)%nat ->
  exists p,
    fst (NNMF_sgd_predict t) = Ok tt /\
    predicted_ratings (base (snd (NNMF_sgd_predict t))) = Some p /\
    is_predict (base (snd (NNMF_sgd_predict t))) = true /\
    same_shape p (ratings (base t)) /\
    cell p u i = fadd (fadd (fadd gb (at_ ub u)) (at_ ib i))
                      (np_dot (vec uv u) (vec iv i)).
Proof.
  intros Huv Hiv Hgb Hub Hib Hrect Hlu Hli Hu Hi.
  set (w := {| w_user_vecs := uv; w_item_vecs := iv;
               w_user_bias := ub; w_item_bias := ib |}).
  exists (snd (sgd_fill gb w (ratings (base t)))).
  destruct (sgd_fill_cell gb w (ratings (base t)) u i) as [Hok Hcell];
    [|cbn; lia|cbn; lia|].
  { intros u' i' Hu' Hi'. cbn in Hu', Hi'.
    apply (rect_in_range ncols); [exact Hrect|lia|lia]. }
  unfold NNMF_sgd_predict, bind, get, on_base, modify, lift, ret.
  rewrite Huv, Hiv, Hgb, Hub, Hib. cbn [attr fst snd].
  fold w. rewrite Hok. cbn [fst snd].
  repeat split; try reflexivity.
  - apply sgd_fill_shape.
  - exact Hcell.
Qed.

Lemma sgd_step_other_user (p : sgd_params) (gb : flt) (r : list (list flt))
  (w : weights) (ui : nat * nat) (u : nat) :
  fst ui <> u ->
  w_user_vecs (sgd_step p gb r w ui) !! u = w_user_vecs w !! u /\
  w_user_bias (sgd_step p gb r w ui) !! u = w_user_bias w !! u.
Proof.
  intros Hne. unfold sgd_step. cbn [w_user_vecs w_user_bias].
  now rewrite !list_lookup_insert_ne.
Qed.

Lemma sgd_step_other_item (p : sgd_params) (gb : flt) (r : list (list flt))
  (w : weights) (ui : nat * nat) (i : nat) :
  snd ui <> i ->
  w_item_vecs (sgd_step p gb r w ui) !! i = w_item_vecs w !! i /\
  w_item_bias (sgd_step p gb r w ui) !! i = w_item_bias w !! i.
Proof.
  intros Hne. unfold sgd_step. cbn [w_item_vecs w_item_bias].
  now rewrite !list_lookup_insert_ne.
Qed.

Lemma sgd_epoch_other_user (p : sgd_params) (gb : flt) (r : list (list flt))
  (samples : list (nat * nat)) (order : list nat) (w : weights) (u : nat) :
  Forall (fun ui => fst ui <> u) samples ->
  w_user_vecs (sgd_epoch p gb r samples w order) !! u = w_user_vecs w !! u /\
  w_user_bias (sgd_epoch p gb r samples w order) !! u = w_user_bias w !! u.
Proof.
  intros Hs. unfold sgd_epoch. revert w.
  induction order as [|idx order IH]; intros w; cbn; [auto|].
  destruct (IH (match samples !! idx with
                | Some ui => sgd_step p gb r w ui | None => w end)) as [-> ->].
  destruct (samples !! idx) as [ui|] eqn:E; [|auto].
  apply sgd_step_other_user.
  rewrite Forall_forall in Hs. apply Hs.
  now apply (list_elem_of_lookup_2 _ idx).
Qed.

Lemma sgd_epoch_other_item (p : sgd_params) (gb : flt) (r : list (list flt))
  (samples : list (nat * nat)) (order : list nat) (w : weights) (i : nat) :
  Forall (fun ui => snd ui <> i) samples ->
  w_item_vecs (sgd_epoch p gb r samples w order) !! i = w_item_vecs w !! i /\
  w_item_bias (sgd_epoch p gb r samples w order) !! i = w_item_bias w !! i.
Proof.
  intros Hs. unfold sgd_epoch. revert w.
  induction order as [|idx order IH]; intros w; cbn; [auto|].
  destruct (IH (match samples !! idx with
                | Some ui => sgd_step p gb r w ui | None => w end)) as [-> ->].
  destruct (samples !! idx) as [ui|] eqn:E; [|auto].
  apply sgd_step_other_item.
  rewrite Forall_forall in Hs. apply Hs.
  now apply (list_elem_of_lookup_2 _ idx).
Qed.

Lemma sgd_epochs_other_user (p : sgd_params) (gb : flt) (r : list (list flt))
  (samples : list (nat * nat)) (orders : nat -> list nat) (epochs : list nat)
  (w : weights) (u : nat) :
  Forall (fun ui => fst ui <> u) samples ->
  let w' := fold_left (fun w e => sgd_epoch p gb r samples w (orders e))
                      epochs w in
  w_user_vecs w' !! u = w_user_vecs w !! u /\
  w_user_bias w' !! u = w_user_bias w !! u.
Proof.
  intros Hs. cbn zeta. revert w.
  induction epochs as [|e epochs IH]; intros w; cbn; [auto|].
  destruct (IH (sgd_epoch p gb r samples w (orders e))) as [-> ->].
  now apply sgd_epoch_other_user.
Qed.

Lemma sgd_epochs_other_item (p : sgd_params) (gb : flt) (r : list (list flt))
  (samples : list (nat * nat)) (orders : nat -> list nat) (epochs : list nat)
  (w : weights) (i : nat) :
  Forall (fun ui => snd ui <> i) samples ->
  let w' := fold_left (fun w e => sgd_epoch p gb r samples w (orders e))
                      epochs w in
  w_item_vecs w' !! i = w_item_vecs w !! i /\
  w_item_bias w' !! i = w_item_bias w !! i.
Proof.
  intros Hs. cbn zeta. revert w.
  induction epochs as [|e epochs IH]; intros w; cbn; [auto|].
  destruct (IH (sgd_epoch p gb r samples w (orders e))) as [-> ->].
  now apply sgd_epoch_other_item.
Qed.

(** What [NNMF_sgd.fit] leaves behind when it runs to the end. *)
Lemma NNMF_sgd_fit_run (nf : option nat) (p : sgd_params) (n : Z)
  (nu ni : list (list flt)) (sh : list (list nat)) (t : NNMF_sgd)
  (r : list (list flt)) (s : list (nat * nat)) (gb : flt) :
  sgd_universe (base t) = Ok (r, s, gb) ->
  (default (snd (shape (ratings (base t)))) nf =? 0)%nat = false ->
  let w := fold_left (fun w e =>
                        sgd_epoch p gb r s w
                          (default (seq 0 (length s)) (sh !! e)))
                     (seq 0 (Z.to_nat n))
                     {| w_user_vecs := nu; w_item_vecs := ni;
                        w_user_bias :=
                          replicate (fst (shape (ratings (base t)))) (of_Z 0);
                        w_item_bias :=
                          replicate (snd (shape (ratings (base t)))) (of_Z 0) |} in
  let t' := snd (NNMF_sgd_fit nf p n None nu ni sh t) in
  fst (NNMF_sgd_fit nf p n None nu ni sh t) = Ok tt /\
  user_vecs t' = Some (w_user_vecs w) /\ item_vecs t' = Some (w_item_vecs w) /\
  user_bias t' = Some (w_user_bias w) /\ item_bias t' = Some (w_item_bias w).
Proof.
  intros Huni Hnf.
  unfold NNMF_sgd_fit, bind, get, ret, lift, modify, on_base.
  rewrite Huni. cbn [fst snd]. rewrite Hnf. cbn. auto.
Qed.

(** [mask.nonzero()] lists exactly the true cells. *)
Lemma nonzero_spec (m : list (list bool)) (i j : nat) :
  In (i, j) (nonzero m) <-> mcell m i j = true.
Proof.
  unfold nonzero, mcell. rewrite in_concat.
  split.
  - intros (l & Hl & Hin).
    apply list_elem_of_In, list_elem_of_lookup_1 in Hl as [i' Hl].
    rewrite list_lookup_imap in Hl.
    destruct (m !! i') as [mr|] eqn:E; [|discriminate].
    cbn in Hl. injection Hl as <-.
    apply in_map_iff in Hin as (j' & [= <- <-] & Hj).
    apply filter_In in Hj as [_ Hj]. rewrite E. cbn.
    destruct (mr !! j'); cbn in *; [assumption|discriminate].
  - intros H.
    destruct (m !! i) as [mr|] eqn:E; [|discriminate].
    cbn in H. destruct (mr !! j) as [b|] eqn:Ej; [|discriminate].
    cbn in H. subst b.
    exists (map (fun j => (i, j))
              (List.filter (fun j => default false (mr !! j)) (seq 0 (length mr)))).
    split.
    + apply list_elem_of_In, (list_elem_of_lookup_2 _ i).
      rewrite list_lookup_imap, E. reflexivity.
    + apply in_map_iff. exists j. split; [reflexivity|].
      apply filter_In. split.
      * apply in_seq. apply lookup_lt_Some in Ej. lia.
      * now rewrite Ej.
Qed.

(** X12.  A subject with no training pair is never updated by
    [NNMF_sgd.fit]: whatever the number of epochs and the shuffles, its
    latent vector is the initial draw and its bias is the initial zero.
    The same holds for an item with no training pair. *)
Theorem NNMF_sgd_fit_skips_unobserved (nf : option nat) (p : sgd_params)
  (n : Z) (nu ni : list (list flt)) (sh : list (list nat)) (t : NNMF_sgd)
  (r : list (list flt)) (s : list (nat * nat)) (gb : flt) :
  sgd_universe (base t) = Ok (r, s, gb) ->
  (default (snd (shape (ratings (base t)))) nf =? 0)%nat = false ->
  let t' := snd (NNMF_sgd_fit nf p n None nu ni sh t) in
  exists uv iv ub ib,
    fst (NNMF_sgd_fit nf p n None nu ni sh t) = Ok tt /\
    user_vecs t' = Some uv /\ item_vecs t' = Some iv /\
    user_bias t' = Some ub /\ item_bias t' = Some ib /\
    (forall u, (forall i, ~ In (u, i) s) ->
       uv !! u = nu !! u /\
       ub !! u = replicate (fst (shape (ratings (base t)))) (of_Z 0) !! u) /\
    (forall i, (forall u, ~ In (u, i) s) ->
       iv !! i = ni !! i /\
       ib !! i = replicate (snd (shape (ratings (base t)))) (of_Z 0) !! i).
Proof.
  intros Huni Hnf.
  destruct (NNMF_sgd_fit_run nf p n nu ni sh t r s gb Huni Hnf)
    as (Hok & Huv & Hiv & Hub & Hib).
  cbn zeta. do 4 eexists. split; [exact Hok|].
  split; [exact Huv|]. split; [exact Hiv|]. split; [exact Hub|].
  split; [exact Hib|].
  split.
  - intros u Hu.
    apply (sgd_epochs_other_user p gb r s
             (fun e => default (seq 0 (length s)) (sh !! e))).
    apply Forall_forall. intros [u' i'] Hin Heq. cbn in Heq. subst u'.
    apply (Hu i'). now apply list_elem_of_In.
  - intros i Hi.
    apply (sgd_epochs_other_item p gb r s
             (fun e => default (seq 0 (length s)) (sh !! e))).
    apply Forall_forall. intros [u' i'] Hin Heq. cbn in Heq. subst i'.
    apply (Hi u'). now apply list_elem_of_In.
Qed.

(** Witness of [NNMF_sgd_fit_skips_unobserved]: [ratings_a] with only its
    first item in the train mask, two epochs. *)
Lemma NNMF_sgd_fit_skips_unobserved_witness :
  exists iv ib,
    item_vecs (snd (NNMF_sgd_fit None
                      {| p_item_fact_reg := q_ 0; p_user_fact_reg := q_ 0;
                         p_item_bias_reg := q_ 0; p_user_bias_reg := q_ 0;
                         p_learning_rate := half |}
                      2 None [[half; half]; [half; half]]
                      [[half; half]; [half; q_ 1]] []
                      (NNMF_sgd_init ratings_a (Some mask_item0)))) = Some iv /\
    item_bias (snd (NNMF_sgd_fit None
                      {| p_item_fact_reg := q_ 0; p_user_fact_reg := q_ 0;
                         p_item_bias_reg := q_ 0; p_user_bias_reg := q_ 0;
                         p_learning_rate := half |}
                      2 None [[half; half]; [half; half]]
                      [[half; half]; [half; q_ 1]] []
                      (NNMF_sgd_init ratings_a (Some mask_item0)))) = Some ib /\
    iv !! 1%nat = Some [half; q_ 1] /\ ib !! 1%nat = Some (q_ 0).
Proof.
  destruct (NNMF_sgd_fit_skips_unobserved None
              {| p_item_fact_reg := q_ 0; p_user_fact_reg := q_ 0;
                 p_item_bias_reg := q_ 0; p_user_bias_reg := q_ 0;
                 p_learning_rate := half |}
              2 [[half; half]; [half; half]] [[half; half]; [half; q_ 1]] []
              (NNMF_sgd_init ratings_a (Some mask_item0))
              [[q_ 1; NaN]; [q_ 1; NaN]] [(0, 0); (1, 0)]%nat (q_ 1)
              eq_refl eq_refl)
    as (uv & iv & ub & ib & _ & _ & Hiv & _ & Hib & _ & Hitem).
  exists iv, ib. split; [exact Hiv|]. split; [exact Hib|].
  apply (Hitem 1%nat). intros u [H|[H|[]]]; discriminate.
Defined.

(** Witness of [NNMF_sgd_predict_formula]: [ratings_a] fitted with no
    epoch, subject 1 and item 0. *)
Lemma NNMF_sgd_predict_formula_witness :
  let t := snd (NNMF_sgd_fit None
                  {| p_item_fact_reg := q_ 0; p_user_fact_reg := q_ 0;
                     p_item_bias_reg := q_ 0; p_user_bias_reg := q_ 0;
                     p_learning_rate := half |}
                  0 None [[half; half]; [half; half]]
                  [[half; half]; [half; q_ 1]] []
                  (NNMF_sgd_init ratings_a None)) in
  exists p,
    fst (NNMF_sgd_predict t) = Ok tt /\
    predicted_ratings (base (snd (NNMF_sgd_predict t))) = Some p /\
    is_predict (base (snd (NNMF_sgd_predict t))) = true /\
    same_shape p ratings_a /\
    cell p 1 0 = Fin (4 # 1).
Proof.
  cbn zeta.
  apply (NNMF_sgd_predict_formula
           (snd (NNMF_sgd_fit None
                   {| p_item_fact_reg := q_ 0; p_user_fact_reg := q_ 0;
                      p_item_bias_reg := q_ 0; p_user_bias_reg := q_ 0;
                      p_learning_rate := half |}
                   0 None [[half; half]; [half; half]]
                   [[half; half]; [half; q_ 1]] []
                   (NNMF_sgd_init ratings_a None)))
           [[half; half]; [half; half]] [[half; half]; [half; q_ 1]]
           (Fin (7 # 2)) [q_ 0; q_ 0] [q_ 0; q_ 0] 2 1 0);
    try reflexivity.
  - repeat constructor.
  - cbn. lia.
  - lia.
Defined.

(** *** More on [NNMF_multiplicative] *)

Lemma shape_scale (c : flt) (a : list (list flt)) :
  shape (scale c a) = shape a.
Proof.
  unfold shape, scale. destruct a as [|r a]; cbn; [reflexivity|].
  now rewrite !length_map.
Qed.

(** X13.  [NNMF_multiplicative.fit] with a number of factors other than the
    number of items, on an instance with at least one subject: [H] is drawn
    with one row per item and [W] with one column per factor, so their
    product fails.  [fit] raises the shape error before the first pass and
    leaves the instance unfitted, with [H] and [W] overwritten by the
    scaled draws. *)
Theorem NNMF_multiplicative_fit_wrong_n_factors (sqrtQ : Q -> Q) (fuel nf : nat)
  (mx : Z) (lim : flt) (rand_H rand_W : list (list flt))
  (t : NNMF_multiplicative) :
  (0 < length rand_W)%nat -> rect nf rand_W ->
  length rand_H = snd (shape (ratings (base t))) ->
  nf <> snd (shape (ratings (base t))) ->
  (is_mask (base t) = true -> train_mask (base t) <> None) ->
  exists t',
    NNMF_multiplicative_fit sqrtQ fuel (Some nf) mx lim None rand_H rand_W t
    = Some (Raise (ValueError msg_shapes), t') /\
    base t' = base t /\
    H t' = Some (scale (np_sqrt sqrtQ
                          (fdiv (nanmean (flatten (ratings (base t))))
                                (of_nat nf))) rand_H) /\
    W t' = Some (scale (np_sqrt sqrtQ
                          (fdiv (nanmean (flatten (ratings (base t))))
                                (of_nat nf))) rand_W).
Proof.
  intros Hlen Hrect HH Hne Htm.
  unfold NNMF_multiplicative_fit, mult_setup, bind, get, modify, lift, ret,
    matmul.
  cbn [default id fst snd].
  rewrite shape_scale, (rect_shape nf rand_W Hrect Hlen).
  unfold scale at 3. rewrite length_map, HH.
  destruct (Nat.eqb_spec nf (snd (shape (ratings (base t))))) as [E|_];
    [contradiction|].
  destruct (is_mask (base t)) eqn:Em.
  - destruct (train_mask (base t)) as [tm|] eqn:Et;
      [|exfalso; now apply Htm].
    cbn. eexists. split; [reflexivity|]. cbn. auto.
  - cbn. eexists. split; [reflexivity|]. cbn. auto.
Qed.

(** Witness of [NNMF_multiplicative_fit_wrong_n_factors]: one factor asked
    for on the two items of [ratings_a]. *)
Lemma NNMF_multiplicative_fit_wrong_n_factors_witness :
  exists t',
    NNMF_multiplicative_fit sqrt_floor 5 (Some 1%nat) 100
      default_fit_error_limit None [[half]; [half]] [[half]; [half]]
      (NNMF_multiplicative_init ratings_a None)
    = Some (Raise (ValueError msg_shapes), t') /\
    is_fit (base t') = false.
Proof.
  destruct (NNMF_multiplicative_fit_wrong_n_factors sqrt_floor 5 1 100
              default_fit_error_limit [[half]; [half]] [[half]; [half]]
              (NNMF_multiplicative_init ratings_a None))
    as (t' & Hrun & Hbase & _).
  - cbn. lia.
  - repeat constructor.
  - reflexivity.
  - cbn. lia.
  - discriminate.
  - exists t'. split; [exact Hrun|]. now rewrite Hbase.
Defined.

(** The loop leaves normally only when the counter has passed
    [max_iterations]: it has then made at least [max_iterations - ctr + 1]
    passes. *)
Lemma mult_loop_exit (sqrtQ : Q -> Q) (fuel : nat) (mx : Z) (lim : flt)
  (X mask : list (list flt)) (ctr : Z) (res : flt)
  (w h Xp : list (list flt)) (out : list (list flt) * list (list flt)) :
  mult_loop sqrtQ fuel mx lim X mask ctr res w h Xp = Some (None, out) ->
  mx < ctr + Z.of_nat fuel.
Proof.
  revert ctr res w h Xp.
  induction fuel as [|fuel IH]; intros ctr res w h Xp; cbn [mult_loop].
  - destruct (Z.leb_spec ctr mx); cbn [orb].
    + discriminate.
    + destruct (fltb res lim); [discriminate|]. intros _. lia.
  - destruct (Z.leb_spec ctr mx); cbn [orb].
    + destruct (update_W X mask w h) as [w1|]; [|discriminate].
      destruct (update_H X mask w1 h) as [h1|]; [|discriminate].
      destruct (matmul w1 h1) as [Xe|]; [|discriminate].
      intros Hrun. apply IH in Hrun. lia.
    + intros _. lia.
Qed.

(** X14.  [NNMF_multiplicative.fit] never stops early: whatever the
    residual and [fit_error_limit], a call that returns has made at least
    [max_iterations] passes of the loop. *)
Theorem NNMF_multiplicative_fit_never_stops_early (sqrtQ : Q -> Q)
  (fuel : nat) (nf : option nat) (mx : Z) (lim : flt) (d : option nat)
  (rand_H rand_W : list (list flt)) (t t' : NNMF_multiplicative) :
  NNMF_multiplicative_fit sqrtQ fuel nf mx lim d rand_H rand_W t
  = Some (Ok tt, t') ->
  mx <= Z.of_nat fuel.
Proof.
  unfold NNMF_multiplicative_fit.
  destruct (mult_setup sqrtQ nf d rand_H rand_W t) as [[[[X mask] Xp]|e] t0];
    [|discriminate].
  destruct (mult_loop _ _ _ _ _ _ _ _ _ _ _) as [[[e|] out]|] eqn:El;
    try discriminate; [destruct out; discriminate|].
  intros _. apply mult_loop_exit in El. lia.
Qed.

(** Witness of [NNMF_multiplicative_fit_never_stops_early]: one pass asked
    for on a table of one cell, with a limit no residual stays under. *)
Lemma NNMF_multiplicative_fit_never_stops_early_witness : 1 <= Z.of_nat 3.
Proof.
  apply (NNMF_multiplicative_fit_never_stops_early sqrt_floor 3 None 1
           (q_ 0) None [[half]] [[half]]
           (NNMF_multiplicative_init [[q_ 1]] None)
           (snd (default (Ok tt, NNMF_multiplicative_init [[q_ 1]] None)
                   (NNMF_multiplicative_fit sqrt_floor 3 None 1 (q_ 0) None
                      [[half]] [[half]]
                      (NNMF_multiplicative_init [[q_ 1]] None))))).
  vm_compute. reflexivity.
Defined.

Lemma np_maximum_eps (x : flt) :
  isnan (np_maximum x eps) = true \/ fltb (np_maximum x eps) eps = false.
Proof.
  destruct x as [q| | |]; cbn; auto.
  destruct (Qltb q (1 # 100000)) eqn:E; cbn; auto.
Qed.

Lemma floor_at_floored (a : list (list flt)) : floored (floor_at eps a).
Proof.
  unfold floored, floor_at.
  apply Forall_forall. intros r Hr.
  apply list_elem_of_In, in_map_iff in Hr as (r0 & <- & _).
  apply Forall_forall. intros x Hx.
  apply list_elem_of_In, in_map_iff in Hx as (x0 & <- & _).
  apply np_maximum_eps.
Qed.

Lemma update_W_floored (X mask w h w1 : list (list flt)) :
  update_W X mask w h = Ok w1 -> floored w1.
Proof.
  unfold update_W, rbind.
  repeat match goal with
         | |- context [match matmul ?a ?b with _ => _ end] =>
             destruct (matmul a b); [|discriminate]
         end.
  intros [= <-]. apply floor_at_floored.
Qed.

Lemma update_H_floored (X mask w h h1 : list (list flt)) :
  update_H X mask w h = Ok h1 -> floored h1.
Proof.
  unfold update_H, rbind.
  repeat match goal with
         | |- context [match matmul ?a ?b with _ => _ end] =>
             destruct (matmul a b); [|discriminate]
         end.
  intros [= <-]. apply floor_at_floored.
Qed.

Lemma mult_loop_floored (sqrtQ : Q -> Q) (fuel : nat) (mx : Z) (lim : flt)
  (X mask : list (list flt)) (ctr : Z) (res : flt)
  (w h Xp w' h' : list (list flt)) :
  mult_loop sqrtQ fuel mx lim X mask ctr res w h Xp = Some (None, (w', h')) ->
  (floored w /\ floored h) \/ ctr <= mx ->
  floored w' /\ floored h'.
Proof.
  revert ctr res w h Xp.
  induction fuel as [|fuel IH]; intros ctr res w h Xp; cbn [mult_loop].
  - destruct (Z.leb_spec ctr mx); cbn [orb]; [discriminate|].
    destruct (fltb res lim); [discriminate|].
    intros [= <- <-] [Hf|Hc]; [exact Hf|lia].
  - destruct ((ctr <=? mx) || fltb res lim) eqn:Ec.
    + destruct (update_W X mask w h) as [w1|] eqn:EW; [|discriminate].
      destruct (update_H X mask w1 h) as [h1|] eqn:EH; [|discriminate].
      destruct (matmul w1 h1) as [Xe|]; [|discriminate].
      intros Hrun _. apply (IH _ _ _ _ _ Hrun). left. split.
      * exact (update_W_floored _ _ _ _ _ EW).
      * exact (update_H_floored _ _ _ _ _ EH).
    + apply orb_false_iff in Ec as [Ec _]. apply Z.leb_gt in Ec.
      intros [= <- <-] [Hf|Hc]; [exact Hf|lia].
Qed.

(** X15.  After a [NNMF_multiplicative.fit] that returns, with at least one
    iteration asked for, no cell of [W] or [H] is below [eps = 1e-5]: each
    is missing or at least [eps]. *)
Theorem NNMF_multiplicative_fit_factors_floored (sqrtQ : Q -> Q)
  (fuel : nat) (nf : option nat) (mx : Z) (lim : flt) (d : option nat)
  (rand_H rand_W : list (list flt)) (t t' : NNMF_multiplicative) :
  1 <= mx ->
  NNMF_multiplicative_fit sqrtQ fuel nf mx lim d rand_H rand_W t
  = Some (Ok tt, t') ->
  exists w h, W t' = Some w /\ H t' = Some h /\ floored w /\ floored h /\
              is_fit (base t') = true.
Proof.
  intros Hmx. unfold NNMF_multiplicative_fit.
  destruct (mult_setup sqrtQ nf d rand_H rand_W t) as [[[[X mask] Xp]|e] t0];
    [|discriminate].
  destruct (mult_loop _ _ _ _ _ _ _ _ _ _ _) as [[[e|] [w h]]|] eqn:El;
    try discriminate.
  intros [= <-]. exists w, h. cbn.
  apply mult_loop_floored in El; [|right; exact Hmx].
  destruct El. auto.
Qed.

(** Witness of [NNMF_multiplicative_fit_factors_floored]: one pass on a
    table of one cell. *)
Lemma NNMF_multiplicative_fit_factors_floored_witness :
  exists w h,
    W (snd (default (Ok tt, NNMF_multiplicative_init [[q_ 1]] None)
              (NNMF_multiplicative_fit sqrt_floor 3 None 1 (q_ 0) None
                 [[half]] [[half]]
                 (NNMF_multiplicative_init [[q_ 1]] None)))) = Some w /\
    H (snd (default (Ok tt, NNMF_multiplicative_init [[q_ 1]] None)
              (NNMF_multiplicative_fit sqrt_floor 3 None 1 (q_ 0) None
                 [[half]] [[half]]
                 (NNMF_multiplicative_init [[q_ 1]] None)))) = Some h /\
    floored w /\ floored h.
Proof.
  destruct (NNMF_multiplicative_fit_factors_floored sqrt_floor 3 None 1
              (q_ 0) None [[half]] [[half]]
              (NNMF_multiplicative_init [[q_ 1]] None)
              (snd (default (Ok tt, NNMF_multiplicative_init [[q_ 1]] None)
                      (NNMF_multiplicative_fit sqrt_floor 3 None 1 (q_ 0) None
                         [[half]] [[half]]
                         (NNMF_multiplicative_init [[q_ 1]] None)))))
    as (w & h & HW & HH & Hw & Hh & _).
  - lia.
  - vm_compute. reflexivity.
  - exists w, h. auto.
Defined.

(** *** Downsampling *)

Lemma np_sort_ascending (f : nat -> nat) (s m : nat) :
  (forall k, (f k <= f (S k))%nat) ->
  np_sort (map f (seq s m)) = map f (seq s m).
Proof.
  intros Hf. revert s.
  induction m as [|m IH]; intros s; [reflexivity|].
  cbn [seq map np_sort fold_right].
  change (fold_right insert_nat [] (map f (seq (S s) m)))
    with (np_sort (map f (seq (S s) m))).
  rewrite IH. destruct m as [|m]; [reflexivity|].
  cbn [seq map insert_nat].
  destruct (Nat.leb_spec (f s) (f (S s))) as [_|H]; [reflexivity|].
  specialize (Hf s). lia.
Qed.

Lemma map_seq_const (f : nat -> nat) (c s m : nat) :
  (forall k, (s <= k < s + m)%nat -> f k = c) ->
  map f (seq s m) = replicate m c.
Proof.
  revert s. induction m as [|m IH]; intros s Hf; [reflexivity|].
  cbn [seq map replicate]. f_equal.
  - apply Hf. lia.
  - apply IH. intros k Hk. apply Hf. lia.
Qed.

Lemma div_block (n k g : nat) :
  (0 < n)%nat -> (g * n <= k < g * n + n)%nat -> (k / n = g)%nat.
Proof.
  intros Hn Hk. pose proof (Nat.div_mod_eq k n) as E.
  pose proof (Nat.mod_upper_bound k n ltac:(lia)) as Hm.
  nia.
Qed.

Lemma div_step (n k : nat) :
  (k / n <= S k / n)%nat /\ (S k / n <= k / n + 1)%nat.
Proof.
  destruct n as [|n]; [cbn; lia|].
  pose proof (Nat.div_mod_eq k (S n)) as E.
  pose proof (Nat.mod_upper_bound k (S n) ltac:(lia)) as Hm.
  pose proof (Nat.div_mod_eq (S k) (S n)) as E'.
  pose proof (Nat.mod_upper_bound (S k) (S n) ltac:(lia)) as Hm'.
  nia.
Qed.

Lemma np_repeat_blocks (n s q : nat) :
  (0 < n)%nat ->
  np_repeat (seq s q) n = map (fun k => (k / n + s)%nat) (seq 0 (q * n)).
Proof.
  intros Hn. unfold np_repeat. revert s.
  induction q as [|q IH]; intros s; [reflexivity|].
  cbn [seq flat_map]. rewrite IH.
  replace (S q * n)%nat with (n + q * n)%nat by lia.
  rewrite seq_app, map_app. f_equal.
  - symmetry. apply map_seq_const. intros k Hk.
    rewrite (div_block n k 0); lia.
  - cbn [Nat.add].
    replace (seq n (q * n)) with (map (Nat.add n) (seq 0 (q * n)))
      by (change (map ?g ?l) with (g <$> l); rewrite fmap_add_seq;
          f_equal; lia).
    rewrite map_map. apply map_ext. intros k.
    replace (n + k)%nat with (k + 1 * n)%nat by lia.
    rewrite Nat.div_add by lia. lia.
Qed.

(** The number of bins and where the last one starts. *)
Lemma bins_bounds (N n : nat) :
  (0 < n)%nat -> (0 < N)%nat ->
  let c := ((N + n - 1) / n)%nat in
  ((c - 1) * n < N <= c * n)%nat /\ (1 <= c)%nat.
Proof.
  intros Hn HN. cbn zeta.
  pose proof (Nat.div_mod_eq (N + n - 1) n) as E.
  pose proof (Nat.mod_upper_bound (N + n - 1) n ltac:(lia)) as Hm.
  nia.
Qed.

(** With [0 < n < N] every sample [k] is given the label [k / n + 1]. *)
Lemma ds_index_labels (N n : nat) :
  (0 < n)%nat -> (n < N)%nat ->
  ds_index N n = Ok (map (fun k => (k / n + 1)%nat) (seq 0 N)).
Proof.
  intros Hn HN. unfold ds_index, np_arange_1.
  destruct (Nat.eqb_spec n 0) as [E|_]; [lia|].
  destruct (bins_bounds N n Hn ltac:(lia)) as [[Hlo Hhi] Hc].
  assert (Hq : (1 <= (N + n - 1) / n - 1)%nat).
  { pose proof (Nat.div_mod_eq (N + n - 1) n) as E.
    pose proof (Nat.mod_upper_bound (N + n - 1) n ltac:(lia)) as Hm.
    nia. }
  assert (Hc' : ((N + n - 1) / n = S ((N + n - 1) / n - 1))%nat) by lia.
  rewrite Hc' in Hhi.
  set (q := ((N + n - 1) / n - 1)%nat) in *.
  rewrite np_repeat_blocks by exact Hn.
  rewrite np_sort_ascending
    by (intros k; pose proof (div_step n k); lia).
  rewrite length_map, length_seq.
  destruct (Nat.ltb_spec (q * n) N) as [_|H]; [|lia].
  rewrite last_lookup, length_map, length_seq.
  change (map ?f ?l !! ?i) with ((f <$> l) !! i).
  rewrite list_lookup_fmap, lookup_seq_lt by nia.
  cbn [fmap option_fmap option_map Nat.add].
  f_equal.
  replace N with (q * n + (N - q * n))%nat at 2 by lia.
  rewrite seq_app, map_app. f_equal. cbn [Nat.add].
  rewrite (div_block n (Nat.pred (q * n)) (q - 1)) by nia.
  replace (q - 1 + 1 + 1)%nat with (q + 1)%nat by lia.
  symmetry. apply map_seq_const. intros k Hk.
  rewrite (div_block n k q); [reflexivity|exact Hn|]. nia.
Qed.

Lemma in_map_seq_ge (f : nat -> nat) (s m x : nat) :
  (forall k, (f k <= f (S k))%nat) ->
  In x (map f (seq s m)) -> (f s <= x)%nat.
Proof.
  intros Hf. revert s. induction m as [|m IH]; intros s; cbn; [tauto|].
  intros [<-|Hin]; [lia|]. specialize (IH _ Hin). specialize (Hf s). lia.
Qed.

(** The distinct values of a sequence that climbs by steps of at most one
    are the whole interval it spans. *)
Lemma nodup_steps (f : nat -> nat) (s m : nat) :
  (forall k, (f k <= f (S k) <= f k + 1)%nat) ->
  nodup Nat.eq_dec (map f (seq s (S m)))
  = seq (f s) (f (s + m) - f s + 1)%nat.
Proof.
  intros Hf. revert s. induction m as [|m IH]; intros s.
  - cbn. rewrite Nat.add_0_r, Nat.sub_diag. reflexivity.
  - change (seq s (S (S m))) with (s :: seq (S s) (S m)).
    cbn [map nodup]. rewrite IH.
    replace (S s + m)%nat with (s + S m)%nat by lia.
    assert (Hmono : (f (S s) <= f (s + S m))%nat).
    { replace (s + S m)%nat with (S s + m)%nat by lia. clear IH.
      induction m as [|m IHm].
      - rewrite Nat.add_0_r. lia.
      - replace (S s + S m)%nat with (S (S s + m)) by lia.
        pose proof (Hf (S s + m)%nat). lia. }
    destruct (in_dec Nat.eq_dec (f s) (map f (seq (S s) (S m)))) as [Hin|Hnin].
    + apply in_map_seq_ge in Hin; [|intros k; specialize (Hf k); lia].
      pose proof (Hf s). replace (f (S s)) with (f s) by lia. reflexivity.
    + assert (f (S s) <> f s) by (intros E; apply Hnin; cbn; now left).
      pose proof (Hf s).
      replace (f (S s)) with (S (f s)) by lia.
      replace (f (s + S m) - f s + 1)%nat
        with (S (f (s + S m) - S (f s) + 1))%nat by lia.
      reflexivity.
Qed.

(** The labels of [N] samples are [1 .. ceil(N / n)]. *)
Lemma group_keys_labels (N n : nat) :
  (0 < n)%nat -> (0 < N)%nat ->
  group_keys (map (fun k => (k / n + 1)%nat) (seq 0 N))
  = seq 1 ((N + n - 1) / n).
Proof.
  intros Hn HN. unfold group_keys.
  rewrite np_sort_ascending by (intros k; pose proof (div_step n k); lia).
  destruct N as [|m]; [lia|].
  rewrite (nodup_steps (fun k => (k / n + 1)%nat))
    by (intros k; pose proof (div_step n k); lia).
  rewrite Nat.add_0_l, (Nat.div_small 0 n) by lia.
  change (0 + 1)%nat with 1%nat. f_equal.
  pose proof (Nat.div_add m 1 n ltac:(lia)) as E.
  replace (S m + n - 1)%nat with (m + 1 * n)%nat by lia.
  rewrite E. lia.
Qed.

Lemma group_members_none (f : nat -> nat) (g s : nat) (r : list flt) :
  (forall k, (s <= k < s + length r)%nat -> f k <> g) ->
  List.filter (fun p => (fst p =? g)%nat) (zip (map f (seq s (length r))) r) = [].
Proof.
  revert s. induction r as [|x r IH]; intros s Hf; [reflexivity|].
  cbn [length seq map zip zip_with List.filter fst].
  destruct (Nat.eqb_spec (f s) g) as [E|_].
  - exfalso. apply (Hf s); [cbn; lia|exact E].
  - apply IH. intros k Hk. apply Hf. cbn. lia.
Qed.

Lemma group_members_all (f : nat -> nat) (g s : nat) (r : list flt) :
  (forall k, (s <= k < s + length r)%nat -> f k = g) ->
  map snd (List.filter (fun p => (fst p =? g)%nat)
             (zip (map f (seq s (length r))) r)) = r.
Proof.
  revert s. induction r as [|x r IH]; intros s Hf; [reflexivity|].
  cbn [length seq map zip zip_with List.filter fst].
  destruct (Nat.eqb_spec (f s) g) as [_|E].
  - cbn [map snd]. f_equal. apply IH. intros k Hk. apply Hf. cbn. lia.
  - exfalso. apply E, Hf. cbn. lia.
Qed.

Lemma zip_labels_app (f : nat -> nat) (s : nat) (a b : list flt) :
  zip (map f (seq s (length (a ++ b)))) (a ++ b)
  = zip (map f (seq s (length a))) a
    ++ zip (map f (seq (s + length a) (length b))) b.
Proof.
  rewrite length_app, seq_app, map_app.
  unfold zip. apply zip_with_app. now rewrite length_map, length_seq.
Qed.

(** The cells under label [g + 1] are the [n] samples from [g * n] on. *)
Lemma group_mean_bin (n g : nat) (r : list flt) :
  (0 < n)%nat -> (g * n < length r)%nat ->
  group_mean (map (fun k => (k / n + 1)%nat) (seq 0 (length r))) r (g + 1)
  = nanmean (take n (drop (g * n) r)).
Proof.
  intros Hn Hg. unfold group_mean. f_equal.
  set (f := fun k => (k / n + 1)%nat).
  rewrite <- (take_drop (g * n) r) at 1 2.
  rewrite zip_labels_app, List.filter_app, map_app.
  rewrite group_members_none, app_nil_l.
  2:{ intros k Hk. rewrite length_take in Hk. unfold f.
      assert (k / n < g)%nat; [|lia].
      apply Nat.Div0.div_lt_upper_bound. nia. }
  rewrite length_take, Nat.min_l by lia. cbn [Nat.add].
  rewrite <- (take_drop n (drop (g * n) r)) at 1 2.
  rewrite zip_labels_app, List.filter_app, map_app.
  rewrite (group_members_none f (g + 1) _ (drop n _)), app_nil_r.
  2:{ intros k Hk. rewrite length_take, !length_drop in Hk. unfold f.
      assert (g < k / n)%nat; [|lia].
      apply Nat.div_le_lower_bound; [lia|]. nia. }
  apply group_members_all.
  intros k Hk. rewrite length_take, length_drop in Hk. unfold f.
  rewrite (div_block n k g); [reflexivity|exact Hn|]. lia.
Qed.

Lemma count_true_exists (l : list bool) :
  existsb id l = negb (length (List.filter id l) =? 0)%nat.
Proof.
  induction l as [|b l IH]; [reflexivity|].
  cbn [existsb List.filter]. destruct b; cbn; [reflexivity|exact IH].
Qed.

Lemma fold_fadd_bools (l : list bool) (k : nat) :
  fold_left fadd (map of_bool l) (of_nat k)
  = of_nat (k + length (List.filter id l)).
Proof.
  revert k. induction l as [|b l IH]; intros k; cbn [map fold_left List.filter].
  - cbn. now rewrite Nat.add_0_r.
  - destruct b; cbn [of_bool id length].
    + unfold of_nat at 1. rewrite fadd_of_Z.
      replace (Z.of_nat k + 1) with (Z.of_nat (S k)) by lia.
      fold (of_nat (S k)). rewrite IH. f_equal. lia.
    + unfold of_nat at 1. rewrite fadd_of_Z, Z.add_0_r. apply IH.
Qed.

Lemma filter_present_bools (l : list bool) :
  List.filter (fun x => negb (isnan x)) (map of_bool l) = map of_bool l.
Proof.
  induction l as [|b l IH]; [reflexivity|].
  cbn [map List.filter]. destruct b; cbn; now rewrite IH.
Qed.

(** The mean of a bin of a mask is above zero exactly when one of its
    cells is true. *)
Lemma positive_mean_any (l : list bool) :
  fltb (of_Z 0) (nanmean (map of_bool l)) = existsb id l.
Proof.
  unfold nanmean, np_mean, np_sum.
  rewrite filter_present_bools, length_map.
  pose proof (fold_fadd_bools l 0) as E.
  change (of_nat 0) with (of_Z 0) in E. rewrite E. clear E.
  rewrite Nat.add_0_l, count_true_exists.
  destruct l as [|b l]; [reflexivity|].
  set (k := length (List.filter id (b :: l))).
  cbn [length]. unfold of_nat, of_Z, fdiv, Qzero. cbn [inject_Z Qnum].
  destruct (Z.eqb_spec (Z.of_nat (S (length l))) 0) as [E|_]; [lia|].
  unfold fin, fltb.
  destruct (Nat.eqb_spec k 0) as [E|E]; cbn [negb].
  - rewrite E. apply Qltb_ge. rewrite Qred_correct.
    unfold Qdiv. rewrite Qmult_0_l. apply Qle_refl.
  - apply Qltb_lt. rewrite Qred_correct.
    apply Qlt_shift_div_l.
    + unfold Qlt, inject_Z. cbn [Qnum Qden]. lia.
    + rewrite Qmult_0_l. unfold Qlt, inject_Z. cbn [Qnum Qden]. lia.
Qed.

Section Downsample.

Variables (ty : target_type) (f tg n N : nat).
Hypothesis Hcount : n_samples_of ty f tg = Ok n.
Hypothesis Hpos : (0 < n)%nat.
Hypothesis Hwide : (n < N)%nat.

Let c : nat := ((N + n - 1) / n)%nat.
Let bins (t : list (list flt)) : list (list flt) :=
  map (fun r => map (fun g => nanmean (take n (drop (g * n) r))) (seq 0 c)) t.

(** The downsampled table of a rectangular one. *)
Lemma ds_run (t : list (list flt)) :
  (0 < length t)%nat -> rect N t -> ds ty f tg t = Ok (bins t).
Proof.
  intros Hlen Hrect.
  unfold ds, rbind. rewrite Hcount.
  rewrite (rect_shape N t Hrect Hlen), (ds_index_labels N n Hpos Hwide).
  unfold groupby_mean.
  rewrite length_map, length_seq, (rect_shape N t Hrect Hlen), Nat.eqb_refl.
  f_equal. rewrite group_keys_labels by lia.
  apply map_ext_in. intros r Hr.
  assert (Hr' : length r = N).
  { unfold rect in Hrect. rewrite Forall_forall in Hrect.
    now apply Hrect, list_elem_of_In. }
  replace (seq 1 ((N + n - 1) / n)) with (map (Nat.add 1) (seq 0 c))
    by (change (map ?g ?l) with (g <$> l); now rewrite fmap_add_seq).
  rewrite map_map. apply map_ext_in. intros g Hg.
  apply in_seq in Hg. subst N.
  replace (1 + g)%nat with (g + 1)%nat by lia.
  apply group_mean_bin; [exact Hpos|].
  destruct (bins_bounds (length r) n Hpos ltac:(lia)) as [[Hlo _] _].
  fold c in Hlo. nia.
Qed.

Lemma ds_run_aligned {A} (t : list (list flt)) (u : list (list A)) :
  same_shape t u -> (0 < length u)%nat -> rect N u ->
  ds ty f tg t = Ok (bins t).
Proof.
  intros Hs Hlen Hrect. apply ds_run.
  - now rewrite (same_shape_length t u Hs).
  - exact (rect_same_shape N t u Hs Hrect).
Qed.

Lemma bins_shape (t : list (list flt)) :
  length (bins t) = length t /\ rect c (bins t).
Proof.
  unfold bins. split; [apply length_map|].
  apply Forall_forall. intros r Hr.
  apply list_elem_of_In, in_map_iff in Hr as (r0 & <- & _).
  now rewrite length_map, length_seq.
Qed.

Lemma bins_same_shape (t u : list (list flt)) :
  length t = length u -> same_shape (bins t) (bins u).
Proof.
  unfold same_shape, bins. rewrite !map_map. revert u.
  induction t as [|r t IH]; intros [|r' u] Hl; cbn in *; try lia;
    [reflexivity|].
  f_equal; [now rewrite !length_map|]. apply IH. lia.
Qed.

Lemma bins_lookup (t : list (list flt)) (i : nat) (r : list flt) :
  t !! i = Some r ->
  bins t !! i
  = Some (map (fun g => nanmean (take n (drop (g * n) r))) (seq 0 c)).
Proof.
  intros Hr. unfold bins. rewrite lookup_map, Hr. reflexivity.
Qed.

Lemma bins_cell (t : list (list flt)) (i g : nat) (r : list flt) :
  t !! i = Some r -> (g < c)%nat ->
  cell (bins t) i g = nanmean (take n (drop (g * n) r)).
Proof.
  intros Hr Hg. unfold cell. rewrite (bins_lookup t i r Hr). cbn.
  rewrite lookup_map, lookup_seq_lt by exact Hg. reflexivity.
Qed.

Lemma positive_bins_cell (m : list (list bool)) (i g : nat) (r : list bool) :
  m !! i = Some r -> (g < c)%nat ->
  mcell (positive (bins (mask_values m))) i g
  = existsb id (take n (drop (g * n) r)).
Proof.
  intros Hr Hg. unfold mcell, positive. rewrite lookup_map.
  rewrite (bins_lookup (mask_values m) i (map of_bool r))
    by (unfold mask_values; now rewrite lookup_map, Hr).
  cbn. rewrite !lookup_map, lookup_seq_lt by exact Hg. cbn.
  rewrite skipn_map, firstn_map. apply positive_mean_any.
Qed.

(** All of [downsample] on an instance whose tables are aligned. *)
Lemma downsample_run (s : BaseCF) :
  (0 < length (ratings s))%nat -> rect N (ratings s) -> tables_aligned s ->
  downsample (Some f) (Some tg) (Some ty) s =
  (Ok tt,
   {| ratings := bins (ratings s);
      predicted_ratings :=
        if is_predict s then bins <$> predicted_ratings s
        else predicted_ratings s;
      is_fit := is_fit s; is_predict := is_predict s; is_mask := is_mask s;
      is_mask_dilated := is_mask_dilated s;
      train_mask :=
        if is_mask s
        then (fun m => positive (bins (mask_values m))) <$> train_mask s
        else train_mask s;
      masked_ratings :=
        if is_mask s then bins <$> masked_ratings s else masked_ratings s;
      dilated_mask :=
        if is_mask s && is_mask_dilated s
        then (fun m => positive (bins (mask_values m))) <$> dilated_mask s
        else dilated_mask s;
      n_train_items := n_train_items s |}).
Proof.
  intros Hlen Hrect (Hmask & Hdil & Hpred).
  assert (Hm : forall m : list (list bool), same_shape m (ratings s) ->
               ds ty f tg (mask_values m) = Ok (bins (mask_values m))).
  { intros m Hs. apply (ds_run_aligned _ (ratings s)); auto.
    eapply same_shape_trans; [apply same_shape_map_map|exact Hs]. }
  unfold downsample, bind, get, lift, modify, ret.
  rewrite (ds_run (ratings s) Hlen Hrect).
  destruct s as [r p fit pr mk dl tm mr dm k]. cbn in *.
  destruct mk.
  - destruct (Hmask eq_refl) as (tm0 & mr0 & -> & -> & Htm & Hmr).
    cbn [attr]. rewrite (Hm tm0 Htm).
    rewrite (ds_run_aligned mr0 r Hmr Hlen Hrect).
    destruct dl.
    + destruct (Hdil eq_refl eq_refl) as (dm0 & -> & Hdm).
      cbn [attr]. rewrite (Hm dm0 Hdm).
      destruct pr; cbn; [|reflexivity].
      destruct (Hpred eq_refl) as (p0 & -> & Hp). cbn [attr].
      now rewrite (ds_run_aligned p0 r Hp Hlen Hrect).
    + destruct pr; cbn; [|reflexivity].
      destruct (Hpred eq_refl) as (p0 & -> & Hp). cbn [attr].
      now rewrite (ds_run_aligned p0 r Hp Hlen Hrect).
  - destruct pr; cbn; [|reflexivity].
    destruct (Hpred eq_refl) as (p0 & -> & Hp). cbn [attr].
    now rewrite (ds_run_aligned p0 r Hp Hlen Hrect).
Qed.

End Downsample.

(** X16.  [downsample] on an instance whose tables are aligned, with
    [0 < n_samples < number of items]: it returns, every subject keeps its
    row, the ratings have [ceil(N / n_samples)] columns, and column [g] is
    the mean of the rated cells among the samples
    [g * n_samples .. g * n_samples + n_samples - 1] (the last bin takes
    what is left).  The flags are kept and the tables stay aligned. *)
Theorem downsample_averages_bins (ty : target_type) (f tg n N : nat)
  (s : BaseCF) :
  n_samples_of ty f tg = Ok n -> (0 < n)%nat -> (n < N)%nat ->
  (0 < length (ratings s))%nat -> rect N (ratings s) -> tables_aligned s ->
  let s' := snd (downsample (Some f) (Some tg) (Some ty) s) in
  let c := ((N + n - 1) / n)%nat in
  fst (downsample (Some f) (Some tg) (Some ty) s) = Ok tt /\
  length (ratings s') = length (ratings s) /\ rect c (ratings s') /\
  (forall i g r, ratings s !! i = Some r -> (g < c)%nat ->
     cell (ratings s') i g = nanmean (take n (drop (g * n) r))) /\
  is_fit s' = is_fit s /\ is_predict s' = is_predict s /\
  is_mask s' = is_mask s /\ is_mask_dilated s' = is_mask_dilated s /\
  tables_aligned s'.
Proof.
  intros Hcount Hpos Hwide Hlen Hrect Hal. cbn zeta.
  rewrite (downsample_run ty f tg n N Hcount Hpos Hwide s Hlen Hrect Hal).
  cbn [fst snd ratings is_fit is_predict is_mask is_mask_dilated].
  destruct (bins_shape n N (ratings s)) as [Hl Hr].
  split; [reflexivity|]. split; [exact Hl|]. split; [exact Hr|].
  split; [intros i g r; apply bins_cell|].
  do 4 (split; [reflexivity|]).
  destruct Hal as (Hmask & Hdil & Hpred).
  unfold tables_aligned.
  cbn [ratings is_predict is_mask is_mask_dilated train_mask masked_ratings
       dilated_mask predicted_ratings].
  assert (Hm : forall m : list (list bool), same_shape m (ratings s) ->
     same_shape
       (positive (map (fun r => map (fun g => nanmean (take n (drop (g * n) r)))
                                    (seq 0 ((N + n - 1) / n)))
                      (mask_values m)))
       (map (fun r => map (fun g => nanmean (take n (drop (g * n) r)))
                          (seq 0 ((N + n - 1) / n))) (ratings s))).
  { intros m Hs. eapply same_shape_trans; [apply same_shape_map_map|].
    apply bins_same_shape; try assumption.
    unfold mask_values. rewrite length_map.
    exact (same_shape_length _ _ Hs). }
  repeat split.
  - intros Em. rewrite Em. destruct (Hmask Em) as (tm & mr & -> & -> & Htm & Hmr).
    do 2 eexists. split; [reflexivity|]. split; [reflexivity|]. split.
    + apply Hm, Htm.
    + apply bins_same_shape; try assumption.
      exact (same_shape_length _ _ Hmr).
  - intros Em Ed. rewrite Em, Ed. destruct (Hdil Em Ed) as (dm & -> & Hdm).
    eexists. split; [reflexivity|]. apply Hm, Hdm.
  - intros Ep. rewrite Ep. destruct (Hpred Ep) as (p & -> & Hp).
    eexists. split; [reflexivity|].
    apply bins_same_shape; try assumption.
    exact (same_shape_length _ _ Hp).
Qed.

(** Witness of [downsample_averages_bins]: [ratings_sparse], four samples
    in bins of three. *)
Lemma downsample_averages_bins_witness :
  let s' := snd (downsample (Some 1%nat) (Some 3%nat) (Some samples)
                   (BaseCF_init ratings_sparse None)) in
  rect 2 (ratings s') /\ cell (ratings s') 1 0 = Fin (5 # 2) /\
  cell (ratings s') 1 1 = NaN.
Proof.
  cbn zeta.
  destruct (downsample_averages_bins samples 1 3 3 4
              (BaseCF_init ratings_sparse None))
    as (_ & _ & Hr & Hc & _).
  - reflexivity.
  - lia.
  - lia.
  - cbn. lia.
  - repeat constructor.
  - split; [|split].
    + intros _. do 2 eexists.
      split; [reflexivity|]. split; [reflexivity|]. split; reflexivity.
    + discriminate.
    + discriminate.
  - split; [exact Hr|]. split.
    + exact (Hc 1%nat 0%nat _ eq_refl ltac:(cbn; lia)).
    + exact (Hc 1%nat 1%nat _ eq_refl ltac:(cbn; lia)).
Defined.

(** X17.  [downsample] on a masked instance: a bin is in the new train
    mask as soon as one of its samples was, and the new masked ratings
    hold per bin the mean of the cells present in the old ones. *)
Theorem downsample_rebinarises_masks (ty : target_type) (f tg n N : nat)
  (s : BaseCF) (tm : list (list bool)) (mr : list (list flt)) :
  n_samples_of ty f tg = Ok n -> (0 < n)%nat -> (n < N)%nat ->
  (0 < length (ratings s))%nat -> rect N (ratings s) -> tables_aligned s ->
  is_mask s = true -> train_mask s = Some tm -> masked_ratings s = Some mr ->
  let s' := snd (downsample (Some f) (Some tg) (Some ty) s) in
  let c := ((N + n - 1) / n)%nat in
  exists tm' mr',
    train_mask s' = Some tm' /\ masked_ratings s' = Some mr' /\
    same_shape tm' (ratings s') /\ same_shape mr' (ratings s') /\
    (forall i g r, tm !! i = Some r -> (g < c)%nat ->
       mcell tm' i g = existsb id (take n (drop (g * n) r))) /\
    (forall i g r, mr !! i = Some r -> (g < c)%nat ->
       cell mr' i g = nanmean (take n (drop (g * n) r))).
Proof.
  intros Hcount Hpos Hwide Hlen Hrect Hal Em Etm Emr. cbn zeta.
  rewrite (downsample_run ty f tg n N Hcount Hpos Hwide s Hlen Hrect Hal).
  cbn [snd ratings train_mask masked_ratings]. rewrite Em, Etm, Emr.
  destruct Hal as (Hmask & _).
  destruct (Hmask Em) as (tm0 & mr0 & E1 & E2 & Htm & Hmr).
  rewrite Etm in E1. rewrite Emr in E2.
  injection E1 as <-. injection E2 as <-.
  do 2 eexists. split; [reflexivity|]. split; [reflexivity|].
  split; [|split; [|split]].
  - eapply same_shape_trans; [apply same_shape_map_map|].
    apply bins_same_shape; try assumption.
    unfold mask_values. rewrite length_map.
    exact (same_shape_length _ _ Htm).
  - apply bins_same_shape; try assumption.
      exact (same_shape_length _ _ Hmr).
  - intros i g r. apply positive_bins_cell.
  - intros i g r. apply bins_cell.
Qed.

(** Witness of [downsample_rebinarises_masks]: [ratings_sparse], masked by
    its missing cells, four samples in bins of three. *)
Lemma downsample_rebinarises_masks_witness :
  exists tm',
    train_mask (snd (downsample (Some 1%nat) (Some 3%nat) (Some samples)
                       (BaseCF_init ratings_sparse None))) = Some tm' /\
    mcell tm' 0 0 = true /\ mcell tm' 1 1 = false.
Proof.
  destruct (downsample_rebinarises_masks samples 1 3 3 4
              (BaseCF_init ratings_sparse None)
              (notnull ratings_sparse) ratings_sparse)
    as (tm' & mr' & Htm & _ & _ & _ & Hc & _).
  - reflexivity.
  - lia.
  - lia.
  - cbn. lia.
  - repeat constructor.
  - split; [|split].
    + intros _. do 2 eexists.
      split; [reflexivity|]. split; [reflexivity|]. split; reflexivity.
    + discriminate.
    + discriminate.
  - reflexivity.
  - reflexivity.
  - reflexivity.
  - exists tm'. split; [exact Htm|]. split.
    + exact (Hc 0%nat 0%nat _ eq_refl ltac:(cbn; lia)).
    + exact (Hc 1%nat 1%nat _ eq_refl ltac:(cbn; lia)).
Defined.

(** X18.  [downsample] to bins at least as wide as the series fails: with
    [n_samples >= number of items > 0] no label is drawn and [idx[-1]]
    raises [IndexError]; with [n_samples = 0] the division raises.  The
    instance is left as it was. *)
Theorem downsample_too_coarse (ty : target_type) (f tg n N : nat)
  (s : BaseCF) :
  n_samples_of ty f tg = Ok n -> (0 < N)%nat -> (n = 0 \/ N <= n)%nat ->
  (0 < length (ratings s))%nat -> rect N (ratings s) ->
  downsample (Some f) (Some tg) (Some ty) s
  = (Raise (if (n =? 0)%nat then ZeroDivisionError else IndexError), s).
Proof.
  intros Hcount HN Hn Hlen Hrect.
  unfold downsample, bind, get, lift, ds, rbind.
  rewrite Hcount, (rect_shape N (ratings s) Hrect Hlen).
  unfold ds_index, np_arange_1.
  destruct (Nat.eqb_spec n 0) as [E|E]; [reflexivity|].
  assert (Hc : ((N + n - 1) / n = 1)%nat).
  { apply (div_block n (N + n - 1) 1); lia. }
  rewrite Hc. change (seq 1 (1 - 1)) with (@nil nat).
  unfold np_repeat, np_sort. cbn [flat_map fold_right length last].
  destruct N as [|N']; [lia|]. reflexivity.
Qed.

(** Witness of [downsample_too_coarse]: the four samples of
    [ratings_sparse] into one bin of four. *)
Lemma downsample_too_coarse_witness :
  downsample (Some 1%nat) (Some 4%nat) (Some samples)
    (BaseCF_init ratings_sparse None)
  = (Raise IndexError, BaseCF_init ratings_sparse None).
Proof.
  apply (downsample_too_coarse samples 1 4 4 4
           (BaseCF_init ratings_sparse None)).
  - reflexivity.
  - lia.
  - right. lia.
  - cbn. lia.
  - repeat constructor.
Defined.

(** *** Dilation asked of an instance without a mask *)

Lemma dilate_unmasked (n : nat) (s : BaseCF) :
  is_mask s = false ->
  _dilate_ts_rating_samples (Some n) s = (Raise no_mask_error, s).
Proof.
  intros E. unfold _dilate_ts_rating_samples, bind, get, raise. now rewrite E.
Qed.

(** X19.  [fit(dilate_ts_n_samples=n)] on an instance that holds no mask:
    [Mean] and [NNMF_multiplicative] ignore the request and fit as without
    it, where [KNN] and [NNMF_sgd] raise the missing-mask error and leave
    the instance as it was. *)
Theorem dilation_without_mask (sqrtQ : Q -> Q) (n : nat)
  (tm : Mean) (tk : KNN) (tn : NNMF_multiplicative) (ts : NNMF_sgd)
  (metric : string) (fuel : nat) (nf : option nat) (mx : Z) (lim : flt)
  (rand_H rand_W : list (list flt)) (p : sgd_params) (it : Z)
  (nu ni : list (list flt)) (sh : list (list nat)) :
  is_mask (base tm) = false -> is_mask (base tk) = false ->
  is_mask (base tn) = false -> is_mask (base ts) = false ->
  Mean_fit (Some n) tm = Mean_fit None tm /\
  NNMF_multiplicative_fit sqrtQ fuel nf mx lim (Some n) rand_H rand_W tn
  = NNMF_multiplicative_fit sqrtQ fuel nf mx lim None rand_H rand_W tn /\
  KNN_fit sqrtQ metric (Some n) tk = (Raise no_mask_error, tk) /\
  NNMF_sgd_fit nf p it (Some n) nu ni sh ts = (Raise no_mask_error, ts).
Proof.
  intros Em Ek En Es. repeat split.
  - unfold Mean_fit, bind, get. now rewrite Em.
  - unfold NNMF_multiplicative_fit, mult_setup, bind, get. now rewrite En.
  - unfold KNN_fit, bind, get, ret, on_base.
    rewrite Ek, (dilate_unmasked n (base tk) Ek). cbn [fst snd].
    now destruct tk.
  - unfold NNMF_sgd_fit, bind, get, ret, on_base.
    rewrite (dilate_unmasked n (base ts) Es). cbn [fst snd].
    now destruct ts.
Qed.

(** Witness of [dilation_without_mask]: the complete table [ratings_a]. *)
Lemma dilation_without_mask_witness :
  Mean_fit (Some 3%nat) (Mean_init ratings_a None)
  = Mean_fit None (Mean_init ratings_a None) /\
  KNN_fit sqrt_floor "cosine" (Some 3%nat) (KNN_init ratings_a None)
  = (Raise no_mask_error, KNN_init ratings_a None).
Proof.
  destruct (dilation_without_mask sqrt_floor 3
              (Mean_init ratings_a None) (KNN_init ratings_a None)
              (NNMF_multiplicative_init ratings_a None)
              (NNMF_sgd_init ratings_a None)
              "cosine" 0 None 1 default_fit_error_limit [] []
              {| p_item_fact_reg := q_ 0; p_user_fact_reg := q_ 0;
                 p_item_bias_reg := q_ 0; p_user_bias_reg := q_ 0;
                 p_learning_rate := half |} 0 [] [] [])
    as (Hm & _ & Hk & _); try reflexivity.
  split; [exact Hm|exact Hk].
Defined.

(** *** The dictionary behind [plot_predictions] *)

Lemma find_app_key (k : string) (d e : list (string * kwval)) :
  List.find (fun x => String.eqb (fst x) k) (d ++ e)
  = match List.find (fun x => String.eqb (fst x) k) d with
    | Some x => Some x
    | None => List.find (fun x => String.eqb (fst x) k) e
    end.
Proof.
  induction d as [|x d IH]; [reflexivity|].
  cbn [app List.find]. destruct (String.eqb (fst x) k); [reflexivity|exact IH].
Qed.

(** A key the dictionary holds keeps its value through [setdefault]. *)
Lemma setdefault_keeps (k k' : string) (v v' : kwval)
  (d : list (string * kwval)) :
  kw_get k d = Some v -> kw_get k (setdefault k' v' d) = Some v.
Proof.
  intros H. unfold setdefault.
  destruct (kw_get k' d); [exact H|].
  unfold kw_get in *. rewrite find_app_key.
  destruct (List.find _ d); [exact H|discriminate].
Qed.

(** The dictionary [plot_body] leaves, once the instance is fitted and
    predicted and holds the tables it reads. *)
Lemma plot_body_dict (sqrtQ : Q -> Q) (data : string) (s : BaseCF)
  (r p : list (list flt)) (d : list (string * kwval)) :
  is_fit s = true -> is_predict s = true ->
  (if is_mask s then masked_ratings s = Some r else r = ratings s) ->
  predicted_ratings s = Some p ->
  snd (plot_body sqrtQ data s d)
  = setdefault "vmin"
      (KNum (if fltb (df_min r) (df_min p) then df_min r else df_min p))
      (setdefault "vmax"
         (KNum (if fltb (df_max p) (df_max r) then df_max r else df_max p))
         (setdefault "yticklabels" (KBool false)
            (setdefault "xticklabels" (KBool false)
               (setdefault "square" (KBool false) d)))).
Proof.
  intros Hfit Hpred Hr Hp.
  unfold plot_body, bind, lift, modify, raise.
  rewrite Hfit, Hpred, Hp. cbn [negb attr].
  assert (E : (if is_mask s then attr "masked_ratings" (masked_ratings s)
               else Ok (ratings s)) = Ok r).
  { destruct (is_mask s); [now rewrite Hr|now subst r]. }
  rewrite E.
  destruct (_retrieve_predictions data s); [|reflexivity].
  destruct (get_corr sqrtQ data s); reflexivity.
Qed.

(** X20.  The default [heatmapkwargs = {}] of [plot_predictions] is one
    dictionary shared by all calls that pass none.  The first such call in
    a process stores the colour limits of its instance in it,
    [vmax = max(ratings, predicted)] and [vmin = min(ratings, predicted)];
    every later call, on whatever instance and selection, draws with
    these limits and not with those of its own data. *)
Theorem plot_predictions_shares_colour_limits (sqrtQ : Q -> Q)
  (data1 data2 : string) (s1 s2 : BaseCF) (r1 p1 r2 p2 : list (list flt)) :
  is_fit s1 = true -> is_predict s1 = true ->
  (if is_mask s1 then masked_ratings s1 = Some r1 else r1 = ratings s1) ->
  predicted_ratings s1 = Some p1 ->
  is_fit s2 = true -> is_predict s2 = true ->
  (if is_mask s2 then masked_ratings s2 = Some r2 else r2 = ratings s2) ->
  predicted_ratings s2 = Some p2 ->
  let d1 := snd (plot_predictions sqrtQ data1 None s1 []) in
  let d2 := snd (plot_predictions sqrtQ data2 None s2 d1) in
  kw_get "vmax" d1
  = Some (KNum (if fltb (df_max p1) (df_max r1) then df_max r1 else df_max p1)) /\
  kw_get "vmin" d1
  = Some (KNum (if fltb (df_min r1) (df_min p1) then df_min r1 else df_min p1)) /\
  kw_get "vmax" d2 = kw_get "vmax" d1 /\
  kw_get "vmin" d2 = kw_get "vmin" d1.
Proof.
  intros Hf1 Hpr1 Hr1 Hp1 Hf2 Hpr2 Hr2 Hp2. cbn zeta.
  assert (Hsnd : forall data s d,
            snd (plot_predictions sqrtQ data None s d)
            = snd (plot_body sqrtQ data s d)).
  { intros data s d. unfold plot_predictions.
    now destruct (plot_body sqrtQ data s d). }
  rewrite !Hsnd.
  rewrite (plot_body_dict sqrtQ data2 s2 r2 p2 _ Hf2 Hpr2 Hr2 Hp2).
  rewrite (plot_body_dict sqrtQ data1 s1 r1 p1 [] Hf1 Hpr1 Hr1 Hp1).
  set (vmax1 := KNum (if fltb (df_max p1) (df_max r1) then df_max r1 else df_max p1)).
  set (vmin1 := KNum (if fltb (df_min r1) (df_min p1) then df_min r1 else df_min p1)).
  assert (Hmax : kw_get "vmax"
            (setdefault "vmin" vmin1
               (setdefault "vmax" vmax1
                  (setdefault "yticklabels" (KBool false)
                     (setdefault "xticklabels" (KBool false)
                        (setdefault "square" (KBool false) [])))))
          = Some vmax1) by reflexivity.
  assert (Hmin : kw_get "vmin"
            (setdefault "vmin" vmin1
               (setdefault "vmax" vmax1
                  (setdefault "yticklabels" (KBool false)
                     (setdefault "xticklabels" (KBool false)
                        (setdefault "square" (KBool false) [])))))
          = Some vmin1) by reflexivity.
  split; [exact Hmax|]. split; [exact Hmin|]. split.
  - rewrite Hmax. do 5 apply setdefault_keeps. exact Hmax.
  - rewrite Hmin. do 5 apply setdefault_keeps. exact Hmin.
Qed.

(** Witness of [plot_predictions_shares_colour_limits]: [Mean] on
    [ratings_a], then on [ratings_b], whose largest rating is 9. *)
Lemma plot_predictions_shares_colour_limits_witness :
  let t1 := snd (Mean_predict (snd (Mean_fit None (Mean_init ratings_a None)))) in
  let t2 := snd (Mean_predict (snd (Mean_fit None (Mean_init ratings_b None)))) in
  let d1 := snd (plot_predictions sqrt_floor "all" None (base t1) []) in
  let d2 := snd (plot_predictions sqrt_floor "all" None (base t2) d1) in
  kw_get "vmax" d2 = Some (KNum (q_ 7)) /\ df_max (ratings (base t2)) = q_ 9.
Proof.
  cbn zeta.
  destruct (plot_predictions_shares_colour_limits sqrt_floor "all" "all"
              (base (snd (Mean_predict
                            (snd (Mean_fit None (Mean_init ratings_a None))))))
              (base (snd (Mean_predict
                            (snd (Mean_fit None (Mean_init ratings_b None))))))
              ratings_a [[q_ 1; q_ 6]; [q_ 1; q_ 6]]
              ratings_b [[q_ 1; q_ 7]; [q_ 1; q_ 7]])
    as (H1 & _ & H2 & _); try reflexivity.
  split; [|reflexivity].
  rewrite H2. exact H1.
Defined.

(** *** Sizes of the training and test selections after a split *)

Lemma split_mask_counts (t : list (list flt)) (draws : list (list nat))
  (ncols k : nat) :
  rect ncols t -> length draws = length t ->
  Forall (valid_choice ncols k) draws ->
  Forall (fun r => count_true r = k /\ length r = ncols) (split_mask t draws).
Proof.
  intros Hrect Hlen Hvalid.
  apply Forall_lookup. intros i r Hr.
  rewrite split_mask_lookup in Hr.
  destruct (t !! i) as [ri|] eqn:Hri; [|discriminate].
  injection Hr as <-.
  assert (Hi : (i < length draws)%nat)
    by (rewrite Hlen; now apply lookup_lt_Some in Hri).
  destruct (lookup_lt_is_Some_2 draws i Hi) as [d Hd]. rewrite Hd.
  change (default [] (Some d)) with d.
  rewrite Forall_lookup in Hvalid.
  destruct (Hvalid i d Hd) as (Hdk & Hnd & Hlt).
  pose proof (rect_lookup ncols t i ri Hrect Hri) as Hl.
  split.
  - rewrite count_true_mark_row; [exact Hdk|exact Hnd|]. now rewrite Hl.
  - now rewrite mark_row_length, length_map.
Qed.

Lemma select_row_length {A} (r : list A) (m : list bool) :
  length r = length m -> length (select_row r m) = count_true m.
Proof.
  unfold select_row, count_true. rewrite length_map. revert m.
  induction r as [|x r IH]; intros [|b m] Hl; cbn in *; try lia.
  destruct b; cbn; rewrite IH by lia; reflexivity.
Qed.

Lemma count_true_negb (r : list bool) :
  count_true (map negb r) = (length r - count_true r)%nat.
Proof.
  unfold count_true. induction r as [|b r IH]; [reflexivity|].
  cbn [map List.filter length]. destruct b; cbn [negb length].
  - rewrite IH. lia.
  - rewrite IH.
    pose proof (List.filter_length_le (fun b : bool => b) r). lia.
Qed.

(** A selection under a mask with [k] true cells per row. *)
Lemma select_length (t : list (list flt)) (m : list (list bool)) (k : nat)
  (l : list flt) :
  Forall (fun r => count_true r = k) m ->
  select t m = Ok l -> length l = (k * length m)%nat.
Proof.
  unfold select, same_shapeb. intros Hk.
  destruct (bool_decide_reflect (map length t = map length m)) as [Hs|];
    [|discriminate].
  intros [= <-]. revert t Hs.
  induction Hk as [|r m Hr Hk IH]; intros [|x t] Hs; cbn in *;
    try discriminate; [lia|].
  injection Hs as Hx Hs.
  rewrite length_app, (IH t Hs), (select_row_length x r Hx), Hr. lia.
Qed.

(** X21.  After [split_train_test(k)] on [n] subjects with [ncols] items
    each, and a prediction of the shape of the ratings, the 'training'
    selection holds [k * n] pairs of actual and predicted values and the
    'test' selection, when it has data, the other [(ncols - k) * n]. *)
Theorem split_then_retrieve_sizes (s s' : BaseCF) (k ncols : nat)
  (draws : list (list nat)) (p : list (list flt)) :
  rect ncols (ratings s) -> (k <= ncols)%nat ->
  length draws = length (ratings s) ->
  Forall (valid_choice ncols k) draws ->
  ratings s' = ratings s ->
  is_mask s' = true ->
  train_mask s' = train_mask (snd (split_train_test k draws s)) ->
  masked_ratings s' = masked_ratings (snd (split_train_test k draws s)) ->
  predicted_ratings s' = Some p -> same_shape p (ratings s) ->
  (exists a b,
     _retrieve_predictions "training" s' = Ok (a, b) /\
     length a = (k * length (ratings s))%nat /\
     length b = (k * length (ratings s))%nat) /\
  (forall a b,
     _retrieve_predictions "test" s' = Ok (a, b) ->
     length a = ((ncols - k) * length (ratings s))%nat /\
     length b = ((ncols - k) * length (ratings s))%nat).
Proof.
  intros Hrect Hk Hlen Hvalid Er Em Etm Emr Ep Hp.
  rewrite (split_train_test_run s k ncols draws Hrect Hk) in Etm, Emr.
  cbn in Etm, Emr.
  set (m := split_mask (ratings s) draws) in *.
  pose proof (split_mask_counts (ratings s) draws ncols k Hrect Hlen Hvalid)
    as Hcount. fold m in Hcount.
  assert (Hshape : same_shape m (ratings s)) by apply split_mask_shape.
  assert (Hcnt : Forall (fun r => count_true r = k) m).
  { eapply Forall_impl; [exact Hcount|]. now intros r [H _]. }
  assert (Hinv : Forall (fun r => count_true r = (ncols - k)%nat) (invert m)).
  { unfold invert. apply Forall_forall. intros r Hr.
    apply list_elem_of_In, in_map_iff in Hr as (r0 & <- & Hr0).
    rewrite Forall_forall in Hcount.
    destruct (Hcount r0 (proj2 (list_elem_of_In _ _) Hr0)) as [Hc Hl].
    now rewrite count_true_negb, Hc, Hl. }
  assert (Hlm : length m = length (ratings s))
    by exact (same_shape_length _ _ Hshape).
  assert (Hlinv : length (invert m) = length (ratings s))
    by (unfold invert; now rewrite length_map).
  split.
  - unfold _retrieve_predictions. cbn [existsb String.eqb Ascii.eqb Bool.eqb
                                         orb negb].
    rewrite Em, Etm, Ep, Emr. cbn [attr rbind].
    destruct (select_same_shape_ok (where_mask (ratings s) m) m) as [a Ha].
    { eapply same_shape_trans; [apply where_mask_shape|].
      now apply same_shape_sym. }
    destruct (select_same_shape_ok p m) as [b Hb].
    { eapply same_shape_trans; [exact Hp|now apply same_shape_sym]. }
    rewrite Ha, Hb. exists a, b. split; [reflexivity|].
    rewrite <- Hlm. split; eapply select_length; eauto.
  - intros a b. unfold _retrieve_predictions.
    cbn [existsb String.eqb Ascii.eqb Bool.eqb orb negb].
    rewrite Em, Etm, Ep, Er. cbn [attr rbind].
    destruct (select (ratings s) (invert m)) as [a'|] eqn:Ha; [|discriminate].
    destruct (select p (invert m)) as [b'|] eqn:Hb; [|discriminate].
    cbn [rbind]. destruct (forallb isnan a'); [discriminate|].
    intros [= <- <-]. rewrite <- Hlinv.
    split; eapply select_length; eauto.
Qed.

(** Witness of [split_then_retrieve_sizes]: [ratings_a] split on one item
    per subject and predicted by [Mean]. *)
Lemma split_then_retrieve_sizes_witness :
  let t := snd (Mean_predict
                  (snd (Mean_fit None
                          {| mean_base := snd (split_train_test 1 [[0%nat]; [1%nat]]
                                                 (BaseCF_init ratings_a None));
                             mean := None |}))) in
  exists a b,
    _retrieve_predictions "training" (base t) = Ok (a, b) /\
    length a = 2%nat /\ length b = 2%nat.
Proof.
  cbn zeta.
  destruct (split_then_retrieve_sizes (BaseCF_init ratings_a None)
              (base (snd (Mean_predict
                  (snd (Mean_fit None
                          {| mean_base := snd (split_train_test 1 [[0%nat]; [1%nat]]
                                                 (BaseCF_init ratings_a None));
                             mean := None |})))))
              1 2 [[0%nat]; [1%nat]] [[q_ 1; q_ 7]; [q_ 1; q_ 7]])
    as [(a & b & H) _].
  - repeat constructor.
  - lia.
  - reflexivity.
  - repeat constructor; cbn; try lia; intros H; inversion H;
      match goal with H' : _ ∈ [] |- _ => inversion H' end.
  - reflexivity.
  - reflexivity.
  - reflexivity.
  - reflexivity.
  - reflexivity.
  - reflexivity.
  - exists a, b. exact H.
Defined.

(** *** What [Mean] predicts, with and without a mask *)

Lemma where_mask_own_cells (t : list (list flt)) :
  where_mask t (notnull t) = t.
Proof.
  apply list_eq. intros i. rewrite where_mask_row.
  destruct (t !! i) as [r|] eqn:Hr; [|reflexivity]. cbn. f_equal.
  apply list_eq. intros j. rewrite list_lookup_imap.
  destruct (r !! j) as [x|] eqn:Hx; [|reflexivity]. cbn. f_equal.
  unfold mcell, notnull. rewrite lookup_map, Hr. cbn.
  rewrite lookup_map, Hx. cbn. now destruct x.
Qed.

(** The dilation on a masked instance with [1 <= n <= ncols]. *)
Lemma dilate_run (s : BaseCF) (m : list (list bool)) (n ncols : nat) :
  is_mask s = true -> train_mask s = Some m ->
  rect ncols (ratings s) -> (1 <= n <= ncols)%nat ->
  let d := map (_conv_ts_mean_overlap n) (where_mask (ratings s) m) in
  _dilate_ts_rating_samples (Some n) s =
  (Ok d,
   set_is_mask_dilated true
     (set_dilated_mask (Some (notnull d))
        (set_masked_ratings (Some d)
           (set_masked_ratings (Some (where_mask (ratings s) m)) s)))).
Proof.
  intros Hmask Htm Hrect Hn. cbn zeta.
  set (mr := where_mask (ratings s) m).
  assert (Hrect' : rect ncols mr).
  { apply (rect_same_shape ncols mr (ratings s)); [apply where_mask_shape|exact Hrect]. }
  unfold _dilate_ts_rating_samples, bind, get, raise, lift, modify, ret.
  rewrite Hmask, Htm. cbn [negb attr]. fold mr.
  assert (Hc1 : negb (length mr =? 0)%nat
                && ((n =? 0)%nat || (snd (shape mr) =? 0)%nat) = false).
  { destruct mr as [|r0 mr'] eqn:E; [reflexivity|]. cbn.
    apply Forall_cons in Hrect' as [-> _].
    apply orb_false_iff. split; apply Nat.eqb_neq; lia. }
  assert (Hc2 : negb (length mr =? 0)%nat && (snd (shape mr) <? n)%nat = false).
  { destruct mr as [|r0 mr'] eqn:E; [reflexivity|]. cbn.
    apply Forall_cons in Hrect' as [-> _]. apply Nat.ltb_ge. lia. }
  rewrite Hc1, Hc2. reflexivity.
Qed.

(** [Mean.fit] returns and leaves the column means of its training
    table. *)
Lemma Mean_fit_run (t : Mean) (d : option nat) (ncols : nat) :
  rect ncols (ratings (base t)) ->
  (is_mask (base t) = true ->
   exists mr tm, masked_ratings (base t) = Some mr /\
                 train_mask (base t) = Some tm /\
                 same_shape mr (ratings (base t))) ->
  (is_mask (base t) = true -> forall n, d = Some n -> (1 <= n <= ncols)%nat) ->
  fst (Mean_fit d t) = Ok tt /\
  mean (snd (Mean_fit d t)) = Some (col_means (Mean_training d (base t))) /\
  ratings (base (snd (Mean_fit d t))) = ratings (base t) /\
  is_fit (base (snd (Mean_fit d t))) = true /\
  same_shape (Mean_training d (base t)) (ratings (base t)).
Proof.
  intros Hrect Hmask Hd.
  unfold Mean_fit, Mean_training, bind, get, ret, lift, modify, on_base.
  destruct (is_mask (base t)) eqn:Em.
  - destruct (Hmask eq_refl) as (mr & tm & Emr & Etm & Hs).
    destruct d as [n|].
    + rewrite (dilate_run (base t) tm n ncols Em Etm Hrect (Hd eq_refl n eq_refl)).
      rewrite Etm. cbn -[col_means where_mask _conv_ts_mean_overlap notnull].
      rewrite where_mask_own_cells.
      repeat split; try reflexivity.
      eapply same_shape_trans; [|apply where_mask_shape].
      apply same_shape_map, conv_length.
    + rewrite Emr, Etm. cbn -[col_means where_mask].
      repeat split; try reflexivity.
      eapply same_shape_trans; [apply where_mask_shape|exact Hs].
  - cbn -[col_means]. repeat split; reflexivity.
Qed.

(** [Mean.predict] gives every subject the fitted mean of each item. *)
Lemma Mean_predict_cell (t : Mean) (ncols i j : nat) :
  is_fit (base t) = true -> rect ncols (ratings (base t)) ->
  (i < length (ratings (base t)))%nat -> (j < ncols)%nat ->
  fst (Mean_predict t) = Ok tt /\
  exists p, predicted_ratings (base (snd (Mean_predict t))) = Some p /\
            cell p i j = default NaN (default [] (mean t) !! j).
Proof.
  destruct t as [b mu]. cbn [base Mean_Model mean_base mean]. 
  intros Hfit Hrect Hi Hj.
  unfold Mean_predict, bind, get, raise, on_base, modify.
  cbn [base Mean_Model mean_base mean with_base fst snd].
  rewrite Hfit. cbn [negb fst snd predicted_ratings set_is_predict
                     set_predicted_ratings].
  split; [reflexivity|]. eexists. split; [reflexivity|].
  unfold cell. rewrite lookup_map.
  destruct (lookup_lt_is_Some_2 _ i Hi) as [ri Hri]. rewrite Hri.
  cbn -[broadcast_row].
  unfold broadcast_row. rewrite list_lookup_imap.
  pose proof (rect_lookup ncols _ i ri Hrect Hri) as Hlen.
  destruct (lookup_lt_is_Some_2 ri j ltac:(lia)) as [x Hx]. rewrite Hx.
  reflexivity.
Qed.

(** X4.  [Mean.fit] followed by [Mean.predict], on an instance with
    [ncols] items per subject, masked or not (a masked one holds masked
    ratings of the shape of the ratings, and is asked for a dilation of at
    least one and at most [ncols] samples, if for any): both return, and
    every cell of the prediction is the mean of the present cells of its
    item in the training table -- the ratings when there is no mask, the
    masked ratings under the train mask when there is one, their dilation
    when one is asked for.  All subjects are predicted the same. *)
Theorem Mean_predicts_item_means (t : Mean) (d : option nat)
  (ncols i j : nat) :
  rect ncols (ratings (base t)) ->
  (is_mask (base t) = true ->
   exists mr tm, masked_ratings (base t) = Some mr /\
                 train_mask (base t) = Some tm /\
                 same_shape mr (ratings (base t))) ->
  (is_mask (base t) = true -> forall n, d = Some n -> (1 <= n <= ncols)%nat) ->
  (i < length (ratings (base t)))%nat -> (j < ncols)%nat ->
  let out := and_then (Mean_fit d t) Mean_predict in
  fst out = Ok tt /\
  exists p, predicted_ratings (base (snd out)) = Some p /\
            cell p i j = nanmean (column (Mean_training d (base t)) j).
Proof.
  intros Hrect Hmask Hd Hi Hj. cbn zeta.
  destruct (Mean_fit_run t d ncols Hrect Hmask Hd)
    as (Hok & Hmean & Hrat & Hfit & Hshape).
  destruct (Mean_fit d t) as [res t1]. cbn [fst snd] in *. subst res.
  cbn [and_then].
  destruct (Mean_predict_cell t1 ncols i j) as (Hok' & p & Hp & Hc);
    [exact Hfit|now rewrite Hrat|now rewrite Hrat|exact Hj|].
  split; [exact Hok'|]. exists p. split; [exact Hp|].
  rewrite Hc, Hmean. cbn [default id].
  rewrite col_means_lookup; [reflexivity|].
  assert (Hr : rect ncols (Mean_training d (base t)))
    by exact (rect_same_shape ncols _ _ Hshape Hrect).
  rewrite (rect_shape ncols _ Hr); [exact Hj|].
  rewrite (same_shape_length _ _ Hshape). lia.
Qed.

(** Witness of [Mean_predicts_item_means]: [ratings_3x2] under the
    caller's mask, whose second item is trained on by the third subject
    only. *)
Lemma Mean_predicts_item_means_witness :
  exists p,
    predicted_ratings
      (base (snd (and_then (Mean_fit None (Mean_init ratings_3x2 (Some mask_3x2)))
                           Mean_predict))) = Some p /\
    cell p 0 1 = q_ 6.
Proof.
  destruct (Mean_predicts_item_means (Mean_init ratings_3x2 (Some mask_3x2))
              None 2 0 1) as [_ H].
  - repeat constructor.
  - intros _. do 2 eexists. split; [reflexivity|]. split; reflexivity.
  - discriminate.
  - cbn. lia.
  - lia.
  - exact H.
Defined.

(** *** Where a prediction has a value *)

Lemma rating_cell_cases (x : flt) :
  rating_cell x = true -> is_fin x = true \/ isnan x = true.
Proof. unfold rating_cell. intros H. now apply orb_true_iff in H. Qed.

Lemma is_fin_not_nan (x : flt) : is_fin x = true -> isnan x = false.
Proof. now destruct x. Qed.

(** The mean of a list of finite or missing cells is missing exactly when
    all of them are. *)
Lemma nanmean_isnan_iff (w : list flt) :
  Forall (fun c => rating_cell c = true) w ->
  isnan (nanmean w) = true <-> Forall (fun x => isnan x = true) w.
Proof.
  intros Hw. split.
  - intros Hnan. apply Forall_forall. intros x Hx.
    rewrite Forall_forall in Hw.
    destruct (rating_cell_cases x (Hw x Hx)) as [Hf|Hn]; [|exact Hn].
    destruct x as [q| | |]; try discriminate.
    pose proof (nanmean_fin w q (proj2 (Forall_forall _ _) Hw) Hx) as Hfin.
    apply is_fin_not_nan in Hfin. congruence.
  - intros Hall. unfold nanmean.
    assert (E : List.filter (fun x => negb (isnan x)) w = []).
    { clear Hw. induction Hall as [|x w Hx Hall IH]; [reflexivity|].
      cbn. now rewrite Hx. }
    now rewrite E.
Qed.

Lemma nanmean_rating_cell (w : list flt) :
  Forall (fun c => rating_cell c = true) w -> rating_cell (nanmean w) = true.
Proof.
  intros Hw. unfold rating_cell. apply orb_true_iff.
  destruct (isnan (nanmean w)) eqn:E; [now right|left].
  destruct (List.filter (fun x => negb (isnan x)) w) as [|x l] eqn:Ef.
  - unfold nanmean in E. now rewrite Ef in E.
  - assert (Hx : In x (List.filter (fun x => negb (isnan x)) w))
      by (rewrite Ef; now left).
    apply filter_In in Hx as [Hx Hn].
    rewrite Forall_forall in Hw.
    destruct (rating_cell_cases x (Hw x (proj2 (list_elem_of_In _ _) Hx)))
      as [Hf|Hnan]; [|rewrite Hnan in Hn; discriminate].
    destruct x as [q| | |]; try discriminate.
    apply (nanmean_fin w q); [now apply Forall_forall|].
    now apply list_elem_of_In.
Qed.

Lemma column_rating_cells (t : list (list flt)) (j : nat) :
  rating_table t -> Forall (fun c => rating_cell c = true) (column t j).
Proof.
  intros Ht. unfold column. apply Forall_forall. intros x Hx.
  apply list_elem_of_In, in_map_iff in Hx as (r & <- & Hr).
  destruct (r !! j) as [y|] eqn:Hy; [|reflexivity]. cbn.
  unfold rating_table in Ht. rewrite Forall_forall in Ht.
  specialize (Ht r (proj2 (list_elem_of_In _ _) Hr)).
  rewrite Forall_forall in Ht. apply Ht.
  now apply (list_elem_of_lookup_2 _ j).
Qed.

Lemma cell_rating_cell (t : list (list flt)) (i j : nat) :
  rating_table t -> rating_cell (cell t i j) = true.
Proof.
  intros Ht. unfold cell.
  destruct (t !! i) as [r|] eqn:Hr; [|reflexivity]. cbn.
  destruct (r !! j) as [x|] eqn:Hx; [|reflexivity]. cbn.
  unfold rating_table in Ht. rewrite Forall_lookup in Ht.
  specialize (Ht i r Hr). rewrite Forall_lookup in Ht. exact (Ht j x Hx).
Qed.

Lemma dilated_rating_table (n ncols : nat) (t : list (list flt)) :
  (1 <= n <= ncols)%nat -> rect ncols t -> rating_table t ->
  rating_table (map (_conv_ts_mean_overlap n) t).
Proof.
  intros Hn Hrect Ht. unfold rating_table.
  apply Forall_forall. intros r' Hr'.
  apply list_elem_of_In, in_map_iff in Hr' as (r & <- & Hr).
  apply list_elem_of_In in Hr.
  assert (Hlen : length r = ncols).
  { unfold rect in Hrect. rewrite Forall_forall in Hrect. now apply Hrect. }
  assert (Hcells : Forall (fun c => rating_cell c = true) r).
  { unfold rating_table in Ht. rewrite Forall_forall in Ht. now apply Ht. }
  apply Forall_lookup. intros i x Hx.
  assert (Hi : (i < length r)%nat).
  { apply lookup_lt_Some in Hx. now rewrite conv_length in Hx. }
  rewrite conv_ts_mean_overlap_lookup in Hx; [|lia|exact Hcells|exact Hi].
  injection Hx as <-. apply nanmean_rating_cell.
  unfold conv_window. destruct (n / 2 <=? i)%nat;
    auto using Forall_take, Forall_drop.
Qed.

Lemma Mean_training_rating_table (s : BaseCF) (d : option nat) (ncols : nat) :
  rect ncols (ratings s) -> rating_table (ratings s) ->
  (is_mask s = true ->
   exists mr tm, masked_ratings s = Some mr /\ train_mask s = Some tm /\
                 rating_table mr) ->
  (is_mask s = true -> forall n, d = Some n -> (1 <= n <= ncols)%nat) ->
  rating_table (Mean_training d s).
Proof.
  intros Hrect Ht Hmask Hd. unfold Mean_training.
  destruct (is_mask s); [|exact Ht].
  destruct (Hmask eq_refl) as (mr & tm & -> & -> & Hmr). cbn [default id].
  destruct d as [n|].
  - apply (dilated_rating_table n ncols); [exact (Hd eq_refl n eq_refl)| |].
    + apply (rect_same_shape ncols _ (ratings s));
        [apply where_mask_shape|exact Hrect].
    + now apply where_mask_rating_table.
  - now apply where_mask_rating_table.
Qed.

(** **** KNN *)

Lemma in_take {A} (n : nat) (l : list A) (x : A) :
  In x (take n l) -> In x l.
Proof.
  intros H. rewrite <- (firstn_skipn n l). apply in_or_app. now left.
Qed.

Lemma in_py_slice_to {A} (k : Z) (l : list A) (x : A) :
  In x (py_slice_to k l) -> In x l.
Proof.
  unfold py_slice_to. destruct (k <? 0); apply in_take.
Qed.

(** A neighbour carries a defined entry of the similarity row. *)
Lemma top_subjects_entry (sim_row : list flt) (i : nat) (k : option Z)
  (e : nat * flt) :
  In e (top_subjects sim_row i k) ->
  sim_row !! fst e = Some (snd e) /\ isnan (snd e) = false.
Proof.
  unfold top_subjects. intros H. apply filter_In in H as [H Hn].
  apply negb_true_iff in Hn. split; [|exact Hn].
  assert (Hs : In e (sort_desc (drop_self i sim_row))).
  { destruct k as [k'|]; [now apply in_py_slice_to in H|exact H]. }
  apply (Permutation_in _ (sort_desc_perm _)) in Hs.
  destruct e as [a v]. now apply drop_self_spec in Hs.
Qed.

Lemma fdiv_fin_count (a : Q) (n : nat) :
  is_fin (fdiv (Fin a) (of_nat (S n))) = true.
Proof.
  unfold fdiv, of_nat, of_Z, Qzero. cbn [inject_Z Qnum].
  destruct (Z.eqb_spec (Z.of_nat (S n)) 0) as [E|_]; [lia|reflexivity].
Qed.

Lemma np_sum_fin (l : list flt) :
  Forall (fun c => is_fin c = true) l -> is_fin (np_sum l) = true.
Proof. intros H. unfold np_sum, of_Z. now apply fold_fadd_fin. Qed.

(** With defined similarities and finite or missing ratings, the weighted
    average is missing exactly when there is no neighbour or a neighbour
    has not rated the item. *)
Lemma knn_cell_isnan_iff (full : list (list flt)) (top : list (nat * flt))
  (j : nat) :
  rating_table full ->
  Forall (fun e => is_fin (snd e) = true) top ->
  isnan (knn_cell full top j) = true <->
  top = [] \/ Exists (fun e => isnan (cell full (fst e) j) = true) top.
Proof.
  intros Hfull Htop. rewrite knn_cell_formula.
  destruct top as [|e0 top']; [split; [now left|reflexivity]|].
  set (top := e0 :: top') in *.
  assert (Hdec : Exists (fun e => isnan (cell full (fst e) j) = true) top \/
                 ~ Exists (fun e => isnan (cell full (fst e) j) = true) top).
  { destruct (existsb (fun e => isnan (cell full (fst e) j)) top) eqn:E.
    - left. apply existsb_exists in E as (e & He & Hn).
      apply Exists_exists. exists e. split; [now apply list_elem_of_In|exact Hn].
    - right. intros Hex. apply Exists_exists in Hex as (e & He & Hn).
      assert (existsb (fun e => isnan (cell full (fst e) j)) top = true); [|congruence].
      apply existsb_exists. exists e. split; [now apply list_elem_of_In|exact Hn]. }
  destruct Hdec as [Hex|Hnex].
  - split; [now right|]. intros _.
    assert (Hin : In NaN (map (fun e => fmul (snd e) (cell full (fst e) j)) top)).
    { apply Exists_exists in Hex as (e & He & Hn).
      apply in_map_iff. exists e. split; [|now apply list_elem_of_In].
      destruct (cell full (fst e) j); try discriminate.
      now destruct (snd e). }
    now rewrite (np_sum_NaN _ Hin).
  - split; [|intros [H|H]; [discriminate|contradiction]].
    intros Hnan. exfalso.
    assert (Hfin : Forall (fun c => is_fin c = true)
                     (map (fun e => fmul (snd e) (cell full (fst e) j)) top)).
    { apply Forall_forall. intros x Hx.
      apply list_elem_of_In, in_map_iff in Hx as (e & <- & He).
      apply list_elem_of_In in He.
      rewrite Forall_forall in Htop. specialize (Htop e He).
      assert (Hc : is_fin (cell full (fst e) j) = true).
      { destruct (rating_cell_cases _ (cell_rating_cell full (fst e) j Hfull))
          as [Hf|Hn]; [exact Hf|].
        exfalso. apply Hnex. apply Exists_exists. eauto. }
      destruct (snd e); try discriminate.
      destruct (cell full (fst e) j); try discriminate. reflexivity. }
    apply np_sum_fin in Hfin.
    destruct (np_sum _) as [a| | |]; try discriminate Hfin.
    unfold top in Hnan. cbn [length] in Hnan.
    pose proof (fdiv_fin_count a (length top')) as Hd.
    apply is_fin_not_nan in Hd. congruence.
Qed.

(** **** The two factorisations *)

Lemma np_dot_fin (x y : list flt) :
  finite_row x -> finite_row y -> is_fin (np_dot x y) = true.
Proof.
  intros Hx Hy. unfold np_dot. apply np_sum_fin.
  revert y Hy. induction Hx as [|a x Ha Hx IH]; intros y Hy; [constructor|].
  destruct Hy as [|b y Hb Hy]; [constructor|].
  cbn. constructor; [|now apply IH].
  destruct a; try discriminate. destruct b; try discriminate. reflexivity.
Qed.

Lemma fadd_fin (x y : flt) :
  is_fin x = true -> is_fin y = true -> is_fin (fadd x y) = true.
Proof. destruct x, y; try discriminate. reflexivity. Qed.

Lemma finite_table_vec (t : list (list flt)) (i : nat) :
  finite_table t -> finite_row (vec t i).
Proof.
  intros Ht. unfold vec. destruct (t !! i) as [r|] eqn:Hr; [|constructor].
  cbn. unfold finite_table in Ht. rewrite Forall_lookup in Ht. eauto.
Qed.

Lemma finite_row_at (r : list flt) (i : nat) :
  finite_row r -> (i < length r)%nat -> is_fin (at_ r i) = true.
Proof.
  intros Hr Hi. unfold at_.
  destruct (lookup_lt_is_Some_2 r i Hi) as [x Hx]. rewrite Hx. cbn.
  unfold finite_row in Hr. rewrite Forall_lookup in Hr. eauto.
Qed.

Lemma column_fin (h : list (list flt)) (c j : nat) :
  finite_table h -> rect c h -> (j < c)%nat -> finite_row (column h j).
Proof.
  intros Hh Hrect Hj. unfold column, finite_row.
  apply Forall_forall. intros x Hx.
  apply list_elem_of_In, in_map_iff in Hx as (r & <- & Hr).
  apply list_elem_of_In in Hr.
  unfold rect in Hrect. rewrite Forall_forall in Hrect.
  unfold finite_table in Hh. rewrite Forall_forall in Hh.
  destruct (lookup_lt_is_Some_2 r j ltac:(rewrite (Hrect r Hr); exact Hj))
    as [y Hy].
  rewrite Hy. cbn. specialize (Hh r Hr).
  unfold finite_row in Hh. rewrite Forall_lookup in Hh. eauto.
Qed.

(** A product of finite factors has finite cells. *)
Lemma matmul_fin (w h wh : list (list flt)) (i j : nat) (r : list flt) :
  finite_table w -> finite_table h -> rect (snd (shape h)) h ->
  matmul w h = Ok wh -> wh !! i = Some r -> (j < length r)%nat ->
  is_fin (cell wh i j) = true.
Proof.
  intros Hw Hh Hrect. unfold matmul.
  destruct (snd (shape w) =? length h)%nat; [|discriminate].
  intros [= <-] Hr Hj. unfold cell. rewrite Hr. cbn.
  rewrite lookup_map in Hr.
  destruct (w !! i) as [wi|] eqn:Hwi; [|discriminate].
  cbn in Hr. injection Hr as <-.
  rewrite length_map in Hj. unfold transpose in Hj |- *.
  rewrite length_map, length_seq in Hj.
  rewrite !lookup_map, lookup_seq_lt by exact Hj. cbn.
  apply np_dot_fin.
  - unfold finite_table in Hw. rewrite Forall_lookup in Hw. eauto.
  - now apply (column_fin h (snd (shape h))).
Qed.

Lemma KNN_predict_knn_cell (k : option Z) (t t' : KNN) (sim : list (list flt))
  (ncols i j : nat) :
  masked_shape_ok (base t) -> rect ncols (ratings (base t)) ->
  subject_similarity t = Some sim ->
  (i < length (ratings (base t)))%nat -> (j < ncols)%nat ->
  KNN_predict k t = (Ok tt, t') ->
  exists p sim_row,
    predicted_ratings (base t') = Some p /\ sim !! i = Some sim_row /\
    cell p i j = knn_cell (ratings (base t)) (top_subjects sim_row i k) j.
Proof.
  intros Hwf Hrect Hsim Hi Hj Hrun.
  assert (Hfit : is_fit (base t) = true).
  { destruct (is_fit (base t)) eqn:E; [reflexivity|].
    rewrite (predict_guarded_KNN k t E) in Hrun. discriminate. }
  assert (Hr : exists r, (if is_mask (base t) then masked_ratings (base t) = Some r
                          else r = ratings (base t))
                         /\ same_shape r (ratings (base t))).
  { destruct (is_mask (base t)) eqn:Em.
    - destruct (Hwf Em) as (mr & Hmr & Hs). eauto.
    - exists (ratings (base t)). split; reflexivity. }
  destruct Hr as (r & Hr & Hs).
  rewrite (KNN_predict_run k t r sim Hfit Hr Hsim) in Hrun.
  destruct (knn_fill _ _ _ _ _ _) as [pred|e] eqn:Ef; [|discriminate].
  injection Hrun as <-.
  destruct (knn_fill_predicts (ratings (base t)) sim r pred k ncols i j)
    as (sim_row & Hrow & Hc); auto.
  - now apply (rect_same_shape ncols r (ratings (base t))).
  - now rewrite (same_shape_length _ _ Hs).
  - exists pred, sim_row. auto.
Qed.

Lemma predict_single_fin (gb : flt) (w : weights) (u i : nat) :
  is_fin gb = true ->
  finite_table (w_user_vecs w) -> finite_table (w_item_vecs w) ->
  finite_row (w_user_bias w) -> finite_row (w_item_bias w) ->
  (u < length (w_user_bias w))%nat -> (i < length (w_item_bias w))%nat ->
  is_fin (predict_single gb w u i) = true.
Proof.
  intros Hgb Huv Hiv Hub Hib Hu Hi. unfold predict_single.
  repeat apply fadd_fin; auto using finite_row_at.
  apply np_dot_fin; now apply finite_table_vec.
Qed.

(** C9, as amended.  For each of the four models, on an instance with
    [ncols] items per subject and finite or missing ratings, a [predict()]
    that returns leaves a prediction with one cell per cell of the ratings
    table -- the same rows and columns -- and sets [is_predict]; the
    ratings are untouched.  The prediction is populated except where the
    model has no estimate: with [KNN] similarities that are finite or
    undefined and [NNMF] factors and biases that are finite, the cell of
    subject [i] and item [j] is missing exactly when, for [Mean], the
    fitted mean of the item is missing and, for [KNN], the subject has no
    neighbour or one of its neighbours has not rated the item; the two
    [NNMF] models leave no cell missing.  After [Mean.fit], the fitted mean
    of an item is missing exactly when the item has no rated cell in the
    training table. *)
Theorem predict_populates_defined_cells (k : option Z) (m m' : model)
  (ncols i j : nat) :
  masked_shape_ok (model_base m) ->
  rect ncols (ratings (model_base m)) ->
  rating_table (ratings (model_base m)) ->
  fitted_finite ncols m ->
  (i < length (ratings (model_base m)))%nat -> (j < ncols)%nat ->
  predict k m = (Ok tt, m') ->
  (ratings (model_base m') = ratings (model_base m) /\
   is_predict (model_base m') = true /\
   exists p, predicted_ratings (model_base m') = Some p /\
             same_shape p (ratings (model_base m)) /\
             (isnan (cell p i j) = true <-> estimate_undefined k m i j)) /\
  (forall (t0 : Mean) (d : option nat),
     m = A_Mean (snd (Mean_fit d t0)) ->
     rect ncols (ratings (base t0)) -> rating_table (ratings (base t0)) ->
     (0 < length (ratings (base t0)))%nat ->
     (is_mask (base t0) = true ->
      exists mr tm, masked_ratings (base t0) = Some mr /\
                    train_mask (base t0) = Some tm /\
                    same_shape mr (ratings (base t0)) /\ rating_table mr) ->
     (is_mask (base t0) = true ->
      forall n, d = Some n -> (1 <= n <= ncols)%nat) ->
     fst (Mean_fit d t0) = Ok tt /\
     (estimate_undefined k m i j <->
      Forall (fun x => isnan x = true) (column (Mean_training d (base t0)) j))).
Proof.
  intros Hwf Hrect Htable Hfitted Hi Hj Hrun. split.
  - destruct (predict_keeps_shape k m m' Hwf Hrun) as (Hrat & Hpred & p & Hp & Hs).
    split; [exact Hrat|]. split; [exact Hpred|].
    exists p. split; [exact Hp|]. split; [exact Hs|].
    destruct m as [t|t|t|t]; cbn [predict model_base estimate_undefined] in *.
    + (* Mean *)
      unfold tag in Hrun. injection Hrun as Hok <-.
      assert (Hfit : is_fit (base t) = true).
      { destruct (is_fit (base t)) eqn:E; [reflexivity|].
        rewrite (predict_guarded_Mean t E) in Hok. discriminate. }
      destruct (Mean_predict_cell t ncols i j Hfit Hrect Hi Hj)
        as (_ & p' & Hp' & Hc).
      cbn [model_base] in Hp. rewrite Hp in Hp'. injection Hp' as <-.
      now rewrite Hc.
    + (* KNN *)
      destruct Hfitted as (sim & Hsim & Hsimt).
      unfold tag in Hrun.
      destruct (KNN_predict k t) as [res t'] eqn:Ek. cbn [fst snd] in Hrun.
      injection Hrun as -> <-.
      destruct (KNN_predict_knn_cell k t t' sim ncols i j Hwf Hrect Hsim Hi Hj Ek)
        as (p' & sim_row & Hp' & Hrow & Hc).
      cbn [model_base] in Hp. rewrite Hp in Hp'. injection Hp' as <-.
      rewrite Hsim. cbn [default id]. rewrite Hrow. cbn [default id].
      rewrite Hc. apply knn_cell_isnan_iff; [exact Htable|].
      apply Forall_forall. intros e He. apply list_elem_of_In in He.
      destruct (top_subjects_entry sim_row i k e He) as [Hse Hn].
      unfold rating_table in Hsimt. rewrite Forall_lookup in Hsimt.
      specialize (Hsimt i sim_row Hrow). rewrite Forall_lookup in Hsimt.
      destruct (rating_cell_cases _ (Hsimt _ _ Hse)); [assumption|congruence].
    + (* NNMF_multiplicative *)
      destruct Hfitted as (w & h & HW & HH & Hw & Hh & Hhr).
      unfold tag in Hrun.
      destruct (NNMF_multiplicative_predict t) as [res t'] eqn:Ek.
      cbn [fst snd] in Hrun. injection Hrun as -> <-.
      revert Ek.
      unfold NNMF_multiplicative_predict, bind, get, raise, on_base, modify,
        lift, ret.
      destruct (negb (is_fit (base t))); [discriminate|].
      cbn [fst snd]. rewrite HW, HH. cbn [attr fst snd].
      destruct (matmul w h) as [wh|e] eqn:Em; cbn [fst snd]; [|discriminate].
      cbn [base NNMF_multiplicative_Model with_base nm_base ratings
           set_predicted_ratings].
      destruct (same_shapeb wh (ratings (nm_base t))) eqn:Es; cbn [fst snd];
        [|discriminate].
      intros [= <-]. cbn in Hp. injection Hp as <-.
      unfold same_shapeb in Es. apply bool_decide_eq_true in Es.
      destruct (lookup_lt_is_Some_2 _ i Hi) as [ri Hri].
      destruct (same_shape_lookup _ _ i ri (same_shape_sym _ _ Es) Hri)
        as (r & Hr & Hl).
      pose proof (rect_lookup ncols _ i ri Hrect Hri) as Hlen.
      assert (Hfin : is_fin (cell wh i j) = true).
      { apply (matmul_fin w h wh i j r); auto. lia. }
      apply is_fin_not_nan in Hfin. rewrite Hfin.
      split; [discriminate|contradiction].
    + (* NNMF_sgd *)
      destruct Hfitted as (uv & iv & gb & ub & ib & Huv & Hiv & Hgb & Hub & Hib
                           & Fuv & Fiv & Fgb & Fub & Fib & Luv & Liv & Lub & Lib).
      set (w := {| w_user_vecs := uv; w_item_vecs := iv;
                   w_user_bias := ub; w_item_bias := ib |}).
      destruct (sgd_fill_cell gb w (ratings (base t)) i j) as [Hok Hcell];
        [|cbn; lia|cbn; lia|].
      { intros u' i' Hu' Hi'. cbn in Hu', Hi'.
        apply (rect_in_range ncols); [exact Hrect|lia|lia]. }
      unfold tag in Hrun.
      destruct (NNMF_sgd_predict t) as [res t'] eqn:Ek.
      cbn [fst snd] in Hrun. injection Hrun as -> <-.
      revert Ek.
      unfold NNMF_sgd_predict, bind, get, on_base, modify, lift, ret.
      rewrite Huv, Hiv, Hgb, Hub, Hib. cbn [attr fst snd].
      fold w. rewrite Hok. cbn [fst snd].
      intros [= <-].
      cbn [base NNMF_sgd_Model with_base sgd_base predicted_ratings
           set_is_predict set_predicted_ratings] in Hp.
      injection Hp as <-.
      assert (Hfin : is_fin (predict_single gb w i j) = true).
      { apply predict_single_fin; cbn; auto; lia. }
      rewrite <- Hcell in Hfin.
      apply is_fin_not_nan in Hfin.
      split; [intros Hn|contradiction].
      cbn [base NNMF_sgd_Model] in Hfin. congruence.
  - intros t0 d -> Hrect0 Htable0 Hlen0 Hmask0 Hd0.
    assert (Hmask1 : is_mask (base t0) = true ->
              exists mr tm, masked_ratings (base t0) = Some mr /\
                            train_mask (base t0) = Some tm /\
                            same_shape mr (ratings (base t0))).
    { intros E. destruct (Hmask0 E) as (mr & tm & H1 & H2 & H3 & _). eauto. }
    assert (Hmask2 : is_mask (base t0) = true ->
              exists mr tm, masked_ratings (base t0) = Some mr /\
                            train_mask (base t0) = Some tm /\ rating_table mr).
    { intros E. destruct (Hmask0 E) as (mr & tm & H1 & H2 & _ & H4). eauto. }
    destruct (Mean_fit_run t0 d ncols Hrect0 Hmask1 Hd0)
      as (Hok & Hmean & _ & _ & Hshape).
    split; [exact Hok|].
    cbn [estimate_undefined]. rewrite Hmean. cbn [default id].
    assert (Hr : rect ncols (Mean_training d (base t0)))
      by exact (rect_same_shape ncols _ _ Hshape Hrect0).
    rewrite col_means_lookup.
    2:{ rewrite (rect_shape ncols _ Hr); [exact Hj|].
        rewrite (same_shape_length _ _ Hshape). exact Hlen0. }
    cbn [default id]. apply nanmean_isnan_iff, column_rating_cells.
    exact (Mean_training_rating_table (base t0) d ncols Hrect0 Htable0 Hmask2 Hd0).
Qed.

(** Witness of [predict_populates_defined_cells]: [Mean] on
    [ratings_unrated_item], whose second item nobody rated; the cell of the
    first subject and that item is missing, as the item has no rated
    training cell. *)
Lemma predict_populates_defined_cells_witness :
  let t0 := Mean_init ratings_unrated_item None in
  let m := A_Mean (snd (Mean_fit None t0)) in
  exists p,
    predicted_ratings (model_base (snd (predict None m))) = Some p /\
    same_shape p ratings_unrated_item /\
    (isnan (cell p 0 1) = true <->
     Forall (fun x => isnan x = true)
            (column (Mean_training None (base t0)) 1)).
Proof.
  cbn zeta.
  destruct (predict_populates_defined_cells None
              (A_Mean (snd (Mean_fit None (Mean_init ratings_unrated_item None))))
              (snd (predict None
                      (A_Mean (snd (Mean_fit None
                                      (Mean_init ratings_unrated_item None))))))
              2 0 1)
    as [(_ & _ & p & Hp & Hs & Hiff) Hlink].
  - intros _. eexists. split; reflexivity.
  - repeat constructor.
  - repeat constructor.
  - exact I.
  - cbn. lia.
  - lia.
  - reflexivity.
  - destruct (Hlink (Mean_init ratings_unrated_item None) None eq_refl)
      as [_ Hiff2].
    + repeat constructor.
    + repeat constructor.
    + cbn. lia.
    + intros _. do 2 eexists.
      split; [reflexivity|]. split; [reflexivity|].
      split; [reflexivity|repeat constructor].
    + discriminate.
    + exists p. split; [exact Hp|]. split; [exact Hs|].
      now rewrite Hiff.
Defined.
